(** * CFPM evaluation harness: event-stream decoding, quality heuristics,
      storage lookup and report assembly

    A shallow embedding of [scripts/cfpm_api_eval.py] and
    [scripts/cfpm_resume_eval.py].

    Conventions of the embedding.
    - A Python [str] is a [string]; a character is a code point below 256,
      and [lower_char], [isspace] and [isdigit] are Python's [str.lower],
      [str.isspace] and the regex class [\d] on that range; [upper_char]
      gives the upper-case partner of a letter when it lies in the range.
    - A value decoded from JSON (or read from a row of the store) is a
      [pyval]; a [dict] keeps its items in insertion order.
    - [json.loads] belongs to the Python library: the decoders take it as a
      parameter [json_loads], with [None] for a raised exception. *)

From stdpp Require Import base gmap strings sorting.
From Stdlib Require Import List String Ascii ZArith NArith Bool Lia QArith.
From Stdlib Require Import Numbers.DecimalString Sorting.Sorted Sorting.Permutation.
From Stdlib Require Import Structures.OrderedTypeEx.
Import ListNotations.

Local Close Scope Q_scope.

Local Open Scope string_scope.
Local Open Scope list_scope.

(** ** Characters and strings *)

Definition ord (c : ascii) : N := N_of_ascii c.

Definition in_range (lo hi n : N) : bool := ((lo <=? n) && (n <=? hi))%N.

Definition isdigit (c : ascii) : bool := in_range 48 57 (ord c).

Definition isspace (c : ascii) : bool :=
  let n := ord c in
  in_range 9 13 n || in_range 28 32 n || (n =? 133)%N || (n =? 160)%N.

Definition is_ascii_letter (c : ascii) : bool :=
  in_range 65 90 (ord c) || in_range 97 122 (ord c).

Definition lower_char (c : ascii) : ascii :=
  let n := ord c in
  if in_range 65 90 n || (in_range 192 222 n && negb (n =? 215)%N)
  then ascii_of_N (n + 32) else c.

Definition upper_char (c : ascii) : ascii :=
  let n := ord c in
  if in_range 97 122 n || (in_range 224 254 n && negb (n =? 247)%N)
  then ascii_of_N (n - 32) else c.

Fixpoint lower (s : string) : string :=
  match s with
  | EmptyString => EmptyString
  | String c s' => String (lower_char c) (lower s')
  end.

Fixpoint lstrip (s : string) : string :=
  match s with
  | EmptyString => EmptyString
  | String c s' => if isspace c then lstrip s' else s
  end.

Fixpoint rstrip (s : string) : string :=
  match s with
  | EmptyString => EmptyString
  | String c s' =>
      match rstrip s' with
      | EmptyString => if isspace c then EmptyString else String c EmptyString
      | r => String c r
      end
  end.

(** [s.strip()] *)
Definition strip (s : string) : string := rstrip (lstrip s).

(** [s.startswith(p)] *)
Definition startswith (s p : string) : bool := String.prefix p s.

(** [s[n:]] *)
Fixpoint slice_from (n : nat) (s : string) : string :=
  match n, s with
  | O, _ => s
  | S n', String _ s' => slice_from n' s'
  | S _, EmptyString => EmptyString
  end.

(** [sub in s] *)
Fixpoint contains (sub s : string) : bool :=
  String.prefix sub s ||
  match s with
  | EmptyString => false
  | String _ s' => contains sub s'
  end.

(** [s.endswith(suf)] *)
Fixpoint endswith (s suf : string) : bool :=
  String.eqb s suf ||
  match s with
  | EmptyString => false
  | String _ s' => endswith s' suf
  end.

(** The double quote and the backslash, which string literals here avoid. *)
Definition dquote : ascii := "034"%char.
Definition backslash : ascii := "092"%char.
Definition newline : ascii := "010"%char.

(** ** Python values *)

Local Unset Elimination Schemes.

Inductive pyval : Type :=
| PNone
| PBool (b : bool)
| PInt (z : Z)
| PFloat (repr : string)   (* a float, held as its [repr] *)
| PStr (s : string)
| PList (l : list pyval)
| PDict (d : list (string * pyval)).

Local Set Elimination Schemes.

Definition dict : Type := list (string * pyval).

(** [d.get(k)]; Python's [None] for a missing key is [None] here too. *)
Fixpoint dict_get (d : dict) (k : string) : option pyval :=
  match d with
  | [] => None
  | (k', v) :: d' => if String.eqb k' k then Some v else dict_get d' k
  end.

(** [d.get(k, dflt)] *)
Definition dict_get_default (d : dict) (k : string) (dflt : pyval) : pyval :=
  match dict_get d k with
  | Some v => v
  | None => dflt
  end.

(** [d[k] = v]: an existing key keeps its place, a new one goes last. *)
Fixpoint dict_set (d : dict) (k : string) (v : pyval) : dict :=
  match d with
  | [] => [(k, v)]
  | (k', v') :: d' =>
      if String.eqb k' k then (k', v) :: d' else (k', v') :: dict_set d' k v
  end.

Definition hex_digit (n : N) : ascii :=
  if (n <? 10)%N then ascii_of_N (48 + n) else ascii_of_N (87 + n).

Definition isprintable (c : ascii) : bool :=
  let n := ord c in
  in_range 32 126 n || (in_range 161 255 n && negb (n =? 173)%N).

Definition repr_char (quote c : ascii) : string :=
  let n := ord c in
  if Ascii.eqb c quote || Ascii.eqb c backslash then String backslash (String c "")
  else if (n =? 9)%N then String backslash "t"
  else if (n =? 10)%N then String backslash "n"
  else if (n =? 13)%N then String backslash "r"
  else if isprintable c then String c ""
  else String backslash (String "x" (String (hex_digit (n / 16)) (String (hex_digit (n mod 16)) ""))).

Fixpoint repr_chars (quote : ascii) (s : string) : string :=
  match s with
  | EmptyString => EmptyString
  | String c s' => repr_char quote c +:+ repr_chars quote s'
  end.

(** [repr(s)] of a [str] *)
Definition repr_str (s : string) : string :=
  let quote :=
    if contains "'" s && negb (contains (String dquote "") s) then dquote else "'"%char in
  String quote (repr_chars quote s +:+ String quote "").

Definition str_of_Z (z : Z) : string := NilZero.string_of_int (Z.to_int z).

Fixpoint join (sep : string) (l : list string) : string :=
  match l with
  | [] => ""
  | [x] => x
  | x :: l' => x +:+ sep +:+ join sep l'
  end.

(** [repr(v)] *)
Fixpoint py_repr (v : pyval) : string :=
  match v with
  | PNone => "None"
  | PBool true => "True"
  | PBool false => "False"
  | PInt z => str_of_Z z
  | PFloat r => r
  | PStr s => repr_str s
  | PList l => "[" +:+ join ", " (List.map py_repr l) +:+ "]"
  | PDict d =>
      "{" +:+ join ", " (List.map (fun kv => match kv with
                                       | (k, x) => repr_str k +:+ ": " +:+ py_repr x
                                       end) d) +:+ "}"
  end.

(** [str(v)] *)
Definition py_str (v : pyval) : string :=
  match v with
  | PStr s => s
  | _ => py_repr v
  end.

(** [isinstance(v, str)], [isinstance(v, dict)] *)
Definition as_str (v : option pyval) : option string :=
  match v with
  | Some (PStr s) => Some s
  | _ => None
  end.

Definition as_dict (v : option pyval) : option dict :=
  match v with
  | Some (PDict d) => Some d
  | _ => None
  end.

(** ** Regular expressions

    The two patterns of [cfpm_api_eval.py] use literals, [\d], bracket
    sets, bounded repetition, [?] and [+] on a set.  [re.match] anchors the
    match at the start of the string, which makes the leading [^] redundant;
    the closing [$] accepts the end of the string or a final newline. *)

Inductive atom : Type :=
| ALit (c : ascii)                               (* a literal character *)
| ADigit                                         (* \d *)
| ASet (negated : bool) (items : list (ascii * ascii)).   (* [a-b...] or [^a-b...] *)

Inductive regex : Type :=
| RAtom (a : atom)
| RSeq (r1 r2 : regex)
| RRep (lo hi : nat) (r : regex)                 (* r{lo,hi}; r? is r{0,1} *)
| RPlus (a : atom).                              (* a+ *)

Definition in_items (items : list (ascii * ascii)) (c : ascii) : bool :=
  existsb (fun it => in_range (ord (fst it)) (ord (snd it)) (ord c)) items.

(** One character against an atom; [ic] is [re.IGNORECASE]. *)
Definition atom_match (ic : bool) (a : atom) (c : ascii) : bool :=
  match a with
  | ALit x => if ic then Ascii.eqb (lower_char c) (lower_char x) else Ascii.eqb c x
  | ADigit => isdigit c
  | ASet negated items =>
      xorb negated
        (if ic
         then in_items items c || in_items items (lower_char c) || in_items items (upper_char c)
         else in_items items c)
  end.

Section Matcher.
Variable ic : bool.

(** [m] is the matcher of the repeated expression; the continuation [k]
    receives what is left of the input. *)
Fixpoint rep_upto (m : list ascii -> (list ascii -> bool) -> bool) (n : nat)
    (s : list ascii) (k : list ascii -> bool) : bool :=
  match n with
  | O => k s
  | S n' => m s (fun s' => rep_upto m n' s' k) || k s
  end.

Fixpoint rep_exact (m : list ascii -> (list ascii -> bool) -> bool) (n : nat)
    (cont : list ascii -> (list ascii -> bool) -> bool)
    (s : list ascii) (k : list ascii -> bool) : bool :=
  match n with
  | O => cont s k
  | S n' => m s (fun s' => rep_exact m n' cont s' k)
  end.

Fixpoint plus_atom (a : atom) (s : list ascii) (k : list ascii -> bool) : bool :=
  match s with
  | [] => false
  | c :: s' => atom_match ic a c && (plus_atom a s' k || k s')
  end.

Fixpoint rmatch (r : regex) (s : list ascii) (k : list ascii -> bool) : bool :=
  match r with
  | RAtom a =>
      match s with
      | [] => false
      | c :: s' => atom_match ic a c && k s'
      end
  | RSeq r1 r2 => rmatch r1 s (fun s' => rmatch r2 s' k)
  | RRep lo hi r' => rep_exact (rmatch r') lo (rep_upto (rmatch r') (hi - lo)) s k
  | RPlus a => plus_atom a s k
  end.
End Matcher.

(** What [$] accepts. *)
Definition at_dollar (rest : list ascii) : bool :=
  match rest with
  | [] => true
  | [c] => Ascii.eqb c newline
  | _ => false
  end.

(** [re.compile("^" + r + "$", flags).match(s)] as a truth value. *)
Definition re_match (ic : bool) (r : regex) (s : string) : bool :=
  rmatch ic r (list_ascii_of_string s) at_dollar.

Fixpoint rseq (rs : list regex) (last : regex) : regex :=
  match rs with
  | [] => last
  | r :: rs' => RSeq r (rseq rs' last)
  end.

Fixpoint rlits (s : string) (last : regex) : regex :=
  match s with
  | EmptyString => last
  | String c s' => RSeq (RAtom (ALit c)) (rlits s' last)
  end.

Definition date_sep : regex := RAtom (ASet false [("."%char, "."%char); ("/"%char, "/"%char); ("-"%char, "-"%char)]).

(** [DATE_ONLY_RE = re.compile(r"^\d{4}[./-]\d{1,2}[./-]\d{1,2}$")] *)
Definition DATE_ONLY_RE : regex :=
  rseq [RRep 4 4 (RAtom ADigit); date_sep; RRep 1 2 (RAtom ADigit); date_sep]
       (RRep 1 2 (RAtom ADigit)).

Definition date_only_match (s : string) : bool := re_match false DATE_ONLY_RE s.

(** [DESKTOP_WRONG_RE =
     re.compile(r"^[A-Za-z]:\\Users\\[^\\]+\\Desktop\\?$", re.IGNORECASE)] *)
Definition DESKTOP_WRONG_RE : regex :=
  RSeq (RAtom (ASet false [("A"%char, "Z"%char); ("a"%char, "z"%char)]))
    (rlits (String ":" (String backslash ("Users" +:+ String backslash "")))
       (RSeq (RPlus (ASet true [(backslash, backslash)]))
          (rlits (String backslash "Desktop")
             (RRep 0 1 (RAtom (ALit backslash)))))).

Definition desktop_wrong_match (s : string) : bool := re_match true DESKTOP_WRONG_RE s.

(** [PROBE_MARKERS] *)
Definition PROBE_MARKERS : list string :=
  [ "$env:USERPROFILE";
    "%USERPROFILE%";
    "GetFolderPath('Desktop')";
    "User Shell Folders";
    "Test-Path";
    "Get-ChildItem C:\Users" ].

(** ** The quality evaluator *)

Record ProbeStats : Type := {
  probeCount : nat;
  probeCommands : list string
}.

(** [score_probe_commands] *)
Definition is_probe (cmd : string) : bool :=
  let lowered := lower cmd in
  existsb (fun marker => contains (lower marker) lowered) PROBE_MARKERS.

Definition score_probe_commands (commands : list string) : ProbeStats :=
  let probes := List.filter is_probe commands in
  {| probeCount := List.length probes; probeCommands := probes |}.

Record QualityReport : Type := {
  activeFactCount : nat;
  activeArtifactCount : nat;
  activeInvalidPathCount : nat;
  dateNoiseFacts : list dict;
  acceptedDateCandidates : list dict;
  wrongDesktopArtifacts : list dict;
  oneDriveDesktopArtifacts : list dict;
  probeStatsSecondTurn : ProbeStats;
  wrongToolGatePaths : list dict;
  issues : list string
}.

(** [str(f.get(key, "")).lower()] *)
Definition field_lower (key : string) (f : dict) : string :=
  lower (py_str (dict_get_default f key (PStr ""))).

Definition is_active (f : dict) : bool := String.eqb (field_lower "status" f) "active".
Definition is_artifact (f : dict) : bool := contains "artifact" (field_lower "category" f).
Definition is_invalid_path (f : dict) : bool := contains "invalid_path" (field_lower "category" f).
Definition is_accepted (c : dict) : bool := String.eqb (field_lower "decision" c) "accepted".

(** [isinstance(f.get(key), str) and p(f[key])] *)
Definition str_field_sat (key : string) (p : string -> bool) (f : dict) : bool :=
  match as_str (dict_get f key) with
  | Some s => p s
  | None => false
  end.

Definition is_date_content : dict -> bool :=
  str_field_sat "content" (fun s => date_only_match (strip s)).

Definition is_wrong_desktop_content : dict -> bool :=
  str_field_sat "content" (fun s => desktop_wrong_match (strip s)).

Definition is_onedrive_desktop_content : dict -> bool :=
  str_field_sat "content" (fun s => contains "onedrive" (lower s) && endswith (lower s) "desktop").

Definition is_wrong_gate_path : dict -> bool :=
  str_field_sat "path" (fun s => desktop_wrong_match (strip s)).

(** [isinstance(f.get("content"), str) and
     f.get("content", "").lower() == w.get("content", "").lower()];
    [w] is an element of [wrong_desktop], whose content is a [str]. *)
Definition marks (w f : dict) : bool :=
  match as_str (dict_get f "content"), as_str (Some (dict_get_default w "content" (PStr ""))) with
  | Some s, Some s0 => String.eqb (lower s) (lower s0)
  | _, _ => false
  end.

(** [if xs: issues.append(code)] *)
Definition issue_if (b : bool) (code : string) : list string :=
  if b then [code] else [].

Definition nonempty {A : Type} (l : list A) : bool :=
  match l with
  | [] => false
  | _ :: _ => true
  end.

Definition evaluate_quality (facts_api candidates_api tool_gates : list dict)
    (second_turn_commands : list string) : QualityReport :=
  let active_facts := List.filter is_active facts_api in
  let active_artifacts := List.filter is_artifact active_facts in
  let active_invalids := List.filter is_invalid_path active_facts in
  let date_facts := List.filter is_date_content active_facts in
  let wrong_desktop := List.filter is_wrong_desktop_content active_artifacts in
  let onedrive_desktop := List.filter is_onedrive_desktop_content active_artifacts in
  let accepted_date_candidates :=
    List.filter (fun c => is_accepted c && is_date_content c) candidates_api in
  let probe_stats := score_probe_commands second_turn_commands in
  let second_turn_repeated_probe :=
    (0 <? probeCount probe_stats)%nat && (0 <? List.length onedrive_desktop)%nat in
  let wrong_gate_paths := List.filter is_wrong_gate_path tool_gates in
  let issues :=
    issue_if (nonempty date_facts) "date_noise_fact_active"
    ++ issue_if (nonempty accepted_date_candidates) "date_noise_candidate_accepted"
    ++ issue_if (match wrong_desktop with
                 | [] => false
                 | w :: _ => negb (existsb (marks w) active_invalids)
                 end) "wrong_desktop_without_invalid_marker"
    ++ issue_if second_turn_repeated_probe "second_turn_repeated_probe_despite_memory"
    ++ issue_if (nonempty wrong_gate_paths) "tool_gate_reused_wrong_path" in
  {| activeFactCount := List.length active_facts;
     activeArtifactCount := List.length active_artifacts;
     activeInvalidPathCount := List.length active_invalids;
     dateNoiseFacts := date_facts;
     acceptedDateCandidates := accepted_date_candidates;
     wrongDesktopArtifacts := wrong_desktop;
     oneDriveDesktopArtifacts := onedrive_desktop;
     probeStatsSecondTurn := probe_stats;
     wrongToolGatePaths := wrong_gate_paths;
     issues := issues |}.

(** Facts, candidates and gates as the API returns them. *)
Definition mk_fact (category content status : string) : dict :=
  [("category", PStr category); ("content", PStr content); ("status", PStr status)].

Definition mk_candidate (decision content : string) : dict :=
  [("decision", PStr decision); ("content", PStr content)].

(** ** The language of an expression *)

Fixpoint lang_pow (L : list ascii -> Prop) (n : nat) (s : list ascii) : Prop :=
  match n with
  | O => s = []
  | S n' => exists s1 s2, s = s1 ++ s2 /\ L s1 /\ lang_pow L n' s2
  end.

Fixpoint lang (ic : bool) (r : regex) (s : list ascii) : Prop :=
  match r with
  | RAtom a => exists c, s = [c] /\ atom_match ic a c = true
  | RSeq r1 r2 => exists s1 s2, s = s1 ++ s2 /\ lang ic r1 s1 /\ lang ic r2 s2
  | RRep lo hi r' => exists n, lo <= n /\ n <= lo + (hi - lo) /\ lang_pow (lang ic r') n s
  | RPlus a => s <> [] /\ Forall (fun c => atom_match ic a c = true) s
  end.

(** A matcher [m] decides the language [L] followed by its continuation. *)
Definition decides (m : list ascii -> (list ascii -> bool) -> bool)
    (L : list ascii -> Prop) : Prop :=
  forall s k, m s k = true <-> exists s1 s2, s = s1 ++ s2 /\ L s1 /\ k s2 = true.

(** ** The two patterns, in words *)

Definition is_date_sep (c : ascii) : Prop :=
  c = "."%char \/ c = "/"%char \/ c = "-"%char.

(** Four digits, a separator, one or two digits, a separator, one or two
    digits, and nothing else. *)
Definition bare_date (s : string) : Prop :=
  exists (y m d : list ascii) (sep1 sep2 : ascii),
    list_ascii_of_string s = y ++ sep1 :: m ++ sep2 :: d /\
    List.length y = 4 /\
    (1 <= List.length m /\ List.length m <= 2) /\
    (1 <= List.length d /\ List.length d <= 2) /\
    Forall (fun c => isdigit c = true) y /\
    Forall (fun c => isdigit c = true) m /\
    Forall (fun c => isdigit c = true) d /\
    is_date_sep sep1 /\ is_date_sep sep2.

(** A drive letter, [:\Users\], one path segment, [\Desktop] and an optional
    final backslash, letters in either case. *)
Definition plain_desktop_path (s : string) : Prop :=
  exists (drive : ascii) (users seg desktop tail : list ascii),
    list_ascii_of_string s = drive :: users ++ seg ++ desktop ++ tail /\
    is_ascii_letter drive = true /\
    List.map lower_char users = list_ascii_of_string ":\users" ++ [backslash] /\
    seg <> [] /\ Forall (fun c => c <> backslash) seg /\
    List.map lower_char desktop = list_ascii_of_string "\desktop" /\
    (tail = [] \/ tail = [backslash]).

(** ** The heuristics, in words *)

Definition substring_of (sub s : string) : Prop := exists pre post, s = pre +:+ sub +:+ post.

Definition suffix_of (suf s : string) : Prop := exists pre, s = pre +:+ suf.

(** The content of [f] is the string [s]. *)
Definition has_content (f : dict) (s : string) : Prop := dict_get f "content" = Some (PStr s).

(** An active artifact fact whose stripped content is a plain desktop path. *)
Definition matching_artifact (f : dict) : Prop :=
  is_active f = true /\ is_artifact f = true /\
  exists s, has_content f s /\ plain_desktop_path (strip s).

(** Some active invalid-path fact of [facts] has the content of [w], up to
    the case of letters. *)
Definition has_marker (facts : list dict) (w : dict) : Prop :=
  exists f s s0, In f facts /\ is_active f = true /\ is_invalid_path f = true /\
    has_content f s /\ has_content w s0 /\ lower s = lower s0.

(** The path pattern with [\Desktop] optional: a drive letter, [:\Users\],
    one path segment and then nothing or [\Desktop]. *)
Definition plain_desktop_path_optional_desktop (s : string) : Prop :=
  exists (drive : ascii) (users seg desktop : list ascii),
    list_ascii_of_string s = drive :: users ++ seg ++ desktop /\
    is_ascii_letter drive = true /\
    List.map lower_char users = list_ascii_of_string ":\users" ++ [backslash] /\
    seg <> [] /\ Forall (fun c => c <> backslash) seg /\
    (desktop = [] \/ List.map lower_char desktop = list_ascii_of_string "\desktop").

(** The three filters that select [wrong_desktop], as one test. *)
Definition wrong_desktop_test (f : dict) : bool :=
  is_active f && (is_artifact f && is_wrong_desktop_content f).

(** ** Sample records *)

Definition bob_desktop : dict := mk_fact "artifact_path" "C:\Users\bob\Desktop" "active".
Definition al_desktop : dict := mk_fact "artifact_path" "C:\Users\al\Desktop" "active".
Definition bob_desktop_invalid : dict := mk_fact "invalid_path" "c:\users\bob\desktop" "active".
Definition bob_home : dict := mk_fact "artifact_path" "C:\Users\bob" "active".
Definition bob_onedrive : dict := mk_fact "artifact_path" "C:\Users\bob\OneDrive\Desktop" "active".
Definition stale_date : dict := mk_fact "artifact_path" "2024-01-01" "superseded".
Definition invalid_date : dict := mk_fact "invalid_path" "2024-01-01" "active".

(** ** Exceptions *)

(** An exception, by [type(exc).__name__] and [str(exc)]. *)
Record exn : Type := { exn_kind : string; exn_message : string }.

Inductive outcome (A : Type) : Type :=
| Returns (a : A)
| Raised (e : exn).

Arguments Returns {A} a.
Arguments Raised {A} e.

Definition bind {A B : Type} (m : outcome A) (k : A -> outcome B) : outcome B :=
  match m with
  | Returns a => k a
  | Raised e => Raised e
  end.

(** [type(v).__name__] *)
Definition type_name (v : pyval) : string :=
  match v with
  | PNone => "NoneType"
  | PBool _ => "bool"
  | PInt _ => "int"
  | PFloat _ => "float"
  | PStr _ => "str"
  | PList _ => "list"
  | PDict _ => "dict"
  end.

(** What [v.get] raises when [v] is not a [dict]. *)
Definition no_attribute_get (v : pyval) : exn :=
  {| exn_kind := "AttributeError";
     exn_message := "'" +:+ type_name v +:+ "' object has no attribute 'get'" |}.

(** What [for c in v] raises when [v] cannot be iterated. *)
Definition not_iterable (v : pyval) : exn :=
  {| exn_kind := "TypeError";
     exn_message := "'" +:+ type_name v +:+ "' object is not iterable" |}.

(** Truth value of [v], as in [v or []]. *)
Definition truthy (v : pyval) : bool :=
  match v with
  | PNone => false
  | PBool b => b
  | PInt z => negb (z =? 0)%Z
  | PFloat r => negb (String.eqb r "0.0" || String.eqb r "-0.0")
  | PStr s => negb (String.eqb s "")
  | PList l => nonempty l
  | PDict d => nonempty d
  end.

Fixpoint chars_of (s : string) : list pyval :=
  match s with
  | EmptyString => []
  | String c s' => PStr (String c EmptyString) :: chars_of s'
  end.

(** The items [for c in v] goes through. *)
Definition iterate (v : pyval) : outcome (list pyval) :=
  match v with
  | PList l => Returns l
  | PDict d => Returns (List.map (fun kv => PStr (fst kv)) d)
  | PStr s => Returns (chars_of s)
  | _ => Raised (not_iterable v)
  end.

(** [v == s] for a string literal [s] *)
Definition is_str (v : option pyval) (s : string) : bool :=
  match v with
  | Some (PStr s') => String.eqb s' s
  | _ => false
  end.

(** ** The event stream

    The open response is the list of its lines, already decoded
    ([raw.decode("utf-8", errors="replace")] does not fail), and the way the
    iteration ends: at the end of the stream, or with an exception of the
    transport.  For the reader of [cfpm_api_eval.py] each line comes with the
    reading of [time.monotonic()] at the start of its iteration. *)

Inductive stream_end : Type :=
| Eof
| Breaks (e : exn).

Definition finish (A : Type) (fin : stream_end) (a : A) : outcome A :=
  match fin with
  | Eof => Returns a
  | Breaks e => Raised e
  end.

Arguments finish {A} fin a.

(** [time.monotonic() - started > timeout_sec] *)
Definition timed_out (started : Q) (timeout_sec : Z) (now : Q) : bool :=
  negb (Qle_bool (now - started) (inject_Z timeout_sec)).

(** [parsed.get("type") in ("Finish", "Error")] *)
Definition is_terminal (d : dict) : bool :=
  is_str (dict_get d "type") "Finish" || is_str (dict_get d "type") "Error".

Record SseResult : Type := {
  eventTypes : list string;
  assistantText : list string;
  cfpmSystemNotifications : list string;
  toolRequestCount : nat;
  error : pyval;
  finishReason : pyval
}.

Definition sse_start : SseResult :=
  {| eventTypes := []; assistantText := []; cfpmSystemNotifications := [];
     toolRequestCount := 0; error := PNone; finishReason := PNone |}.

Definition add_event_type (t : string) (st : SseResult) : SseResult :=
  {| eventTypes := eventTypes st ++ [t]; assistantText := assistantText st;
     cfpmSystemNotifications := cfpmSystemNotifications st;
     toolRequestCount := toolRequestCount st; error := error st;
     finishReason := finishReason st |}.

Definition add_assistant_text (text : string) (st : SseResult) : SseResult :=
  {| eventTypes := eventTypes st; assistantText := assistantText st ++ [text];
     cfpmSystemNotifications := cfpmSystemNotifications st;
     toolRequestCount := toolRequestCount st; error := error st;
     finishReason := finishReason st |}.

Definition add_system_note (note : string) (st : SseResult) : SseResult :=
  {| eventTypes := eventTypes st; assistantText := assistantText st;
     cfpmSystemNotifications := cfpmSystemNotifications st ++ [note];
     toolRequestCount := toolRequestCount st; error := error st;
     finishReason := finishReason st |}.

Definition add_tool_request (st : SseResult) : SseResult :=
  {| eventTypes := eventTypes st; assistantText := assistantText st;
     cfpmSystemNotifications := cfpmSystemNotifications st;
     toolRequestCount := S (toolRequestCount st); error := error st;
     finishReason := finishReason st |}.

Definition set_error (v : pyval) (st : SseResult) : SseResult :=
  {| eventTypes := eventTypes st; assistantText := assistantText st;
     cfpmSystemNotifications := cfpmSystemNotifications st;
     toolRequestCount := toolRequestCount st; error := v;
     finishReason := finishReason st |}.

Definition set_finish_reason (v : pyval) (st : SseResult) : SseResult :=
  {| eventTypes := eventTypes st; assistantText := assistantText st;
     cfpmSystemNotifications := cfpmSystemNotifications st;
     toolRequestCount := toolRequestCount st; error := error st;
     finishReason := v |}.

(** The body of [for c in msg.get("content", []) or []] for one item. *)
Definition scan_item (c : pyval) (st : SseResult) : outcome SseResult :=
  match c with
  | PDict cd =>
      let ty := dict_get cd "type" in
      let st1 :=
        if is_str ty "text"
        then match dict_get cd "text" with
             | Some (PStr text) => add_assistant_text text st
             | _ => st
             end
        else st in
      let st2 := if is_str ty "toolRequest" then add_tool_request st1 else st1 in
      let st3 :=
        if is_str ty "systemNotification"
        then match dict_get cd "msg" with
             | Some (PStr note) => if contains "CFPM" note then add_system_note note st2 else st2
             | _ => st2
             end
        else st2 in
      Returns st3
  | _ => Raised (no_attribute_get c)
  end.

Fixpoint scan_content (items : list pyval) (st : SseResult) : outcome SseResult :=
  match items with
  | [] => Returns st
  | c :: rest => bind (scan_item c st) (scan_content rest)
  end.

(** The branch [if t == "Message":] of [reply_sse]. *)
Definition scan_message (obj : dict) (st : SseResult) : outcome SseResult :=
  match dict_get_default obj "message" (PDict []) with
  | PDict msg =>
      let content := dict_get_default msg "content" (PList []) in
      bind (if truthy content then iterate content else Returns [])
           (fun items => scan_content items st)
  | other => Raised (no_attribute_get other)
  end.

Section Decoders.

(** [json.loads], with [None] when it raises. *)
Variable json_loads : string -> option pyval.

(** [maybe_json] *)
Definition maybe_json (value : string) : pyval :=
  match json_loads value with
  | Some v => v
  | None => PStr value
  end.

(** The loop of [ApiClient.stream_reply] in [cfpm_api_eval.py]. *)
Fixpoint stream_loop (started : Q) (timeout_sec : Z) (chunks : list (Q * string))
    (fin : stream_end) (events : list dict) : outcome (list dict) :=
  match chunks with
  | [] => finish fin events
  | (now, raw) :: rest =>
      if timed_out started timeout_sec now then Returns events
      else
        let line := strip raw in
        if String.eqb line "" || negb (startswith line "data:")
        then stream_loop started timeout_sec rest fin events
        else
          let payload := strip (slice_from 5 line) in
          if String.eqb payload ""
          then stream_loop started timeout_sec rest fin events
          else
            match maybe_json payload with
            | PDict parsed =>
                let events' := events ++ [parsed] in
                if is_terminal parsed then Returns events'
                else stream_loop started timeout_sec rest fin events'
            | _ => stream_loop started timeout_sec rest fin events
            end
  end.

Definition stream_reply (started : Q) (timeout_sec : Z)
    (resp : list (Q * string) * stream_end) : outcome (list dict) :=
  stream_loop started timeout_sec (fst resp) (snd resp) [].

(** The loop of [ApiClient.reply_sse] in [cfpm_resume_eval.py]. *)
Fixpoint sse_loop (lines : list string) (fin : stream_end) (st : SseResult)
    : outcome SseResult :=
  match lines with
  | [] => finish fin st
  | raw :: rest =>
      let line := strip raw in
      if negb (startswith line "data:") then sse_loop rest fin st
      else
        let blob := strip (slice_from 5 line) in
        if String.eqb blob "" then sse_loop rest fin st
        else
          match json_loads blob with
          | None => sse_loop rest fin st
          | Some (PDict obj) =>
              match dict_get obj "type" with
              | Some (PStr t) =>
                  let st1 := add_event_type t st in
                  bind (if String.eqb t "Message" then scan_message obj st1 else Returns st1)
                    (fun st2 =>
                       if String.eqb t "Error"
                       then Returns (set_error (dict_get_default obj "error" PNone) st2)
                       else if String.eqb t "Finish"
                       then Returns (set_finish_reason (dict_get_default obj "reason" PNone) st2)
                       else sse_loop rest fin st2)
              | _ => sse_loop rest fin st
              end
          | Some other => Raised (no_attribute_get other)
          end
  end.

Definition reply_sse (resp : list string * stream_end) : outcome SseResult :=
  sse_loop (fst resp) (snd resp) sse_start.

End Decoders.

(** ** The event stream, in words *)

Definition option_list {A : Type} (o : option A) : list A :=
  match o with
  | Some a => [a]
  | None => []
  end.

(** Everything up to and including the first element that satisfies [stop]. *)
Fixpoint upto_first {A : Type} (stop : A -> bool) (l : list A) : list A :=
  match l with
  | [] => []
  | x :: l' => if stop x then [x] else x :: upto_first stop l'
  end.

(** A stop element, if any, is the last element. *)
Definition stops_last {A : Type} (stop : A -> bool) (l : list A) : Prop :=
  forall pre x post, l = pre ++ x :: post -> stop x = true -> post = [].

(** [body] holds no stop element and [tail] is at most one element. *)
Definition stop_shape {A : Type} (stop : A -> bool) (l : list A) : Prop :=
  exists body tail, l = body ++ tail /\ Forall (fun x => stop x = false) body /\
                    List.length tail <= 1.

Definition is_terminal_type (t : string) : bool :=
  String.eqb t "Finish" || String.eqb t "Error".

(** The type of an event, when it is a string. *)
Definition event_type (d : dict) : option string := as_str (dict_get d "type").

Definition is_returns {A : Type} (m : outcome A) : bool :=
  match m with
  | Returns _ => true
  | Raised _ => false
  end.

(** A decoded payload that [reply_sse] handles without an exception: an
    object, whose message, when its type is "Message", is an object with a
    list of objects (or nothing) as content. *)
Definition well_shaped (v : pyval) : bool :=
  match v with
  | PDict d => if is_str (dict_get d "type") "Message"
               then is_returns (scan_message d sse_start) else true
  | _ => false
  end.

Section StreamWords.

Variable json_loads : string -> option pyval.

(** The payload of a data line: what follows the marker, trimmed, when it
    is not empty. *)
Definition data_payload (raw : string) : option string :=
  let line := strip raw in
  if startswith line "data:"
  then let payload := strip (slice_from 5 line) in
       if String.eqb payload "" then None else Some payload
  else None.

(** The JSON value a line carries. *)
Definition line_value (raw : string) : option pyval :=
  match data_payload raw with
  | Some payload => json_loads payload
  | None => None
  end.

(** The JSON object a line carries. *)
Definition line_event (raw : string) : option dict :=
  match line_value raw with
  | Some (PDict d) => Some d
  | _ => None
  end.

Definition events_of (lines : list string) : list dict :=
  List.flat_map (fun raw => option_list (line_event raw)) lines.

Definition types_of (events : list dict) : list string :=
  List.flat_map (fun d => option_list (event_type d)) events.

(** Lines that carry nothing: an empty line, a line without the marker, a
    data line with an empty payload, a data line with malformed JSON. *)
Inductive plainly_skipped : string -> Prop :=
| skip_empty raw :
    strip raw = "" -> plainly_skipped raw
| skip_no_marker raw :
    startswith (strip raw) "data:" = false -> plainly_skipped raw
| skip_empty_payload raw :
    startswith (strip raw) "data:" = true ->
    strip (slice_from 5 (strip raw)) = "" -> plainly_skipped raw
| skip_malformed raw payload :
    data_payload raw = Some payload -> json_loads payload = None -> plainly_skipped raw.

(** The same, and a data line with valid JSON that is not an object. *)
Inductive skipped : string -> Prop :=
| skip_plainly raw : plainly_skipped raw -> skipped raw
| skip_not_object raw payload v :
    data_payload raw = Some payload -> json_loads payload = Some v ->
    (forall d, v <> PDict d) -> skipped raw.

End StreamWords.

(** ** Sample payloads *)

Definition quoted (s : string) : string := String dquote (s +:+ String dquote "").

(** The JSON text of a value without floats whose strings need no escape. *)
Fixpoint json_text (v : pyval) : string :=
  match v with
  | PNone => "null"
  | PBool true => "true"
  | PBool false => "false"
  | PInt z => str_of_Z z
  | PFloat r => r
  | PStr s => quoted s
  | PList l => "[" +:+ join ", " (List.map json_text l) +:+ "]"
  | PDict d =>
      "{" +:+ join ", " (List.map (fun kv => match kv with
                                        | (k, x) => quoted k +:+ ": " +:+ json_text x
                                        end) d) +:+ "}"
  end.

Definition finish_event : dict := [("type", PStr "Finish"); ("reason", PStr "stop")].
Definition error_event : dict := [("type", PStr "Error"); ("error", PStr "boom")].
Definition ping_event : dict := [("type", PStr "Ping")].
Definition untyped_event : dict := [("id", PInt 7)].
Definition message_event : dict :=
  [("type", PStr "Message");
   ("message", PDict [("role", PStr "assistant");
                      ("content", PList [PDict [("type", PStr "text"); ("text", PStr "hello")]])])].

Definition sample_values : list pyval :=
  [PDict finish_event; PDict error_event; PDict ping_event; PDict untyped_event;
   PDict message_event; PInt 42; PList [PInt 1; PInt 2]; PStr "Finish"].

(** [json.loads] on the texts of [sample_values]; every other text used
    below is not JSON. *)
Definition sample_loads (s : string) : option pyval :=
  List.find (fun v => String.eqb (json_text v) s) sample_values.

(** The line that carries [v]. *)
Definition data_line (v : pyval) : string := "data: " +:+ json_text v +:+ String newline "".

(** ** Sample streams *)

Definition ping_line : string := data_line (PDict ping_event).
Definition finish_line : string := data_line (PDict finish_event).
Definition error_line : string := data_line (PDict error_event).
Definition message_line : string := data_line (PDict message_event).
Definition untyped_line : string := data_line (PDict untyped_event).
Definition number_line : string := data_line (PInt 42).

(** A reply whose last line is read 301 seconds after the start. *)
Definition late_response : list (Q * string) :=
  [(1 # 1, ping_line); (301 # 1, finish_line)]%Q.

(** A reply with an error before the end of the turn. *)
Definition error_response : list (Q * string) :=
  [(1 # 1, error_line); (2 # 1, finish_line)]%Q.

(** A reply with keep-alive lines, malformed JSON and JSON that is no object. *)
Definition noisy_response : list (Q * string) :=
  [(1 # 1, ping_line); (2 # 1, ": keep-alive"); (3 # 1, ""); (4 # 1, "data:   ");
   (5 # 1, "data: {not json"); (6 # 1, number_line); (7 # 1, finish_line);
   (8 # 1, ping_line)]%Q.

(** ** Cross-validation of the API facts against the stored ones *)

(** The identity key of a fact: (category, content, status, source). *)
Definition key : Type := string * string * string * string.

(** [str(f.get(name, ""))] *)
Definition field_str (name : string) (f : dict) : string :=
  py_str (dict_get_default f name (PStr "")).

Definition fact_key (f : dict) : key :=
  (field_str "category" f, field_str "content" f, field_str "status" f, field_str "source" f).

(** Python compares tuples component by component, and strings code point
    by code point. *)
Definition then_compare (c : comparison) (next : comparison) : comparison :=
  match c with
  | Eq => next
  | _ => c
  end.

Definition key_compare (a b : key) : comparison :=
  match a, b with
  | (a1, a2, a3, a4), (b1, b2, b3, b4) =>
      then_compare (String.compare a1 b1)
        (then_compare (String.compare a2 b2)
           (then_compare (String.compare a3 b3) (String.compare a4 b4)))
  end.

Definition key_lt (a b : key) : Prop := key_compare a b = Lt.
Definition key_le (a b : key) : Prop := key_compare a b <> Gt.

#[global] Instance key_le_dec (a b : key) : Decision (key_le a b).
Proof. unfold key_le. destruct (key_compare a b); [left|left|right]; congruence. Defined.

(** The set comprehension over the facts of one source. *)
Definition key_set (facts : list dict) : gset key := list_to_set (List.map fact_key facts).

(** [sorted(list(s))] *)
Definition py_sorted (s : gset key) : list key := merge_sort key_le (elements s).

Record FactDelta : Type := {
  apiOnly : list key;
  dbOnly : list key
}.

(** [report["apiDbFactDelta"]] *)
Definition api_db_fact_delta (facts_api db_facts : list dict) : FactDelta :=
  let api_fact_keys := key_set facts_api in
  let db_fact_keys := key_set db_facts in
  {| apiOnly := firstn 20 (py_sorted (api_fact_keys ∖ db_fact_keys));
     dbOnly := firstn 20 (py_sorted (db_fact_keys ∖ api_fact_keys)) |}.

(** [out] is the first 20 elements of [s] in increasing order. *)
Definition sorted_first_20 (out : list key) (s : gset key) : Prop :=
  exists rest, Permutation (out ++ rest) (elements s) /\
               StronglySorted key_lt (out ++ rest) /\
               List.length out = Nat.min 20 (size s).

(** ** Locating the store *)

(** A [pathlib.Path]: [Path(s)] and [p / part]. *)
Inductive path : Type :=
| PathOf (s : string)
| PathJoin (p : path) (part : string).

Fixpoint path_eqb (p q : path) : bool :=
  match p, q with
  | PathOf s, PathOf t => String.eqb s t
  | PathJoin p' a, PathJoin q' b => path_eqb p' q' && String.eqb a b
  | _, _ => false
  end.

Fixpoint joins (p : path) (parts : list string) : path :=
  match parts with
  | [] => p
  | part :: parts' => joins (PathJoin p part) parts'
  end.

(** What a run sees of the machine it runs on. *)
Record Host : Type := {
  environ : string -> option string;      (* os.environ.get *)
  path_exists : path -> bool;             (* Path.exists *)
  path_str : path -> string               (* str(path) *)
}.

(** A string that is given and not empty, as in [if path_root:]. *)
Definition given (o : option string) : option string :=
  match o with
  | Some s => if String.eqb s "" then None else Some s
  | None => None
  end.

Definition hardcoded_db : path :=
  PathOf "C:/Users/jsjm/AppData/Roaming/AGIME/agime/data/sessions/sessions.db".

Definition db_under_root (root : string) : path :=
  joins (PathOf root) ["data"; "sessions"; "sessions.db"].

Definition db_under_appdata (appdata : string) : path :=
  joins (PathOf appdata) ["AGIME"; "agime"; "data"; "sessions"; "sessions.db"].

(** [for path in candidates: if path.exists(): return path] *)
Fixpoint first_existing (h : Host) (candidates : list path) : option path :=
  match candidates with
  | [] => None
  | p :: rest => if path_exists h p then Some p else first_existing h rest
  end.

(** [candidates.append(p)] under [if root:] *)
Definition append_if (candidates : list path) (root : option string)
    (mk : string -> path) : list path :=
  match given root with
  | Some r => candidates ++ [mk r]
  | None => candidates
  end.

(** [find_sessions_db] of [cfpm_api_eval.py] *)
Definition find_sessions_db (h : Host) (path_root : option string) : option path :=
  let candidates := [] in
  let candidates := append_if candidates path_root db_under_root in
  let env_path_root := environ h "PATH_ROOT" in
  let candidates := append_if candidates env_path_root db_under_root in
  let appdata := environ h "APPDATA" in
  let candidates := append_if candidates appdata db_under_appdata in
  let candidates := candidates ++ [hardcoded_db] in
  first_existing h candidates.

(** [find_db] of [cfpm_resume_eval.py] *)
Definition find_db (h : Host) (path_root : option string) : option path :=
  let cands := [] in
  let cands := append_if cands path_root db_under_root in
  let appdata := environ h "APPDATA" in
  let cands := append_if cands appdata db_under_appdata in
  let cands := cands ++ [hardcoded_db] in
  first_existing h cands.

(** The candidates in the order of the override rule: the root given on
    the command line, the root of [PATH_ROOT], the one of [APPDATA], the
    hardcoded file. *)
Definition candidates_in_order (h : Host) (path_root : option string) : list path :=
  option_list (option_map db_under_root (given path_root))
  ++ option_list (option_map db_under_root (given (environ h "PATH_ROOT")))
  ++ option_list (option_map db_under_appdata (given (environ h "APPDATA")))
  ++ [hardcoded_db].

(** The same without [PATH_ROOT]. *)
Definition candidates_without_env_root (h : Host) (path_root : option string) : list path :=
  option_list (option_map db_under_root (given path_root))
  ++ option_list (option_map db_under_appdata (given (environ h "APPDATA")))
  ++ [hardcoded_db].

(** [p] is the first element of [candidates] that exists. *)
Definition first_that_exists (h : Host) (candidates : list path) (p : path) : Prop :=
  exists before after, candidates = before ++ p :: after /\
    Forall (fun q => path_exists h q = false) before /\ path_exists h p = true.

(** ** Helpers of the runs *)

(** [v or dflt] *)
Definition py_or (v dflt : pyval) : pyval := if truthy v then v else dflt.

(** [len(v)] *)
Definition py_len (v : pyval) : outcome Z :=
  match v with
  | PStr s => Returns (Z.of_nat (String.length s))
  | PList l => Returns (Z.of_nat (List.length l))
  | PDict d => Returns (Z.of_nat (List.length d))
  | _ => Raised {| exn_kind := "TypeError";
                   exn_message := "object of type '" +:+ type_name v +:+ "' has no len()" |}
  end.

(** [v[k]] for a string [k] *)
Definition subscript (v : pyval) (k : string) : outcome pyval :=
  match v with
  | PDict d =>
      match dict_get d k with
      | Some x => Returns x
      | None => Raised {| exn_kind := "KeyError"; exn_message := repr_str k |}
      end
  | PStr _ =>
      Raised {| exn_kind := "TypeError";
                exn_message := "string indices must be integers, not 'str'" |}
  | PList _ =>
      Raised {| exn_kind := "TypeError";
                exn_message := "list indices must be integers or slices, not str" |}
  | _ =>
      Raised {| exn_kind := "TypeError";
                exn_message := "'" +:+ type_name v +:+ "' object is not subscriptable" |}
  end.

(** The results of [f] on the items, in order, up to the first exception. *)
Fixpoint collect {A B : Type} (f : A -> outcome (list B)) (items : list A)
    : outcome (list B) :=
  match items with
  | [] => Returns []
  | x :: rest => bind (f x) (fun ys => bind (collect f rest) (fun zs => Returns (ys ++ zs)))
  end.

(** The items of [v], which must all be objects, as [f.get] is called on
    each. *)
Definition dicts_of (v : pyval) : outcome (list dict) :=
  bind (iterate v)
       (collect (fun x => match x with
                          | PDict d => Returns [d]
                          | _ => Raised (no_attribute_get x)
                          end)).

(** [msg.get("content", []) or []], iterated *)
Definition content_items (msg : dict) : outcome (list pyval) :=
  let v := dict_get_default msg "content" (PList []) in
  if truthy v then iterate v else Returns [].

(** [t.strip()] when [t] is a string and the result is not empty *)
Definition stripped_text (v : option pyval) : list string :=
  match v with
  | Some (PStr t) => if String.eqb (strip t) "" then [] else [strip t]
  | _ => []
  end.

(** [extract_assistant_texts] *)
Definition text_of_item (content : pyval) : outcome (list string) :=
  match content with
  | PDict c =>
      Returns (if is_str (dict_get c "type") "text" then stripped_text (dict_get c "text") else [])
  | _ => Raised (no_attribute_get content)
  end.

Definition texts_of_event (e : dict) : outcome (list string) :=
  if negb (is_str (dict_get e "type") "Message") then Returns []
  else match dict_get e "message" with
       | Some (PDict msg) => bind (content_items msg) (collect text_of_item)
       | _ => Returns []
       end.

Definition extract_assistant_texts (events : list dict) : outcome (list string) :=
  collect texts_of_event events.

(** [d.get(k1) or d.get(k2) or {}] *)
Definition or_get (d : dict) (k1 k2 : string) : pyval :=
  py_or (dict_get_default d k1 PNone) (py_or (dict_get_default d k2 PNone) (PDict [])).

(** [for key in ("command", "cmd", "script"): ... break] *)
Fixpoint first_command (args : dict) (keys : list string) : list string :=
  match keys with
  | [] => []
  | k :: ks =>
      match stripped_text (dict_get args k) with
      | [] => first_command args ks
      | found => found
      end
  end.

(** [extract_tool_commands_from_session] *)
Definition command_of_item (content : pyval) : outcome (list string) :=
  match content with
  | PDict c =>
      Returns
        (if negb (is_str (dict_get c "type") "toolRequest") then []
         else match or_get c "toolCall" "tool_call" with
              | PDict tool_call =>
                  match or_get tool_call "Ok" "ok" with
                  | PDict call =>
                      match dict_get call "arguments" with
                      | Some (PDict args) => first_command args ["command"; "cmd"; "script"]
                      | _ => []
                      end
                  | _ => []
                  end
              | _ => []
              end)
  | _ => Raised (no_attribute_get content)
  end.

Definition commands_of_message (msg : pyval) : outcome (list string) :=
  match msg with
  | PDict m => bind (content_items m) (collect command_of_item)
  | _ => Raised (no_attribute_get msg)
  end.

Definition extract_tool_commands_from_session (session_obj : pyval) : outcome (list string) :=
  let conv := match session_obj with
              | PDict s => dict_get_default s "conversation" PNone
              | _ => PNone
              end in
  let messages := match conv with
                  | PDict c => dict_get_default c "messages" PNone
                  | _ => PList []
                  end in
  bind (if truthy messages then iterate messages else Returns [])
       (collect commands_of_message).

(** [l[-n:]] *)
Definition last_n {A : Type} (n : nat) (l : list A) : list A :=
  skipn (List.length l - n) l.

(** [default_message] *)
Definition default_message (text : string) (created : Z) : pyval :=
  PDict [("role", PStr "user");
         ("created", PInt created);
         ("content", PList [PDict [("type", PStr "text"); ("text", PStr text)]]);
         ("metadata", PDict [("userVisible", PBool true); ("agentVisible", PBool true)])].

(** The values the report holds. *)
Definition py_strings (l : list string) : pyval := PList (List.map PStr l).
Definition py_dicts (l : list dict) : pyval := PList (List.map PDict l).
Definition py_count {A : Type} (l : list A) : pyval := PInt (Z.of_nat (List.length l)).

Definition py_key (k : key) : pyval :=
  match k with
  | (a, b, c, d) => PList [PStr a; PStr b; PStr c; PStr d]
  end.

Definition py_quality (q : QualityReport) : pyval :=
  PDict [("activeFactCount", PInt (Z.of_nat (activeFactCount q)));
         ("activeArtifactCount", PInt (Z.of_nat (activeArtifactCount q)));
         ("activeInvalidPathCount", PInt (Z.of_nat (activeInvalidPathCount q)));
         ("dateNoiseFacts", py_dicts (dateNoiseFacts q));
         ("acceptedDateCandidates", py_dicts (acceptedDateCandidates q));
         ("wrongDesktopArtifacts", py_dicts (wrongDesktopArtifacts q));
         ("oneDriveDesktopArtifacts", py_dicts (oneDriveDesktopArtifacts q));
         ("probeStatsSecondTurn",
          PDict [("probeCount", PInt (Z.of_nat (probeCount (probeStatsSecondTurn q))));
                 ("probeCommands", py_strings (probeCommands (probeStatsSecondTurn q)))]);
         ("wrongToolGatePaths", py_dicts (wrongToolGatePaths q));
         ("issues", py_strings (issues q))].

Definition py_delta (d : FactDelta) : pyval :=
  PDict [("apiOnly", PList (List.map py_key (apiOnly d)));
         ("dbOnly", PList (List.map py_key (dbOnly d)))].

Definition py_sse (r : SseResult) : pyval :=
  PDict [("eventTypes", py_strings (eventTypes r));
         ("assistantText", py_strings (assistantText r));
         ("cfpmSystemNotifications", py_strings (cfpmSystemNotifications r));
         ("toolRequestCount", PInt (Z.of_nat (toolRequestCount r)));
         ("error", error r);
         ("finishReason", finishReason r)].

(** [evaluate_quality] on what the API returned: each of the three values is
    iterated, and [get] is called on each item. *)
Definition evaluate_quality_on (facts_api candidates_api tool_gates : pyval)
    (second_turn_commands : list string) : outcome QualityReport :=
  bind (dicts_of facts_api) (fun facts =>
  bind (dicts_of candidates_api) (fun candidates =>
  bind (dicts_of tool_gates) (fun gates =>
  Returns (evaluate_quality facts candidates gates second_turn_commands)))).

(** ** The service and the state of a run *)

(** The agent service and the libraries around it, as a run meets them.
    Every call either returns or raises an [Exception]. *)
Record Service : Type := {
  json_loads : string -> option pyval;
  (* subprocess.Popen in start_server *)
  start_server : outcome unit;
  (* wait_for_status / wait_status, by the longest wait in seconds *)
  status_ready : Z -> outcome unit;
  (* request_json / req_json: method, path, payload; an empty body is None *)
  request_json : string -> string -> option pyval -> outcome pyval;
  (* urllib.parse.quote *)
  url_quote : pyval -> outcome string;
  (* urlopen of /reply: the reading of the clock before the call, the lines
     with their readings, and how the stream ends *)
  open_reply : pyval -> Z -> outcome (Q * (list (Q * string) * stream_end));
  (* db_memory_rows / read_db_snapshot: the fact rows and the candidate rows *)
  db_rows : path -> pyval -> outcome (list dict * list dict);
  (* the successive values of now_ts() and int(time.time()) *)
  now_ts : nat -> Z
}.

Record RunState : Type := {
  report : dict;
  server_proc : bool       (* [server_proc is not None] *)
}.

(** A computation of the [try] block: it changes the report, and returns or
    raises. *)
Definition M (A : Type) : Type := RunState -> RunState * outcome A.

Definition mret {A : Type} (a : A) : M A := fun s => (s, Returns a).

Definition mbind {A B : Type} (m : M A) (k : A -> M B) : M B :=
  fun s => match m s with
           | (s', Returns a) => k a s'
           | (s', Raised e) => (s', Raised e)
           end.

Notation "'let*' x ':=' m 'in' k" := (mbind m (fun x => k))
  (at level 10, x name, m at level 100, k at level 200).
Notation "'run' m 'then' k" := (mbind m (fun _ => k))
  (at level 10, m at level 100, k at level 200).

(** A call that does not touch the report. *)
Definition call {A : Type} (o : outcome A) : M A := fun s => (s, o).

Definition raise {A : Type} (e : exn) : M A := fun s => (s, Raised e).

(** [report[k] = v] *)
Definition set_key (k : string) (v : pyval) : M unit :=
  fun s => ({| report := dict_set (report s) k v; server_proc := server_proc s |}, Returns tt).

(** [report["steps"].append(name)] *)
Definition append_step (name : string) : M unit :=
  fun s =>
    let steps := match dict_get (report s) "steps" with
                 | Some (PList l) => l
                 | _ => []
                 end in
    ({| report := dict_set (report s) "steps" (PList (steps ++ [PStr name]));
        server_proc := server_proc s |}, Returns tt).

(** [server_proc = start_server(...)] has returned. *)
Definition server_is_up : M unit :=
  fun s => ({| report := report s; server_proc := true |}, Returns tt).

(** The computation [m] leaves the key [k] of the report as it is. *)
Definition keeps {A : Type} (k : string) (m : M A) : Prop :=
  forall s, dict_get (report (fst (m s))) k = dict_get (report s) k.

(** What a run leaves behind. *)
Record Run : Type := {
  terminated : bool;       (* the server process was terminated *)
  output_path : path;      (* where the report was written *)
  written : dict;          (* the report written there *)
  printed : dict;          (* the summary on the console *)
  exit_status : Z
}.

(** [f"{type(exc).__name__}: {exc}"] *)
Definition error_text (exc : exn) : string := exn_kind exc +:+ ": " +:+ exn_message exc.

(** [0 if report.get("success") else 1] *)
Definition status_of (rep : dict) : Z :=
  if truthy (dict_get_default rep "success" PNone) then 0%Z else 1%Z.

(** ** The run of [cfpm_api_eval.py] *)

Module ApiEval.

Record Args : Type := {
  server_exe : string;
  host : string;
  port : Z;
  secret : string;
  working_dir : string;
  provider : option string;
  model : option string;
  prompt_1 : string;
  prompt_2 : string;
  path_root : option string;
  no_start_server : bool;
  output : option string
}.

(** [read_cfg_value] *)
Definition read_cfg_value (sv : Service) (name : string) : option string :=
  match request_json sv "POST" "/config/read"
          (Some (PDict [("key", PStr name); ("is_secret", PBool false)])) with
  | Returns (PStr resp) => given (Some (strip resp))
  | Returns (PDict resp) =>
      match dict_get resp "value" with
      | Some (PStr value) => given (Some (strip value))
      | _ => None
      end
  | _ => None
  end.

(** [a or b] on optional strings *)
Definition or_else (a b : option string) : option string :=
  match given a with
  | Some s => Some s
  | None => b
  end.

(** [select_provider_model] *)
Definition select_provider_model (sv : Service) (provider_arg model_arg : option string)
    : outcome (string * string) :=
  let provider := or_else provider_arg
                    (or_else (read_cfg_value sv "provider") (read_cfg_value sv "agime-provider")) in
  let model := or_else model_arg
                 (or_else (read_cfg_value sv "model") (read_cfg_value sv "agime-model")) in
  match given provider, given model with
  | Some p, Some m => Returns (p, m)
  | _, _ =>
      Raised {| exn_kind := "RuntimeError";
                exn_message := "provider/model not resolved; pass --provider and --model explicitly or configure them" |}
  end.

(** One turn: the request, the streamed reply, and its summary in the
    report. *)
Definition reply_events (sv : Service) (session_id : pyval) (prompt : string) (created : Z)
    : outcome (list dict) :=
  let req := PDict [("session_id", session_id);
                    ("recipe_name", PNone);
                    ("recipe_version", PNone);
                    ("messages", PList [default_message prompt created])] in
  bind (open_reply sv req 240)
       (fun opened => stream_reply (json_loads sv) (fst opened) 240 (snd opened)).

(** [next((e.get("error") for e in events if e.get("type") == "Error"), None)] *)
Fixpoint first_error (events : list dict) : pyval :=
  match events with
  | [] => PNone
  | e :: rest =>
      if is_str (dict_get e "type") "Error" then dict_get_default e "error" PNone
      else first_error rest
  end.

Definition turn_summary (events : list dict) : outcome pyval :=
  bind (extract_assistant_texts events) (fun texts =>
  Returns (PDict [("eventCount", py_count events);
                  ("eventTypes", PList (List.map (fun e => dict_get_default e "type" PNone) events));
                  ("assistantTexts", py_strings texts);
                  ("error", first_error events)])).

Definition turn (sv : Service) (name : string) (session_id : pyval) (prompt : string)
    (created : Z) : M unit :=
  let* events := call (reply_events sv session_id prompt created) in
  let* summary := call (turn_summary events) in
  set_key name summary.

(** The start of the [try] block: the server. *)
Definition start_phase (a : Args) (h : Host) (sv : Service) : M unit :=
  if negb (no_start_server a) then
    let exe := PathOf (server_exe a) in
    if negb (path_exists h exe)
    then raise {| exn_kind := "FileNotFoundError";
                  exn_message := "server exe not found: " +:+ path_str h exe |}
    else
      run call (start_server sv) then
      run server_is_up then
      run call (status_ready sv 45) then
      append_step "server_started"
  else
    run call (status_ready sv 15) then
    append_step "server_reused".

(** From the choice of the provider to the quality report; the result is
    the session id and the facts of the API. *)
Definition evaluation_steps (a : Args) (sv : Service) : M (pyval * pyval) :=
  let* pm := call (select_provider_model sv (provider a) (model a)) in
  run set_key "provider" (PStr (fst pm)) then
  run set_key "model" (PStr (snd pm)) then
  let* session := call (request_json sv "POST" "/agent/start"
                          (Some (PDict [("working_dir", PStr (working_dir a))]))) in
  let* session_id := call (subscript session "id") in
  run set_key "sessionId" session_id then
  run append_step "session_started" then
  let* _updated := call (request_json sv "POST" "/agent/update_provider"
                           (Some (PDict [("provider", PStr (fst pm));
                                         ("model", PStr (snd pm));
                                         ("session_id", session_id)]))) in
  run append_step "provider_updated" then
  run turn sv "turn1" session_id (prompt_1 a) (now_ts sv 1) then
  run turn sv "turn2" session_id (prompt_2 a) (now_ts sv 2) then
  let* quoted_id := call (url_quote sv session_id) in
  let* session_after := call (request_json sv "GET" ("/sessions/" +:+ quoted_id) None) in
  let* facts_got := call (request_json sv "GET"
                            ("/sessions/" +:+ quoted_id +:+ "/memory/facts") None) in
  let facts_api := py_or facts_got (PList []) in
  let* candidates_got := call (request_json sv "GET"
                            ("/sessions/" +:+ quoted_id +:+ "/memory/candidates?limit=200") None) in
  let candidates_api := py_or candidates_got (PList []) in
  let* gates_got := call (request_json sv "GET"
                            ("/sessions/" +:+ quoted_id +:+ "/memory/tool-gates?limit=200") None) in
  let tool_gates := py_or gates_got (PList []) in
  let* commands_all := call (extract_tool_commands_from_session (py_or session_after (PDict []))) in
  let commands_second_turn := last_n 30 commands_all in
  let* facts_count := call (py_len facts_api) in
  let* candidates_count := call (py_len candidates_api) in
  let* gate_count := call (py_len tool_gates) in
  run set_key "apiSnapshot"
        (PDict [("factsCount", PInt facts_count);
                ("candidatesCount", PInt candidates_count);
                ("toolGateCount", PInt gate_count);
                ("toolCommandsCaptured", py_count commands_all)]) then
  let* quality := call (evaluate_quality_on facts_api candidates_api tool_gates
                          commands_second_turn) in
  run set_key "quality" (py_quality quality) then
  mret (session_id, facts_api).

(** The cross-validation against the store, or the note that there is
    none. *)
Definition storage_step (a : Args) (h : Host) (sv : Service) (session_id facts_api : pyval)
    : M unit :=
  let db_path := find_sessions_db h (path_root a) in
  run set_key "dbPath" (match db_path with
                        | Some p => PStr (path_str h p)
                        | None => PNone
                        end) then
  match db_path with
  | Some p =>
      if path_exists h p then
        let* rows := call (db_rows sv p session_id) in
        run set_key "dbSnapshot"
              (PDict [("factRows", py_count (fst rows));
                      ("candidateRows", py_count (snd rows))]) then
        let* facts := call (dicts_of facts_api) in
        set_key "apiDbFactDelta" (py_delta (api_db_fact_delta facts (fst rows)))
      else set_key "dbSnapshot" (PDict [("warning", PStr "sessions.db not found")])
  | None => set_key "dbSnapshot" (PDict [("warning", PStr "sessions.db not found")])
  end.

(** The [try] block, up to the search for the store and as a whole. *)
Definition before_storage (a : Args) (h : Host) (sv : Service) : M (pyval * pyval) :=
  run start_phase a h sv then
  evaluation_steps a sv.

Definition try_block (a : Args) (h : Host) (sv : Service) : M unit :=
  let* got := before_storage a h sv in
  run storage_step a h sv (fst got) (snd got) then
  run set_key "finishedAt" (PInt (now_ts sv 3)) then
  set_key "success" (PBool true).

(** [except Exception as exc:] *)
Definition on_exception (rep : dict) (sv : Service) (exc : exn) : dict :=
  dict_set (dict_set (dict_set rep "finishedAt" (PInt (now_ts sv 3)))
              "success" (PBool false))
    "error" (PStr (error_text exc)).

Definition base_url (a : Args) : string :=
  "http://" +:+ host a +:+ ":" +:+ str_of_Z (port a).

Definition initial (a : Args) (sv : Service) : RunState :=
  {| report := [("startedAt", PInt (now_ts sv 0));
                ("baseUrl", PStr (base_url a));
                ("steps", PList [])];
     server_proc := false |}.

Definition report_path (a : Args) (sv : Service) : path :=
  match given (output a) with
  | Some out => PathOf out
  | None => PathJoin (PathOf "data")
              ("cfpm_eval_report_" +:+ str_of_Z (now_ts sv 4) +:+ ".json")
  end.

(** What is printed at the end. *)
Definition summary (h : Host) (out : path) (rep : dict) : dict :=
  [("success", dict_get_default rep "success" PNone);
   ("output", PStr (path_str h out));
   ("sessionId", dict_get_default rep "sessionId" PNone);
   ("issues", match dict_get_default rep "quality" (PDict []) with
              | PDict q => dict_get_default q "issues" (PList [])
              | _ => PList []
              end);
   ("error", dict_get_default rep "error" PNone)].

(** [main]: the [try] block, its handler, the cleanup, the report and
    the exit status. *)
Definition main (a : Args) (h : Host) (sv : Service) : Run :=
  let after := try_block a h sv (initial a sv) in
  let rep := match snd after with
             | Returns _ => report (fst after)
             | Raised exc => on_exception (report (fst after)) sv exc
             end in
  let out := report_path a sv in
  {| terminated := server_proc (fst after);
     output_path := out;
     written := rep;
     printed := summary h out rep;
     exit_status := status_of rep |}.

End ApiEval.

(** ** The run of [cfpm_resume_eval.py] *)

Module ResumeEval.

Record Args : Type := {
  session_id : string;
  prompt : string;
  host : string;
  port : Z;
  secret : string;
  server_exe : string;
  no_start_server : bool;
  path_root : option string;
  output : option string
}.

Definition start_phase (a : Args) (h : Host) (sv : Service) : M unit :=
  if negb (no_start_server a) then
    let exe := PathOf (server_exe a) in
    if negb (path_exists h exe)
    then raise {| exn_kind := "FileNotFoundError";
                  exn_message := "server exe missing: " +:+ path_str h exe |}
    else
      run call (start_server sv) then
      run server_is_up then
      run call (status_ready sv 45) then
      set_key "server" (PStr "started")
  else
    run call (status_ready sv 15) then
    set_key "server" (PStr "reused").

(** [resumed.get(name) if isinstance(resumed, dict) else None] *)
Definition field_if_dict (v : pyval) (name : string) : pyval :=
  match v with
  | PDict d => dict_get_default d name PNone
  | _ => PNone
  end.

(** [api.reply_sse(chat, timeout=300)] *)
Definition reply (a : Args) (sv : Service) : outcome SseResult :=
  let chat := PDict [("session_id", PStr (session_id a));
                     ("messages", PList [default_message (prompt a) (now_ts sv 1)]);
                     ("recipe_name", PNone);
                     ("recipe_version", PNone)] in
  bind (open_reply sv chat 300)
       (fun opened => reply_sse (json_loads sv)
                        (List.map snd (fst (snd opened)), snd (snd opened))).

(** From the resumption of the session to the snapshot of the API. *)
Definition evaluation_steps (a : Args) (sv : Service) : M unit :=
  let* resumed := call (request_json sv "POST" "/agent/resume"
                          (Some (PDict [("session_id", PStr (session_id a));
                                        ("load_model_and_extensions", PBool true)]))) in
  run set_key "resumed" (PDict [("name", field_if_dict resumed "name");
                                ("provider", field_if_dict resumed "provider_name")]) then
  let* sse := call (reply a sv) in
  run set_key "reply" (py_sse sse) then
  let* facts_got := call (request_json sv "GET"
                            ("/sessions/" +:+ session_id a +:+ "/memory/facts") None) in
  let facts := py_or facts_got (PList []) in
  let* cands_got := call (request_json sv "GET"
                            ("/sessions/" +:+ session_id a +:+ "/memory/candidates?limit=120") None) in
  let cands := py_or cands_got (PList []) in
  let* gates_got := call (request_json sv "GET"
                            ("/sessions/" +:+ session_id a +:+ "/memory/tool-gates?limit=80") None) in
  let gates := py_or gates_got (PList []) in
  let* fact_count := call (py_len facts) in
  let* candidate_count := call (py_len cands) in
  let* gate_count := call (py_len gates) in
  set_key "api" (PDict [("factCount", PInt fact_count);
                        ("candidateCount", PInt candidate_count);
                        ("gateCount", PInt gate_count);
                        ("facts", facts);
                        ("candidates", cands);
                        ("gates", gates)]).

(** The snapshot of the store, when there is one. *)
Definition storage_step (a : Args) (h : Host) (sv : Service) : M unit :=
  let db_path := find_db h (path_root a) in
  run set_key "dbPath" (match db_path with
                        | Some p => PStr (path_str h p)
                        | None => PNone
                        end) then
  match db_path with
  | Some p =>
      let* rows := call (db_rows sv p (PStr (session_id a))) in
      set_key "db" (PDict [("facts", py_dicts (fst rows));
                           ("candidates", py_dicts (snd rows))])
  | None => mret tt
  end.

(** The [try] block, up to the search for the store and as a whole. *)
Definition before_storage (a : Args) (h : Host) (sv : Service) : M unit :=
  run start_phase a h sv then
  evaluation_steps a sv.

Definition try_block (a : Args) (h : Host) (sv : Service) : M unit :=
  run before_storage a h sv then
  run storage_step a h sv then
  set_key "success" (PBool true).

(** [except Exception as e:] *)
Definition on_exception (rep : dict) (exc : exn) : dict :=
  dict_set (dict_set rep "success" (PBool false)) "error" (PStr (error_text exc)).

Definition base_url (a : Args) : string :=
  "http://" +:+ host a +:+ ":" +:+ str_of_Z (port a).

Definition initial (a : Args) (sv : Service) : RunState :=
  {| report := [("startedAt", PInt (now_ts sv 0));
                ("baseUrl", PStr (base_url a));
                ("sessionId", PStr (session_id a))];
     server_proc := false |}.

Definition report_path (a : Args) (sv : Service) : path :=
  match given (output a) with
  | Some out => PathOf out
  | None => PathJoin (PathOf "data")
              ("cfpm_resume_eval_" +:+ str_of_Z (now_ts sv 3) +:+ ".json")
  end.

(** [report.get(outer, {}).get(inner)] *)
Definition nested_get (rep : dict) (outer inner : string) : pyval :=
  match dict_get_default rep outer (PDict []) with
  | PDict d => dict_get_default d inner PNone
  | _ => PNone
  end.

(** What is printed at the end. *)
Definition summary (a : Args) (h : Host) (out : path) (rep : dict) : dict :=
  [("success", dict_get_default rep "success" PNone);
   ("sessionId", PStr (session_id a));
   ("output", PStr (path_str h out));
   ("error", dict_get_default rep "error" PNone);
   ("toolRequestCount", nested_get rep "reply" "toolRequestCount");
   ("gateCount", nested_get rep "api" "gateCount")].

(** [main]: the [try] block, its handler, the [finally] clause, the
    report and the exit status. *)
Definition main (a : Args) (h : Host) (sv : Service) : Run :=
  let after := try_block a h sv (initial a sv) in
  let rep := match snd after with
             | Returns _ => report (fst after)
             | Raised exc => on_exception (report (fst after)) exc
             end in
  let rep := dict_set rep "finishedAt" (PInt (now_ts sv 2)) in
  let out := report_path a sv in
  {| terminated := server_proc (fst after);
     output_path := out;
     written := rep;
     printed := summary a h out rep;
     exit_status := status_of rep |}.

End ResumeEval.

(** ** Sample hosts and services *)

Definition refused : exn :=
  {| exn_kind := "ConnectionRefusedError"; exn_message := "[Errno 111] Connection refused" |}.

(** [str(path)] with "/" between the parts. *)
Fixpoint posix_str (p : path) : string :=
  match p with
  | PathOf s => s
  | PathJoin p' part => posix_str p' +:+ "/" +:+ part
  end.

(** A machine with [PATH_ROOT] set and a store under it, and nothing else. *)
Definition env_root_host : Host :=
  {| environ := fun name => if String.eqb name "PATH_ROOT" then Some "D:\agime" else None;
     path_exists := fun p => path_eqb p (db_under_root "D:\agime");
     path_str := posix_str |}.

(** A machine without any store. *)
Definition bare_host : Host :=
  {| environ := fun name => None;
     path_exists := fun p => false;
     path_str := posix_str |}.

(** A service that answers every call: the session "s1", one fact, and a
    reply of two events. *)
Definition steady_service : Service :=
  {| json_loads := sample_loads;
     start_server := Returns tt;
     status_ready := fun wait => Returns tt;
     request_json := fun method path payload =>
       if String.eqb path "/agent/start" then Returns (PDict [("id", PStr "s1")])
       else if String.eqb path "/sessions/s1/memory/facts" then Returns (PList [PDict bob_onedrive])
       else Returns PNone;
     url_quote := fun v => Returns (py_str v);
     open_reply := fun payload timeout =>
       Returns (0%Q, ([(1 # 1, ping_line); (2 # 1, finish_line)]%Q, Eof));
     db_rows := fun p sid => Returns ([], []);
     now_ts := fun n => 1700000000%Z |}.

(** A service that cannot be reached; [message] is that of the
    [TimeoutError] of the wait for [/status]. *)
Definition down_service (message : string) : Service :=
  {| json_loads := sample_loads;
     start_server := Returns tt;
     status_ready := fun wait =>
       Raised {| exn_kind := "TimeoutError"; exn_message := message |};
     request_json := fun method path payload => Raised refused;
     url_quote := fun v => Returns (py_str v);
     open_reply := fun payload timeout => Raised refused;
     db_rows := fun p sid => Raised refused;
     now_ts := fun n => 1700000000%Z |}.

Definition api_args : ApiEval.Args :=
  {| ApiEval.server_exe := "agimed.exe"; ApiEval.host := "127.0.0.1"; ApiEval.port := 31337;
     ApiEval.secret := "cfpm-eval-secret"; ApiEval.working_dir := ".";
     ApiEval.provider := Some "openai"; ApiEval.model := Some "gpt";
     ApiEval.prompt_1 := "list my desktop"; ApiEval.prompt_2 := "again";
     ApiEval.path_root := None; ApiEval.no_start_server := true;
     ApiEval.output := Some "report.json" |}.

Definition resume_args : ResumeEval.Args :=
  {| ResumeEval.session_id := "s1"; ResumeEval.prompt := "again";
     ResumeEval.host := "127.0.0.1"; ResumeEval.port := 31350;
     ResumeEval.secret := "cfpm-eval-secret"; ResumeEval.server_exe := "agimed.exe";
     ResumeEval.no_start_server := true; ResumeEval.path_root := None;
     ResumeEval.output := Some "report.json" |}.

(** ** The evaluator, further words *)

(** The issue codes in the order [evaluate_quality] appends them. *)
Definition issue_codes : list string :=
  [ "date_noise_fact_active";
    "date_noise_candidate_accepted";
    "wrong_desktop_without_invalid_marker";
    "second_turn_repeated_probe_despite_memory";
    "tool_gate_reused_wrong_path" ].

(** The field [key] of [d] is the string [s]. *)
Definition has_field (key : string) (d : dict) (s : string) : Prop :=
  dict_get d key = Some (PStr s).

(** ** The readers, further words *)

(** What [sse_loop] keeps true of its state until it sees a terminal type. *)
Definition sse_open (st : SseResult) : Prop :=
  error st = PNone /\ finishReason st = PNone /\
  Forall (fun note => contains "CFPM" note = true) (cfpmSystemNotifications st).

(** What is true of the result of [reply_sse]. *)
Definition sse_closed (r : SseResult) : Prop :=
  (error r = PNone \/ finishReason r = PNone) /\
  (error r <> PNone -> exists pre, eventTypes r = pre ++ ["Error"]) /\
  (finishReason r <> PNone -> exists pre, eventTypes r = pre ++ ["Finish"]) /\
  Forall (fun note => contains "CFPM" note = true) (cfpmSystemNotifications r).

(** ** A sample session *)

(** A tool request whose arguments hold a script and a command. *)
Definition tool_request_item : pyval :=
  PDict [("type", PStr "toolRequest");
         ("toolCall",
          PDict [("Ok", PDict [("name", PStr "shell");
                               ("arguments", PDict [("script", PStr "dir");
                                                    ("command", PStr "  ls -la ")])])])].

Definition tool_session : pyval :=
  PDict [("conversation",
          PDict [("messages",
                  PList [PDict [("role", PStr "assistant");
                                ("content", PList [tool_request_item])]])])].

(** ** The runs, further words *)

(** The computation [m] leaves the server process as it is. *)
Definition keeps_proc {A : Type} (m : M A) : Prop :=
  forall s, server_proc (fst (m s)) = server_proc s.

(** The computation [m] appends to [report["steps"]], in this order, the
    names [names] when it returns, and the first few of them when it
    raises. *)
Definition appends_steps {A : Type} (names : list string) (m : M A) : Prop :=
  forall s l,
    dict_get (report s) "steps" = Some (PList l) ->
    exists added,
      dict_get (report (fst (m s))) "steps" = Some (PList (l ++ List.map PStr added)) /\
      match snd (m s) with
      | Returns _ => added = names
      | Raised _ => exists rest, names = added ++ rest
      end.

(** The steps of a run of [cfpm_api_eval.py] without an exception. *)
Definition all_steps (a : ApiEval.Args) : list string :=
  [ if ApiEval.no_start_server a then "server_reused" else "server_started";
    "session_started";
    "provider_updated" ].

(** Arguments that ask for a server of their own. *)
Definition spawn_api_args : ApiEval.Args :=
  {| ApiEval.server_exe := "agimed.exe"; ApiEval.host := "127.0.0.1"; ApiEval.port := 31337;
     ApiEval.secret := "cfpm-eval-secret"; ApiEval.working_dir := ".";
     ApiEval.provider := Some "openai"; ApiEval.model := Some "gpt";
     ApiEval.prompt_1 := "list my desktop"; ApiEval.prompt_2 := "again";
     ApiEval.path_root := None; ApiEval.no_start_server := false;
     ApiEval.output := Some "report.json" |}.

Definition spawn_resume_args : ResumeEval.Args :=
  {| ResumeEval.session_id := "s1"; ResumeEval.prompt := "again";
     ResumeEval.host := "127.0.0.1"; ResumeEval.port := 31350;
     ResumeEval.secret := "cfpm-eval-secret"; ResumeEval.server_exe := "agimed.exe";
     ResumeEval.no_start_server := false; ResumeEval.path_root := None;
     ResumeEval.output := Some "report.json" |}.

(** A machine that has the server executable, and no store. *)
Definition server_host : Host :=
  {| environ := fun name => None;
     path_exists := fun p => path_eqb p (PathOf "agimed.exe");
     path_str := posix_str |}.

(** ** Waiting for the server *)










(** The computation [m] removes no key of the report, and when it returns
    the report has the keys [keys]. *)
Definition records {A : Type} (keys : list string) (m : M A) : Prop :=
  forall s,
    (forall k, dict_get (report s) k <> None -> dict_get (report (fst (m s))) k <> None) /\
    (forall u, snd (m s) = Returns u ->
               forall k, In k keys -> dict_get (report (fst (m s))) k <> None).

(** An active fact whose content is a date and nothing else. *)
Definition date_fact : dict := mk_fact "note" "2024-01-05" "active".

(** * Properties *)

(** ** Strings *)

Lemma string_app_list (s1 s2 : string) :
  list_ascii_of_string (s1 +:+ s2) = list_ascii_of_string s1 ++ list_ascii_of_string s2.
Proof. induction s1 as [|c s1 IH]; simpl; [reflexivity | now rewrite IH]. Qed.

Lemma list_ascii_inj (s1 s2 : string) :
  list_ascii_of_string s1 = list_ascii_of_string s2 -> s1 = s2.
Proof.
  intros H. rewrite <- (string_of_list_ascii_of_string s1), H.
  apply string_of_list_ascii_of_string.
Qed.

Lemma lower_list (s : string) :
  list_ascii_of_string (lower s) = List.map lower_char (list_ascii_of_string s).
Proof. induction s as [|c s IH]; simpl; [reflexivity | now rewrite IH]. Qed.

Lemma prefix_spec (p s : string) :
  String.prefix p s = true <-> exists post, s = p +:+ post.
Proof.
  revert s. induction p as [|c p IH]; intros s; simpl.
  - destruct s; split; eauto.
  - destruct s as [|c' s]; simpl.
    + split; [discriminate | intros [post H]; discriminate].
    + destruct (ascii_dec c c') as [->|Hne].
      * rewrite IH. split; intros [post H]; exists post; [now rewrite H | now inversion H].
      * split; [discriminate | intros [post H]; inversion H; congruence].
Qed.

(** [contains] is Python's substring test. *)
Lemma contains_spec (sub s : string) :
  contains sub s = true <-> exists pre post, s = pre +:+ sub +:+ post.
Proof.
  induction s as [|c s IH]; cbn [contains].
  - rewrite orb_false_r, prefix_spec. split.
    + intros [post H]. now exists "", post.
    + intros [pre [post H]]. destruct pre; [|discriminate]. now exists post.
  - rewrite orb_true_iff, IH, prefix_spec. split.
    + intros [[post H]|[pre [post H]]].
      * now exists "", post.
      * exists (String c pre), post. simpl. now rewrite H.
    + intros [pre [post H]]. destruct pre as [|c' pre]; simpl in H.
      * left. now exists post.
      * right. inversion H. now exists pre, post.
Qed.

(** [endswith] is Python's suffix test. *)
Lemma endswith_spec (s suf : string) :
  endswith s suf = true <-> exists pre, s = pre +:+ suf.
Proof.
  induction s as [|c s IH]; cbn [endswith].
  - rewrite orb_false_r, String.eqb_eq. split.
    + intros <-. now exists "".
    + intros [pre H]. destruct pre; [exact H | discriminate].
  - rewrite orb_true_iff, IH, String.eqb_eq. split.
    + intros [<-|[pre H]]; [now exists "" | exists (String c pre); simpl; now rewrite H].
    + intros [pre H]. destruct pre as [|c' pre]; simpl in H.
      * now left.
      * right. inversion H. now exists pre.
Qed.

Lemma rstrip_last (s : string) (l : list ascii) (c : ascii) :
  list_ascii_of_string (rstrip s) = l ++ [c] -> isspace c = false.
Proof.
  revert l. induction s as [|a s IH]; intros l; simpl.
  - destruct l; discriminate.
  - destruct (rstrip s) as [|b r] eqn:E.
    + destruct (isspace a) eqn:Ea; simpl.
      * destruct l; discriminate.
      * destruct l as [|x l]; simpl; intros H; inversion H; subst; auto.
        destruct l; discriminate.
    + simpl. destruct l as [|x l]; simpl; intros H; inversion H.
      eapply IH; eauto.
Qed.

Lemma strip_last (s : string) (l : list ascii) (c : ascii) :
  list_ascii_of_string (strip s) = l ++ [c] -> isspace c = false.
Proof. apply rstrip_last. Qed.

Lemma lstrip_first (s : string) (l : list ascii) (c : ascii) :
  list_ascii_of_string (lstrip s) = c :: l -> isspace c = false.
Proof.
  induction s as [|a s IH]; simpl; [discriminate|].
  destruct (isspace a) eqn:Ea; auto. simpl. intros H. now inversion H; subst.
Qed.

(** ** The matcher against the language of an expression *)

Lemma rep_upto_spec m L n :
  decides m L ->
  forall s k, rep_upto m n s k = true <->
    exists j s1 s2, j <= n /\ s = s1 ++ s2 /\ lang_pow L j s1 /\ k s2 = true.
Proof.
  intros Hm. induction n as [|n IH]; intros s k; simpl.
  - split.
    + intros H. exists 0, [], s. simpl. auto.
    + intros (j & s1 & s2 & Hj & -> & Hp & Hk).
      assert (j = 0) by lia. subst j. simpl in Hp. now subst s1.
  - rewrite orb_true_iff, (Hm s). split.
    + intros [(s1 & s2 & -> & HL & H)|H].
      * apply IH in H. destruct H as (j & t1 & t2 & Hj & -> & Hp & Hk).
        exists (S j), (s1 ++ t1), t2. repeat split; [lia | now rewrite app_assoc | | exact Hk].
        simpl. now exists s1, t1.
      * exists 0, [], s. simpl. repeat split; auto; lia.
    + intros (j & s1 & s2 & Hj & -> & Hp & Hk). destruct j as [|j]; simpl in Hp.
      * subst s1. now right.
      * destruct Hp as (t1 & t2 & -> & HL & Hp). left.
        exists t1, (t2 ++ s2). repeat split; [now rewrite app_assoc | exact HL |].
        apply IH. exists j, t2, s2. repeat split; auto; lia.
Qed.

Lemma rep_exact_spec m L n cont :
  decides m L ->
  forall s k, rep_exact m n cont s k = true <->
    exists s1 s2, s = s1 ++ s2 /\ lang_pow L n s1 /\ cont s2 k = true.
Proof.
  intros Hm. induction n as [|n IH]; intros s k; simpl.
  - split.
    + intros H. now exists [], s.
    + intros (s1 & s2 & -> & -> & H). exact H.
  - rewrite (Hm s). split.
    + intros (s1 & s2 & -> & HL & H). apply IH in H.
      destruct H as (t1 & t2 & -> & Hp & Hc).
      exists (s1 ++ t1), t2. repeat split; [now rewrite app_assoc | | exact Hc].
      now exists s1, t1.
    + intros (s1 & s2 & -> & (t1 & t2 & -> & HL & Hp) & Hc).
      exists t1, (t2 ++ s2). repeat split; [now rewrite app_assoc | exact HL |].
      apply IH. now exists t2, s2.
Qed.

Lemma plus_atom_spec ic a :
  forall s k, plus_atom ic a s k = true <->
    exists s1 s2, s = s1 ++ s2 /\ (s1 <> [] /\ Forall (fun c => atom_match ic a c = true) s1)
                  /\ k s2 = true.
Proof.
  induction s as [|c s IH]; intros k; simpl.
  - split; [discriminate|]. intros (s1 & s2 & H & [Hne _] & _).
    destruct s1; [contradiction | discriminate].
  - rewrite andb_true_iff, orb_true_iff, IH. split.
    + intros [Hc [(s1 & s2 & -> & [_ Hall] & Hk)|Hk]].
      * exists (c :: s1), s2. repeat split; auto; try discriminate.
      * exists [c], s. repeat split; auto; try discriminate.
    + intros (s1 & s2 & H & [Hne Hall] & Hk).
      destruct s1 as [|c' s1]; [contradiction|]. simpl in H. inversion H; subst.
      inversion Hall; subst. split; [assumption|].
      destruct s1 as [|c'' s1]; [now right|].
      left. exists (c'' :: s1), s2. repeat split; auto; try discriminate.
Qed.

Lemma rmatch_spec ic r : decides (rmatch ic r) (lang ic r).
Proof.
  induction r as [a|r1 IH1 r2 IH2|lo hi r IH|a]; intros s k; simpl.
  - destruct s as [|c s].
    + split; [discriminate|]. intros (s1 & s2 & H & (c & -> & _) & _). discriminate.
    + rewrite andb_true_iff. split.
      * intros [Hc Hk]. exists [c], s. repeat split; eauto.
      * intros (s1 & s2 & H & (c' & -> & Hc) & Hk). simpl in H. now inversion H; subst.
  - rewrite (IH1 s). split.
    + intros (s1 & s2 & -> & H1 & H2). apply IH2 in H2.
      destruct H2 as (t1 & t2 & -> & H2 & Hk).
      exists (s1 ++ t1), t2. repeat split; [now rewrite app_assoc | | exact Hk].
      now exists s1, t1.
    + intros (s1 & s2 & -> & (t1 & t2 & -> & H1 & H2) & Hk).
      exists t1, (t2 ++ s2). repeat split; [now rewrite app_assoc | exact H1 |].
      apply IH2. now exists t2, s2.
  - rewrite (rep_exact_spec _ _ lo _ IH). split.
    + intros (s1 & s2 & -> & Hp & H). apply (rep_upto_spec _ _ _ IH) in H.
      destruct H as (j & t1 & t2 & Hj & -> & Hq & Hk).
      exists (s1 ++ t1), t2. repeat split; [now rewrite app_assoc | | exact Hk].
      exists (lo + j). repeat split; [lia | lia |].
      clear -Hp Hq. revert s1 Hp. induction lo as [|lo IHlo]; intros s1 Hp; simpl in *.
      * now subst s1.
      * destruct Hp as (u1 & u2 & -> & HL & Hp). exists u1, (u2 ++ t1).
        repeat split; [now rewrite app_assoc | exact HL | now apply IHlo].
    + intros (s1 & s2 & -> & (n & Hlo & Hhi & Hp) & Hk).
      assert (Hsplit : exists u1 u2, s1 = u1 ++ u2 /\ lang_pow (lang ic r) lo u1
                                     /\ lang_pow (lang ic r) (n - lo) u2).
      { clear -Hlo Hp. revert n s1 Hlo Hp. induction lo as [|lo IHlo]; intros n s1 Hlo Hp.
        - exists [], s1. rewrite Nat.sub_0_r. simpl. auto.
        - destruct n as [|n]; [lia|]. simpl in Hp. destruct Hp as (v1 & v2 & -> & HL & Hp).
          destruct (IHlo n v2) as (u1 & u2 & -> & Hu1 & Hu2); [lia | exact Hp |].
          exists (v1 ++ u1), u2. repeat split; [now rewrite app_assoc | | exact Hu2].
          simpl. now exists v1, u1. }
      destruct Hsplit as (u1 & u2 & -> & Hu1 & Hu2).
      exists u1, (u2 ++ s2). repeat split; [now rewrite app_assoc | exact Hu1 |].
      apply (rep_upto_spec _ _ _ IH). exists (n - lo), u2, s2. repeat split; auto. lia.
  - apply plus_atom_spec.
Qed.

(** ** The two patterns *)

Ltac each_char c := destruct c as [[] [] [] [] [] [] [] []].

Lemma lang_pow_atom ic a n s :
  lang_pow (lang ic (RAtom a)) n s <->
  List.length s = n /\ Forall (fun c => atom_match ic a c = true) s.
Proof.
  revert s. induction n as [|n IH]; intros s; simpl.
  - split.
    + intros ->. auto.
    + intros [H _]. now destruct s.
  - split.
    + intros (s1 & s2 & -> & (c & -> & Hc) & Hp). apply IH in Hp. destruct Hp as [Hl Hall].
      simpl. split; [now rewrite Hl | now constructor].
    + intros [Hl Hall]. destruct s as [|c s]; [discriminate|].
      inversion Hall; subst. exists [c], s. repeat split; eauto.
      apply IH. split; [now inversion Hl | assumption].
Qed.

Lemma lang_rep_atom ic lo hi a s :
  lang ic (RRep lo hi (RAtom a)) s <->
  (lo <= List.length s /\ List.length s <= lo + (hi - lo)) /\
  Forall (fun c => atom_match ic a c = true) s.
Proof.
  simpl. split.
  - intros (n & Hlo & Hhi & Hp). apply lang_pow_atom in Hp. destruct Hp as [<- Hall]. auto.
  - intros [[Hlo Hhi] Hall]. exists (List.length s). repeat split; auto.
    apply lang_pow_atom. auto.
Qed.

Lemma date_sep_match c :
  atom_match false (ASet false [("."%char, "."%char); ("/"%char, "/"%char); ("-"%char, "-"%char)]) c
  = Ascii.eqb c "." || Ascii.eqb c "/" || Ascii.eqb c "-".
Proof. each_char c; reflexivity. Qed.

Lemma date_sep_lang s :
  lang false date_sep s <-> exists c, s = [c] /\ is_date_sep c.
Proof.
  unfold date_sep, is_date_sep. cbn [lang].
  split; intros (c & -> & H); exists c; split; auto.
  - rewrite date_sep_match, !orb_true_iff, !Ascii.eqb_eq in H. tauto.
  - rewrite date_sep_match, !orb_true_iff, !Ascii.eqb_eq. tauto.
Qed.

Lemma date_only_lang (s : string) :
  lang false DATE_ONLY_RE (list_ascii_of_string s) <-> bare_date s.
Proof.
  unfold DATE_ONLY_RE, bare_date. cbn [rseq]. cbn [lang].
  split.
  - intros (y & r1 & -> & Hy & p1 & r2 & -> & Hp1 & m & r3 & -> & Hm & p2 & d & -> & Hp2 & Hd).
    fold (lang false (RRep 4 4 (RAtom ADigit)) y) in Hy.
    fold (lang false (RRep 1 2 (RAtom ADigit)) m) in Hm.
    fold (lang false (RRep 1 2 (RAtom ADigit)) d) in Hd.
    apply lang_rep_atom in Hy, Hm, Hd. simpl in Hy, Hm, Hd.
    apply date_sep_lang in Hp1, Hp2.
    destruct Hp1 as (sep1 & -> & Hs1). destruct Hp2 as (sep2 & -> & Hs2).
    exists y, m, d, sep1, sep2. simpl.
    destruct Hy as [[? ?] ?], Hm as [[? ?] ?], Hd as [[? ?] ?].
    repeat split; auto; lia.
  - intros (y & m & d & sep1 & sep2 & -> & Hy & [Hm1 Hm2] & [Hd1 Hd2] & Dy & Dm & Dd & Hs1 & Hs2).
    exists y, (sep1 :: m ++ sep2 :: d). split; [reflexivity|]. split.
    { fold (lang false (RRep 4 4 (RAtom ADigit)) y). apply lang_rep_atom. simpl.
      repeat split; auto; lia. }
    exists [sep1], (m ++ sep2 :: d). split; [reflexivity|]. split.
    { apply date_sep_lang. eauto. }
    exists m, (sep2 :: d). split; [reflexivity|]. split.
    { fold (lang false (RRep 1 2 (RAtom ADigit)) m). apply lang_rep_atom. simpl.
      repeat split; auto; lia. }
    exists [sep2], d. split; [reflexivity|]. split.
    { apply date_sep_lang. eauto. }
    fold (lang false (RRep 1 2 (RAtom ADigit)) d). apply lang_rep_atom. simpl.
    repeat split; auto; lia.
Qed.

(** On a stripped string the closing [$] can only be the end of the string. *)
Lemma re_match_strip ic r (s : string) :
  re_match ic r (strip s) = true <-> lang ic r (list_ascii_of_string (strip s)).
Proof.
  unfold re_match. rewrite (rmatch_spec ic r _ _). split.
  - intros (s1 & s2 & E & HL & Hk).
    destruct s2 as [|c [|c' s2]]; simpl in Hk; try discriminate.
    + now rewrite E, app_nil_r.
    + apply Ascii.eqb_eq in Hk. subst c. apply strip_last in E. discriminate.
  - intros HL. exists (list_ascii_of_string (strip s)), []. now rewrite app_nil_r.
Qed.

Lemma date_only_match_strip (s : string) :
  date_only_match (strip s) = true <-> bare_date (strip s).
Proof. unfold date_only_match. now rewrite re_match_strip, date_only_lang. Qed.

Lemma letter_set_match c :
  atom_match true (ASet false [("A"%char, "Z"%char); ("a"%char, "z"%char)]) c = is_ascii_letter c.
Proof. each_char c; reflexivity. Qed.

Lemma not_backslash_match c :
  atom_match true (ASet true [(backslash, backslash)]) c = negb (Ascii.eqb c backslash).
Proof. each_char c; reflexivity. Qed.

Lemma backslash_lit_match c :
  atom_match true (ALit backslash) c = Ascii.eqb c backslash.
Proof. each_char c; reflexivity. Qed.

Lemma lang_rlits (lit : string) (last : regex) (s : list ascii) :
  lang true (rlits lit last) s <->
  exists s1 s2, s = s1 ++ s2 /\
    List.map lower_char s1 = List.map lower_char (list_ascii_of_string lit) /\
    lang true last s2.
Proof.
  revert s. induction lit as [|c lit IH]; intros s; cbn [rlits].
  - split.
    + intros H. now exists [], s.
    + intros (s1 & s2 & -> & H1 & H2). destruct s1; [exact H2 | discriminate].
  - cbn [lang]. split.
    + intros (t1 & t2 & -> & (x & -> & Hx) & H). apply IH in H.
      destruct H as (s1 & s2 & -> & H1 & H2). exists (x :: s1), s2.
      repeat split; auto. simpl in *. apply Ascii.eqb_eq in Hx. now rewrite Hx, H1.
    + intros (s1 & s2 & -> & H1 & H2). destruct s1 as [|x s1]; [discriminate|].
      simpl in H1. inversion H1 as [[Hx Hrest]].
      exists [x], (s1 ++ s2). split; [reflexivity|]. split.
      * exists x. split; [reflexivity|]. simpl. rewrite Hx. apply Ascii.eqb_refl.
      * apply IH. now exists s1, s2.
Qed.

Lemma desktop_wrong_lang (s : string) :
  lang true DESKTOP_WRONG_RE (list_ascii_of_string s) <-> plain_desktop_path s.
Proof.
  unfold DESKTOP_WRONG_RE, plain_desktop_path. cbn [lang]. split.
  - intros (d0 & r0 & -> & (drive & -> & Hdrive) & H).
    apply lang_rlits in H. destruct H as (users & r1 & -> & Hu & H).
    cbn [lang] in H. destruct H as (seg & r2 & -> & [Hne Hseg] & H).
    apply lang_rlits in H. destruct H as (desktop & tail & -> & Hd & H).
    apply lang_rep_atom in H. destruct H as [[_ Hlen] Htail].
    exists drive, users, seg, desktop, tail.
    rewrite letter_set_match in Hdrive. repeat split; auto.
    + eapply Forall_impl; [|exact Hseg]. intros c Hc. cbv beta in Hc.
      rewrite not_backslash_match in Hc. intros ->. discriminate.
    + destruct tail as [|c [|c' tail]]; [now left | right | simpl in Hlen; lia].
      inversion Htail as [|? ? Hc _]; subst. rewrite backslash_lit_match in Hc.
      apply Ascii.eqb_eq in Hc. now subst.
  - intros (drive & users & seg & desktop & tail & -> & Hdrive & Hu & Hne & Hseg & Hd & Htail).
    exists [drive], (users ++ seg ++ desktop ++ tail). split; [reflexivity|]. split.
    { exists drive. split; [reflexivity|]. now rewrite letter_set_match. }
    apply lang_rlits. exists users, (seg ++ desktop ++ tail). repeat split; auto.
    cbn [lang]. exists seg, (desktop ++ tail). split; [reflexivity|]. split.
    { split; [exact Hne|]. eapply Forall_impl; [|exact Hseg]. intros c Hc. cbv beta in Hc.
      rewrite not_backslash_match. destruct (Ascii.eqb_spec c backslash); [contradiction | reflexivity]. }
    apply lang_rlits. exists desktop, tail. repeat split; auto.
    apply lang_rep_atom. simpl. destruct Htail as [->| ->]; simpl.
    + repeat split; auto; lia.
    + repeat split; auto; try lia; repeat constructor.
Qed.

Lemma desktop_wrong_match_strip (s : string) :
  desktop_wrong_match (strip s) = true <-> plain_desktop_path (strip s).
Proof. unfold desktop_wrong_match. now rewrite re_match_strip, desktop_wrong_lang. Qed.

(** ** The quality evaluator *)

Lemma In_issue_if (b : bool) (code c : string) :
  In c (issue_if b code) <-> b = true /\ c = code.
Proof.
  destruct b; simpl; split; try tauto.
  - intros [H|[]]. auto.
  - intros [_ H]. auto.
  - intros [H _]. discriminate.
Qed.

Lemma nonempty_iff {A : Type} (l : list A) : nonempty l = true <-> l <> [].
Proof. destruct l; simpl; split; congruence. Qed.

Ltac issue_cases :=
  unfold evaluate_quality; cbn [issues];
  rewrite !in_app_iff, !In_issue_if;
  split;
  [ intros H;
    repeat match goal with
           | H : _ \/ _ |- _ => destruct H as [H|H]
           end;
    destruct H as [H E]; try discriminate E; exact H
  | intros H; auto 10 ].

Lemma str_field_sat_iff key p f :
  str_field_sat key p f = true <-> exists s, dict_get f key = Some (PStr s) /\ p s = true.
Proof.
  unfold str_field_sat. destruct (dict_get f key) as [[| | | |s| |]|]; simpl;
    split; try discriminate; try (intros (s' & E & _); discriminate).
  - intros H. now exists s.
  - intros (s' & E & H). now inversion E; subst.
Qed.

Lemma filter_active_app pre f post :
  is_active f = false ->
  List.filter is_active (pre ++ f :: post) = List.filter is_active (pre ++ post).
Proof. intros H. rewrite !filter_app. simpl. now rewrite H. Qed.

Lemma In_active_filters (P : dict -> bool) f facts :
  In f (List.filter P (List.filter is_active facts)) -> is_active f = true.
Proof. intros H. apply filter_In in H. destruct H as [H _]. apply filter_In in H. tauto. Qed.

(** C8. A fact whose status, compared without regard to case, is not
    "active" is counted in none of [activeFactCount], [activeArtifactCount]
    and [activeInvalidPathCount] (the report is the one computed without
    that fact) and occurs in none of the evidence lists [dateNoiseFacts],
    [wrongDesktopArtifacts] and [oneDriveDesktopArtifacts]. *)
Theorem inactive_fact_not_counted (pre post : list dict) (f : dict)
    (cands gates : list dict) (cmds : list string) :
  field_lower "status" f <> "active" ->
  let q := evaluate_quality (pre ++ f :: post) cands gates cmds in
  let q' := evaluate_quality (pre ++ post) cands gates cmds in
  q = q' /\
  activeFactCount q = List.length (List.filter is_active (pre ++ post)) /\
  activeArtifactCount q = activeArtifactCount q' /\
  activeInvalidPathCount q = activeInvalidPathCount q' /\
  ~ In f (dateNoiseFacts q) /\
  ~ In f (wrongDesktopArtifacts q) /\
  ~ In f (oneDriveDesktopArtifacts q).
Proof.
  intros Hst q q'.
  assert (Hf : is_active f = false).
  { unfold is_active. now apply String.eqb_neq. }
  assert (Hq : q = q').
  { subst q q'. unfold evaluate_quality. now rewrite (filter_active_app pre f post Hf). }
  split; [exact Hq|]. rewrite Hq.
  split; [reflexivity|]. split; [reflexivity|]. split; [reflexivity|].
  assert (Hno : forall P, ~ In f (List.filter P (List.filter is_active (pre ++ post)))).
  { intros P H. apply In_active_filters in H. congruence. }
  subst q'. unfold evaluate_quality. cbn [dateNoiseFacts wrongDesktopArtifacts oneDriveDesktopArtifacts].
  split; [apply Hno|]. split.
  - intros H. apply filter_In in H. destruct H as [H _]. now apply Hno in H.
  - intros H. apply filter_In in H. destruct H as [H _]. now apply Hno in H.
Qed.

Lemma inactive_fact_not_counted_witness :
  activeFactCount (evaluate_quality [bob_onedrive; stale_date] [] [] []) = 1 /\
  ~ In stale_date (dateNoiseFacts (evaluate_quality [bob_onedrive; stale_date] [] [] [])).
Proof.
  destruct (inactive_fact_not_counted [bob_onedrive] [] stale_date [] [] [])
    as (_ & H1 & _ & _ & H2 & _).
  - vm_compute. discriminate.
  - split; [exact H1 | exact H2].
Defined.

(** C7. The issue [second_turn_repeated_probe_despite_memory] is reported
    exactly when some recent command contains, without regard to case, one
    of the probe markers, and some active artifact fact has a string content
    that contains "onedrive" and ends with "desktop", both without regard to
    case. *)
Theorem repeated_probe_issue_iff (facts cands gates : list dict) (cmds : list string) :
  In "second_turn_repeated_probe_despite_memory"
     (issues (evaluate_quality facts cands gates cmds))
  <->
  (exists cmd marker, In cmd cmds /\ In marker PROBE_MARKERS /\
     substring_of (lower marker) (lower cmd)) /\
  (exists f s, In f facts /\ is_active f = true /\ is_artifact f = true /\
     has_content f s /\
     substring_of "onedrive" (lower s) /\ suffix_of "desktop" (lower s)).
Proof.
  transitivity
    ((0 <? probeCount (score_probe_commands cmds))%nat &&
     (0 <? List.length (List.filter is_onedrive_desktop_content
                          (List.filter is_artifact (List.filter is_active facts))))%nat = true).
  { issue_cases. }
  rewrite andb_true_iff, !Nat.ltb_lt. cbn [score_probe_commands probeCount].
  assert (Hpos : forall (A : Type) (l : list A), 0 < List.length l <-> exists x, In x l).
  { intros A [|x l]; simpl; split; try lia.
    - intros [x []].
    - intros _. eauto. }
  rewrite !Hpos.
  match goal with
  | |- ?A /\ ?B <-> ?C /\ ?D => assert (HA : A <-> C); [| assert (HB : B <-> D); [| tauto]]
  end.
  - split.
    + intros (cmd & H). apply filter_In in H. destruct H as [Hin H].
      unfold is_probe in H. apply existsb_exists in H. destruct H as (marker & Hm & H).
      exists cmd, marker. repeat split; auto. now apply contains_spec.
    + intros (cmd & marker & Hin & Hm & H). exists cmd. apply filter_In. split; [exact Hin|].
      unfold is_probe. apply existsb_exists. exists marker. split; [exact Hm|].
      now apply contains_spec.
  - split.
    + intros (f & H). apply filter_In in H. destruct H as [H Hc].
      apply filter_In in H. destruct H as [H Hart]. apply filter_In in H. destruct H as [Hin Hact].
      unfold is_onedrive_desktop_content in Hc. apply str_field_sat_iff in Hc.
      destruct Hc as (s & Hs & Hc). apply andb_true_iff in Hc. destruct Hc as [Ho Hd].
      exists f, s. repeat split; auto; [now apply contains_spec | now apply endswith_spec].
    + intros (f & s & Hin & Hact & Hart & Hs & Ho & Hd). exists f.
      apply filter_In. split.
      * apply filter_In. split; [|exact Hart]. apply filter_In. now split.
      * unfold is_onedrive_desktop_content. apply str_field_sat_iff. exists s. split; [exact Hs|].
        apply andb_true_iff. split; [now apply contains_spec | now apply endswith_spec].
Qed.

(** C2, as the evaluator has it.  An active fact is in [dateNoiseFacts]
    exactly when its content is a string that, stripped, is a bare calendar
    date, whatever its category; [date_noise_fact_active] is reported exactly
    when that list is not empty. *)
Theorem date_noise_fact_iff (facts cands gates : list dict) (cmds : list string) (f : dict) :
  let q := evaluate_quality facts cands gates cmds in
  (In f (dateNoiseFacts q) <->
     In f facts /\ is_active f = true /\ exists s, has_content f s /\ bare_date (strip s)) /\
  (In "date_noise_fact_active" (issues q) <-> dateNoiseFacts q <> []).
Proof.
  intros q. subst q. split.
  - unfold evaluate_quality. cbn [dateNoiseFacts]. rewrite !filter_In.
    unfold is_date_content. rewrite str_field_sat_iff. split.
    + intros [[Hin Hact] (s & Hs & H)]. repeat split; auto. exists s.
      split; [exact Hs | now apply date_only_match_strip].
    + intros (Hin & Hact & s & Hs & H). repeat split; auto. exists s.
      split; [exact Hs | now apply date_only_match_strip].
  - rewrite <- nonempty_iff. issue_cases.
Qed.

(** C2 as stated fails: an active invalid-path fact with a bare date as its
    content is counted as date noise. *)
Lemma date_noise_invalid_path_counterexample :
  is_active invalid_date = true /\ is_invalid_path invalid_date = true /\
  dateNoiseFacts (evaluate_quality [invalid_date] [] [] []) = [invalid_date] /\
  issues (evaluate_quality [invalid_date] [] [] []) = ["date_noise_fact_active"].
Proof. vm_compute. repeat split; reflexivity. Qed.

Lemma filter_filter {A : Type} (P Q : A -> bool) (l : list A) :
  List.filter P (List.filter Q l) = List.filter (fun x => Q x && P x) l.
Proof.
  induction l as [|x l IH]; simpl; [reflexivity|].
  destruct (Q x); simpl; [destruct (P x)|]; now rewrite IH.
Qed.

Lemma filter_none {A : Type} (P : A -> bool) (l : list A) :
  (forall x, In x l -> P x = false) -> List.filter P l = [].
Proof.
  induction l as [|x l IH]; simpl; intros H; [reflexivity|].
  rewrite (H x) by auto. apply IH. auto.
Qed.

Lemma wrong_desktop_filter facts :
  List.filter is_wrong_desktop_content (List.filter is_artifact (List.filter is_active facts))
  = List.filter wrong_desktop_test facts.
Proof. rewrite !filter_filter. reflexivity. Qed.

Lemma wrong_desktop_test_iff f :
  wrong_desktop_test f = true <-> matching_artifact f.
Proof.
  unfold wrong_desktop_test, matching_artifact, is_wrong_desktop_content, has_content.
  rewrite !andb_true_iff, str_field_sat_iff. split.
  - intros [Ha [Hb (s & Hs & H)]]. repeat split; auto. exists s.
    split; [exact Hs | now apply desktop_wrong_match_strip].
  - intros (Ha & Hb & s & Hs & H). repeat split; auto. exists s.
    split; [exact Hs | now apply desktop_wrong_match_strip].
Qed.

Lemma marks_iff facts w s0 :
  has_content w s0 ->
  existsb (marks w) (List.filter is_invalid_path (List.filter is_active facts)) = true
  <-> has_marker facts w.
Proof.
  intros Hw. unfold has_marker. rewrite existsb_exists. split.
  - intros (f & Hin & Hm). apply filter_In in Hin. destruct Hin as [Hin Hinv].
    apply filter_In in Hin. destruct Hin as [Hin Hact].
    unfold marks, dict_get_default in Hm. unfold has_content in Hw. rewrite Hw in Hm.
    destruct (dict_get f "content") as [[| | | |s| |]|] eqn:E; simpl in Hm; try discriminate.
    apply String.eqb_eq in Hm. exists f, s, s0. repeat split; auto.
  - intros (f & s & s1 & Hin & Hact & Hinv & Hs & Hw1 & Heq).
    unfold has_content in *. rewrite Hw in Hw1. inversion Hw1; subst s1.
    exists f. split.
    + apply filter_In. split; [|exact Hinv]. apply filter_In. now split.
    + unfold marks, dict_get_default. rewrite Hs, Hw. simpl. now apply String.eqb_eq.
Qed.

Lemma wrong_desktop_reported_iff facts cands gates cmds :
  In "wrong_desktop_without_invalid_marker" (issues (evaluate_quality facts cands gates cmds))
  <->
  match List.filter wrong_desktop_test facts with
  | [] => false
  | w :: _ => negb (existsb (marks w) (List.filter is_invalid_path (List.filter is_active facts)))
  end = true.
Proof. rewrite <- wrong_desktop_filter. issue_cases. Qed.

(** C3, as the evaluator has it.  The plain desktop pattern is a drive
    letter, [:\Users\], one path segment, [\Desktop] and an optional final
    backslash, letters in either case.  The issue
    [wrong_desktop_without_invalid_marker] is reported when the first active
    artifact fact whose stripped content matches the pattern has no active
    invalid-path fact with the same content up to case; it is not reported
    when every matching artifact fact has such a marker. *)
Theorem wrong_desktop_issue (facts cands gates : list dict) (cmds : list string) :
  let code := "wrong_desktop_without_invalid_marker" in
  let q := evaluate_quality facts cands gates cmds in
  (forall pre w post,
      facts = pre ++ w :: post ->
      (forall f, In f pre -> ~ matching_artifact f) ->
      matching_artifact w ->
      ~ has_marker facts w ->
      In code (issues q)) /\
  ((forall w, In w facts -> matching_artifact w -> has_marker facts w) ->
   ~ In code (issues q)).
Proof.
  intros code q. subst code q. split.
  - intros pre w post -> Hpre Hw Hno. apply wrong_desktop_reported_iff.
    rewrite filter_app, (filter_none wrong_desktop_test pre).
    + simpl. apply wrong_desktop_test_iff in Hw as Hw'. rewrite Hw'.
      destruct Hw as (_ & _ & s0 & Hs0 & _).
      destruct (existsb (marks w) _) eqn:E; [|reflexivity].
      apply (marks_iff _ _ _ Hs0) in E. contradiction.
    + intros f Hin. destruct (wrong_desktop_test f) eqn:E; [|reflexivity].
      apply wrong_desktop_test_iff in E. now apply Hpre in E.
  - intros Hall H. apply wrong_desktop_reported_iff in H.
    destruct (List.filter wrong_desktop_test facts) as [|w l] eqn:E; [discriminate|].
    assert (Hin : In w (List.filter wrong_desktop_test facts)) by (rewrite E; now left).
    apply filter_In in Hin. destruct Hin as [Hin Hw]. apply wrong_desktop_test_iff in Hw.
    pose proof (Hall w Hin Hw) as Hm.
    destruct Hw as (_ & _ & s0 & Hs0 & _).
    apply (marks_iff _ _ _ Hs0) in Hm. rewrite Hm in H. discriminate.
Qed.

Lemma matching_artifact_bob : matching_artifact bob_desktop.
Proof. apply wrong_desktop_test_iff. vm_compute. reflexivity. Defined.

Lemma wrong_desktop_issue_witness :
  In "wrong_desktop_without_invalid_marker"
     (issues (evaluate_quality [bob_desktop] [] [] [])) /\
  ~ In "wrong_desktop_without_invalid_marker"
       (issues (evaluate_quality [bob_desktop; bob_desktop_invalid] [] [] [])).
Proof.
  split.
  - apply (proj1 (wrong_desktop_issue [bob_desktop] [] [] []) [] bob_desktop []).
    + reflexivity.
    + intros f [].
    + exact matching_artifact_bob.
    + intros H. apply (marks_iff _ _ "C:\Users\bob\Desktop") in H; [|reflexivity].
      vm_compute in H. discriminate.
  - apply (proj2 (wrong_desktop_issue [bob_desktop; bob_desktop_invalid] [] [] [])).
    intros w [<-|[<-|[]]] Hw.
    + apply (marks_iff _ _ "C:\Users\bob\Desktop"); [reflexivity|]. vm_compute. reflexivity.
    + apply wrong_desktop_test_iff in Hw. vm_compute in Hw. discriminate.
Defined.

(** C3 as stated fails twice.  With two matching artifact facts of which
    only the first has a marker, the second has none and yet the issue is
    not reported.  And a path without [\Desktop], which the description of
    the pattern in the claim admits, is not a wrong-desktop artifact at
    all. *)
Lemma wrong_desktop_counterexample :
  (matching_artifact al_desktop /\
   ~ has_marker [bob_desktop; al_desktop; bob_desktop_invalid] al_desktop /\
   issues (evaluate_quality [bob_desktop; al_desktop; bob_desktop_invalid] [] [] []) = []) /\
  (is_active bob_home = true /\ is_artifact bob_home = true /\
   has_content bob_home "C:\Users\bob" /\
   plain_desktop_path_optional_desktop (strip "C:\Users\bob") /\
   ~ has_marker [bob_home] bob_home /\
   issues (evaluate_quality [bob_home] [] [] []) = []).
Proof.
  split.
  - split; [|split].
    + apply wrong_desktop_test_iff. vm_compute. reflexivity.
    + intros H. apply (marks_iff _ _ "C:\Users\al\Desktop") in H; [|reflexivity].
      vm_compute in H. discriminate.
    + vm_compute. reflexivity.
  - repeat split.
    + exists "C"%char, (list_ascii_of_string ":\Users" ++ [backslash]),
        (list_ascii_of_string "bob"), [].
      repeat split; try reflexivity.
      * discriminate.
      * repeat constructor; discriminate.
      * now left.
    + intros H. apply (marks_iff _ _ "C:\Users\bob") in H; [|reflexivity].
      vm_compute in H. discriminate.
Qed.

(** ** Lists with a stop element *)

Lemma stop_shape_plain {A : Type} (stop : A -> bool) (l : list A) :
  Forall (fun x => stop x = false) l -> stop_shape stop l.
Proof. intros H. exists l, []. rewrite app_nil_r. simpl. auto. Qed.

Lemma stop_shape_snoc {A : Type} (stop : A -> bool) (l : list A) (x : A) :
  Forall (fun x => stop x = false) l -> stop_shape stop (l ++ [x]).
Proof. intros H. exists l, [x]. simpl. auto. Qed.

Lemma stop_shape_count {A : Type} (stop : A -> bool) (l : list A) :
  stop_shape stop l -> List.length (List.filter stop l) <= 1.
Proof.
  intros (body & tail & -> & Hb & Ht). rewrite filter_app, length_app.
  rewrite (filter_none stop body).
  - simpl. pose proof (filter_length_le stop tail). lia.
  - intros x Hx. rewrite Forall_forall in Hb. auto.
Qed.

Lemma stop_shape_last {A : Type} (stop : A -> bool) (l : list A) :
  stop_shape stop l -> stops_last stop l.
Proof.
  intros (body & tail & -> & Hb & Ht) pre x post E Hx.
  destruct post as [|y post] using rev_ind; [reflexivity|]. exfalso. clear IHpost.
  rewrite Forall_forall in Hb.
  destruct tail as [|t [|t' tail]]; [| |simpl in Ht; lia].
  - rewrite app_nil_r in E. specialize (Hb x). rewrite E in Hb.
    rewrite Hb in Hx; [discriminate|]. apply in_or_app. right. now left.
  - change (pre ++ x :: post ++ [y]) with (pre ++ (x :: post) ++ [y]) in E.
    rewrite app_assoc in E. apply app_inj_tail in E. destruct E as [E _].
    specialize (Hb x). rewrite E in Hb.
    rewrite Hb in Hx; [discriminate|]. apply in_or_app. right. now left.
Qed.

Lemma upto_first_all {A : Type} (stop : A -> bool) (l : list A) :
  existsb stop l = false -> upto_first stop l = l.
Proof.
  induction l as [|x l IH]; simpl; [reflexivity|].
  destruct (stop x); simpl; [discriminate|]. intros H. now rewrite IH.
Qed.

Lemma upto_first_app {A : Type} (stop : A -> bool) (l1 l2 : list A) :
  upto_first stop (l1 ++ l2)
  = if existsb stop l1 then upto_first stop l1 else l1 ++ upto_first stop l2.
Proof.
  induction l1 as [|x l1 IH]; simpl; [reflexivity|].
  destruct (stop x); simpl; [reflexivity|]. rewrite IH. now destruct (existsb stop l1).
Qed.

(** ** The reader of [cfpm_api_eval.py] *)

Section StreamReply.

Variable json_loads : string -> option pyval.
Variable started : Q.
Variable timeout_sec : Z.

Local Abbreviation loop := (stream_loop json_loads started timeout_sec).
Local Abbreviation late := (timed_out started timeout_sec).

Lemma empty_line_no_marker (line : string) :
  String.eqb line "" = true -> startswith line "data:" = false.
Proof. intros H. apply String.eqb_eq in H. now subst. Qed.

Lemma maybe_json_dict (payload : string) (d : dict) :
  maybe_json json_loads payload = PDict d <-> json_loads payload = Some (PDict d).
Proof.
  unfold maybe_json. destruct (json_loads payload) as [v|]; split; congruence.
Qed.

(** One iteration, by what the line carries. *)
Lemma stream_loop_step now raw rest fin events :
  late now = false ->
  loop ((now, raw) :: rest) fin events =
  match line_event json_loads raw with
  | None => loop rest fin events
  | Some d => if is_terminal d then Returns (events ++ [d])
              else loop rest fin (events ++ [d])
  end.
Proof.
  intros Hnow. cbn [stream_loop]. rewrite Hnow.
  unfold line_event, line_value, data_payload.
  destruct (String.eqb (strip raw) "") eqn:Eempty.
  - rewrite (empty_line_no_marker _ Eempty). reflexivity.
  - cbn [orb]. destruct (startswith (strip raw) "data:"); cbn [negb]; [|reflexivity].
    destruct (String.eqb (strip (slice_from 5 (strip raw))) ""); [reflexivity|].
    unfold maybe_json.
    destruct (json_loads (strip (slice_from 5 (strip raw)))) as [[| | | | | |d]|]; reflexivity.
Qed.

Lemma stream_loop_late now raw rest fin events :
  late now = true -> loop ((now, raw) :: rest) fin events = Returns events.
Proof. intros H. cbn [stream_loop]. now rewrite H. Qed.

Lemma skipped_no_event raw : skipped json_loads raw -> line_event json_loads raw = None.
Proof.
  unfold line_event, line_value, data_payload.
  intros [raw' [raw0 H|raw0 H|raw0 H1 H2|raw0 payload H1 H2]|raw' payload v H1 H2 H3].
  - rewrite H. reflexivity.
  - now rewrite H.
  - rewrite H1, H2. reflexivity.
  - unfold data_payload in H1. rewrite H1, H2. reflexivity.
  - unfold data_payload in H1. rewrite H1, H2. destruct v; try reflexivity.
    now destruct (H3 d).
Qed.

(** A line that carries no object can be left out. *)
Lemma stream_loop_skip pre now raw post fin events :
  late now = false -> line_event json_loads raw = None ->
  loop (pre ++ (now, raw) :: post) fin events = loop (pre ++ post) fin events.
Proof.
  intros Hnow Hraw. revert events. induction pre as [|[t r] pre IH]; intros events.
  - cbn [app]. now rewrite stream_loop_step, Hraw.
  - cbn [app]. destruct (late t) eqn:Et.
    + now rewrite !stream_loop_late.
    + rewrite !stream_loop_step by assumption.
      destruct (line_event json_loads r) as [d|]; [|apply IH].
      destruct (is_terminal d); [reflexivity | apply IH].
Qed.


(** With no late line, the loop collects the objects of the lines up to
    the first terminal one. *)
Lemma stream_loop_events chunks fin events :
  Forall (fun c => late (fst c) = false) chunks ->
  existsb is_terminal (events_of json_loads (List.map snd chunks)) = true \/ fin = Eof ->
  loop chunks fin events
  = Returns (events ++ upto_first is_terminal (events_of json_loads (List.map snd chunks))).
Proof.
  intros Hlate. revert events. induction Hlate as [|[t r] chunks Ht Hrest IH]; intros events Hend.
  - cbn. destruct Hend as [H| ->]; [discriminate|]. now rewrite app_nil_r.
  - simpl in Ht. rewrite stream_loop_step by assumption.
    unfold events_of in *. cbn [List.map snd flat_map] in *.
    destruct (line_event json_loads r) as [d|]; cbn [option_list app] in *.
    + cbn [upto_first existsb] in *. destruct (is_terminal d).
      * reflexivity.
      * rewrite IH by exact Hend. now rewrite <- app_assoc.
    + now apply IH.
Qed.

(** The loop raises only when the transport does. *)
Lemma stream_loop_returns chunks events :
  exists evs, loop chunks Eof events = Returns evs.
Proof.
  revert events. induction chunks as [|[t r] chunks IH]; intros events.
  - now exists events.
  - destruct (late t) eqn:Et.
    + exists events. now apply stream_loop_late.
    + rewrite stream_loop_step by assumption.
      destruct (line_event json_loads r) as [d|]; [|apply IH].
      destruct (is_terminal d); [now eexists | apply IH].
Qed.

(** The events returned hold at most one terminal event, the last one. *)
Lemma stream_loop_shape chunks fin events evs :
  Forall (fun e => is_terminal e = false) events ->
  loop chunks fin events = Returns evs -> stop_shape is_terminal evs.
Proof.
  revert events. induction chunks as [|[t r] chunks IH]; intros events Hev H.
  - destruct fin; cbn in H; [|discriminate]. inversion H; subst.
    now apply stop_shape_plain.
  - destruct (late t) eqn:Et.
    + rewrite stream_loop_late in H by assumption. inversion H; subst.
      now apply stop_shape_plain.
    + rewrite stream_loop_step in H by assumption.
      destruct (line_event json_loads r) as [d|]; [|now apply (IH events)].
      destruct (is_terminal d) eqn:Ed.
      * inversion H; subst. now apply stop_shape_snoc.
      * apply (IH (events ++ [d])); [|exact H].
        apply Forall_app. split; [exact Hev|]. now constructor.
Qed.

End StreamReply.

(** ** The reader of [cfpm_resume_eval.py] *)

Lemma scan_item_types c st st' :
  scan_item c st = Returns st' -> eventTypes st' = eventTypes st.
Proof.
  destruct c as [| | | | | |cd]; try discriminate. unfold scan_item.
  intros H. inversion H; subst; clear H.
  repeat match goal with
         | |- context [if ?b then _ else _] => destruct b
         | |- context [match ?o with Some _ => _ | None => _ end] => destruct o
         | |- context [match ?v with PNone => _ | _ => _ end] => destruct v
         end; reflexivity.
Qed.

Lemma scan_item_returns c st st0 :
  is_returns (scan_item c st) = is_returns (scan_item c st0).
Proof. destruct c; reflexivity. Qed.

Lemma scan_content_types items st st' :
  scan_content items st = Returns st' -> eventTypes st' = eventTypes st.
Proof.
  revert st. induction items as [|c items IH]; intros st; cbn [scan_content].
  - intros H. now inversion H.
  - destruct (scan_item c st) as [st1|e] eqn:E; cbn [bind]; [|discriminate].
    intros H. apply IH in H. rewrite H. eapply scan_item_types; eauto.
Qed.

Lemma scan_content_returns items st st0 :
  is_returns (scan_content items st) = is_returns (scan_content items st0).
Proof.
  revert st st0. induction items as [|c items IH]; intros st st0; cbn [scan_content].
  - reflexivity.
  - pose proof (scan_item_returns c st st0) as Hc.
    destruct (scan_item c st), (scan_item c st0); cbn [bind]; try discriminate; auto.
Qed.

Lemma scan_message_types obj st st' :
  scan_message obj st = Returns st' -> eventTypes st' = eventTypes st.
Proof.
  unfold scan_message.
  destruct (dict_get_default obj "message" (PDict [])) as [| | | | | |msg]; try discriminate.
  destruct (if truthy _ then _ else _) as [items|e]; cbn [bind]; [|discriminate].
  apply scan_content_types.
Qed.

Lemma scan_message_returns obj st st0 :
  is_returns (scan_message obj st) = is_returns (scan_message obj st0).
Proof.
  unfold scan_message.
  destruct (dict_get_default obj "message" (PDict [])) as [| | | | | |msg]; try reflexivity.
  destruct (if truthy _ then _ else _) as [items|e]; cbn [bind]; [|reflexivity].
  apply scan_content_returns.
Qed.

Lemma add_event_type_types t st : eventTypes (add_event_type t st) = eventTypes st ++ [t].
Proof. reflexivity. Qed.

Section ReplySse.

Variable json_loads : string -> option pyval.

Local Abbreviation loop := (sse_loop json_loads).

(** One iteration, by what the line carries. *)
Lemma sse_loop_step raw rest fin st :
  loop (raw :: rest) fin st =
  match line_value json_loads raw with
  | None => loop rest fin st
  | Some (PDict obj) =>
      match event_type obj with
      | Some t =>
          bind (if String.eqb t "Message" then scan_message obj (add_event_type t st)
                else Returns (add_event_type t st))
            (fun st2 =>
               if String.eqb t "Error"
               then Returns (set_error (dict_get_default obj "error" PNone) st2)
               else if String.eqb t "Finish"
               then Returns (set_finish_reason (dict_get_default obj "reason" PNone) st2)
               else loop rest fin st2)
      | None => loop rest fin st
      end
  | Some other => Raised (no_attribute_get other)
  end.
Proof.
  cbn [sse_loop]. unfold line_value, data_payload, event_type, as_str.
  destruct (startswith (strip raw) "data:"); cbn [negb]; [|reflexivity].
  destruct (String.eqb (strip (slice_from 5 (strip raw))) ""); [reflexivity|].
  destruct (json_loads (strip (slice_from 5 (strip raw)))) as [[| | | | | |obj]|]; try reflexivity.
  destruct (dict_get obj "type") as [[| | | |t| |]|]; reflexivity.
Qed.

Lemma plainly_skipped_no_value raw :
  plainly_skipped json_loads raw -> line_value json_loads raw = None.
Proof.
  unfold line_value, data_payload.
  intros [raw0 H|raw0 H|raw0 H1 H2|raw0 payload H1 H2].
  - rewrite H. reflexivity.
  - now rewrite H.
  - rewrite H1, H2. reflexivity.
  - unfold data_payload in H1. rewrite H1, H2. reflexivity.
Qed.

(** A line that carries no JSON value can be left out. *)
Lemma sse_loop_skip pre raw post fin st :
  line_value json_loads raw = None ->
  loop (pre ++ raw :: post) fin st = loop (pre ++ post) fin st.
Proof.
  intros Hraw. revert st. induction pre as [|r pre IH]; intros st.
  - cbn [app]. now rewrite sse_loop_step, Hraw.
  - cbn [app]. rewrite !sse_loop_step.
    destruct (line_value json_loads r) as [[| | | | | |obj]|]; try reflexivity; [|apply IH].
    destruct (event_type obj) as [t|]; [|apply IH].
    destruct (if String.eqb t "Message" then _ else _) as [st2|e]; cbn [bind]; [|reflexivity].
    destruct (String.eqb t "Error"); [reflexivity|].
    destruct (String.eqb t "Finish"); [reflexivity | apply IH].
Qed.

Lemma terminal_type_cases t :
  is_terminal_type t = String.eqb t "Error" || String.eqb t "Finish".
Proof. unfold is_terminal_type. apply orb_comm. Qed.

(** When every decoded payload is well shaped, the loop returns, and the
    types it collects are those of the typed objects of the lines up to
    the first terminal one. *)
Lemma sse_loop_types lines fin st :
  (forall raw v, In raw lines -> line_value json_loads raw = Some v -> well_shaped v = true) ->
  existsb is_terminal_type (types_of (events_of json_loads lines)) = true \/ fin = Eof ->
  exists r, loop lines fin st = Returns r /\
    eventTypes r = eventTypes st
                   ++ upto_first is_terminal_type (types_of (events_of json_loads lines)).
Proof.
  revert st. induction lines as [|raw lines IH]; intros st Hok Hend.
  - destruct Hend as [H| ->]; [discriminate|]. exists st. cbn. now rewrite app_nil_r.
  - assert (Hok' : forall raw0 v, In raw0 lines ->
              line_value json_loads raw0 = Some v -> well_shaped v = true).
    { intros raw0 v Hin. apply Hok. now right. }
    specialize (Hok raw). rewrite sse_loop_step.
    unfold events_of, types_of, line_event in *. cbn [flat_map] in *.
    destruct (line_value json_loads raw) as [v|]; [|now apply IH].
    specialize (Hok v (or_introl eq_refl) eq_refl).
    destruct v as [| | | | | |obj]; try discriminate Hok.
    cbn [option_list app flat_map] in *.
    unfold event_type in *. destruct (dict_get obj "type") as [[| | | |t| |]|] eqn:Et;
      cbn [as_str option_list app] in *; try (now apply IH).
    cbn [well_shaped] in Hok. rewrite Et in Hok. cbn [is_str] in Hok.
    cbn [upto_first existsb] in *. rewrite terminal_type_cases in *.
    destruct (String.eqb t "Message") eqn:Em.
    + apply String.eqb_eq in Em. subst t. cbn [String.eqb Ascii.eqb Bool.eqb orb] in *.
      destruct (scan_message obj (add_event_type "Message" st)) as [st2|e] eqn:Es;
        [|rewrite (scan_message_returns obj sse_start (add_event_type "Message" st)), Es in Hok;
          discriminate].
      cbn [bind]. apply scan_message_types in Es. rewrite add_event_type_types in Es.
      destruct (IH st2 Hok' Hend) as (r & Hr & Htypes). exists r. split; [exact Hr|].
      now rewrite Htypes, Es, <- app_assoc.
    + cbn [bind]. destruct (String.eqb t "Error"); cbn [orb] in *.
      * eexists. split; [reflexivity|]. reflexivity.
      * destruct (String.eqb t "Finish"); cbn [orb] in *.
        -- eexists. split; [reflexivity|]. reflexivity.
        -- destruct (IH (add_event_type t st) Hok' Hend) as (r & Hr & Htypes).
           exists r. split; [exact Hr|]. now rewrite Htypes, add_event_type_types, <- app_assoc.
Qed.

(** The types returned hold at most one terminal type, the last one. *)
Lemma sse_loop_shape lines fin st r :
  Forall (fun t => is_terminal_type t = false) (eventTypes st) ->
  loop lines fin st = Returns r -> stop_shape is_terminal_type (eventTypes r).
Proof.
  revert st. induction lines as [|raw lines IH]; intros st Hst H.
  - destruct fin; cbn in H; [|discriminate]. inversion H; subst.
    now apply stop_shape_plain.
  - rewrite sse_loop_step in H.
    destruct (line_value json_loads raw) as [[| | | | | |obj]|]; try discriminate;
      [|now apply (IH st)].
    destruct (event_type obj) as [t|]; [|now apply (IH st)].
    assert (Hsnoc : forall st2, eventTypes st2 = eventTypes st ++ [t] ->
              (if String.eqb t "Error"
               then Returns (set_error (dict_get_default obj "error" PNone) st2)
               else if String.eqb t "Finish"
               then Returns (set_finish_reason (dict_get_default obj "reason" PNone) st2)
               else loop lines fin st2) = Returns r ->
              stop_shape is_terminal_type (eventTypes r)).
    { intros st2 E2 H2. pose proof (terminal_type_cases t) as Ht.
      destruct (String.eqb t "Error").
      - inversion H2; subst. cbn [eventTypes set_error]. rewrite E2.
        now apply stop_shape_snoc.
      - destruct (String.eqb t "Finish").
        + inversion H2; subst. cbn [eventTypes set_finish_reason]. rewrite E2.
          now apply stop_shape_snoc.
        + apply (IH st2); [|exact H2]. rewrite E2. apply Forall_app.
          split; [exact Hst|]. now constructor. }
    destruct (String.eqb t "Message").
    + destruct (scan_message obj (add_event_type t st)) as [st2|e] eqn:Es;
        cbn [bind] in H; [|discriminate].
      apply scan_message_types in Es. now apply (Hsnoc st2).
    + cbn [bind] in H. now apply (Hsnoc (add_event_type t st)).
Qed.

End ReplySse.

(** ** The claims on the event stream *)


Lemma in_time_iff started timeout_sec now :
  timed_out started timeout_sec now = false <-> (now - started <= inject_Z timeout_sec)%Q.
Proof.
  unfold timed_out. rewrite negb_false_iff. apply Qle_bool_iff.
Qed.

Lemma upto_first_stop {A : Type} (stop : A -> bool) (before after : list A) (x : A) :
  Forall (fun y => stop y = false) before -> stop x = true ->
  upto_first stop (before ++ x :: after) = before ++ [x].
Proof.
  intros Hb Hx. induction Hb as [|y before Hy Hb IH]; simpl.
  - now rewrite Hx.
  - now rewrite Hy, IH.
Qed.

Lemma existsb_stop {A : Type} (stop : A -> bool) (before after : list A) (x : A) :
  stop x = true -> existsb stop (before ++ x :: after) = true.
Proof.
  intros Hx. apply existsb_exists. exists x. split; [|exact Hx].
  apply in_or_app. right. now left.
Qed.

Lemma types_of_app l1 l2 : types_of (l1 ++ l2) = types_of l1 ++ types_of l2.
Proof. unfold types_of. apply flat_map_app. Qed.

Lemma terminal_event_type e :
  is_terminal e = true -> exists t, event_type e = Some t /\ is_terminal_type t = true.
Proof.
  unfold is_terminal, event_type, is_terminal_type, is_str, as_str.
  destruct (dict_get e "type") as [[| | | |t| |]|]; try discriminate.
  intros H. now exists t.
Qed.

Lemma plain_event_types before :
  Forall (fun e => is_terminal e = false) before ->
  Forall (fun t => is_terminal_type t = false) (types_of before).
Proof.
  intros H. induction H as [|e before He Hb IH]; [constructor|].
  change (e :: before) with ([e] ++ before). rewrite types_of_app.
  apply Forall_app. split; [|exact IH].
  unfold types_of. cbn [flat_map]. rewrite app_nil_r.
  unfold is_terminal, event_type, is_terminal_type, is_str, as_str in *.
  destruct (dict_get e "type") as [[| | | |t| |]|]; cbn [option_list]; auto.
Qed.

(** C1, as the readers have it.  [stream_reply] raises no exception of its
    own.  Given the objects carried by the data lines of a reply, it returns
    them up to and including the first one of type "Finish" or "Error",
    provided no line is read after the deadline; a line that is empty, lacks the marker, has an empty payload,
    holds malformed JSON or holds JSON that is no object can be left out of
    the reply without changing what [stream_reply] does.  [reply_sse] returns
    as [eventTypes] the string types of the objects up to and including the
    first one of type "Finish" or "Error", provided every decoded payload is
    well shaped; a line of the first four kinds can be left out of the reply
    without changing what [reply_sse] does. *)
Theorem decoder_events (json_loads : string -> option pyval) :
  (forall started timeout_sec chunks,
      exists evs, stream_reply json_loads started timeout_sec (chunks, Eof) = Returns evs) /\
  (forall started timeout_sec chunks fin before e after,
      Forall (fun c => (fst c - started <= inject_Z timeout_sec)%Q) chunks ->
      events_of json_loads (List.map snd chunks) = before ++ e :: after ->
      Forall (fun x => is_terminal x = false) before ->
      is_terminal e = true ->
      stream_reply json_loads started timeout_sec (chunks, fin) = Returns (before ++ [e])) /\
  (forall started timeout_sec pre now raw post fin,
      (now - started <= inject_Z timeout_sec)%Q ->
      skipped json_loads raw ->
      stream_reply json_loads started timeout_sec (pre ++ (now, raw) :: post, fin)
      = stream_reply json_loads started timeout_sec (pre ++ post, fin)) /\
  (forall lines fin before e after,
      (forall raw v, In raw lines -> line_value json_loads raw = Some v ->
                     well_shaped v = true) ->
      events_of json_loads lines = before ++ e :: after ->
      Forall (fun x => is_terminal x = false) before ->
      is_terminal e = true ->
      exists r, reply_sse json_loads (lines, fin) = Returns r /\
                eventTypes r = types_of (before ++ [e])) /\
  (forall pre raw post fin,
      plainly_skipped json_loads raw ->
      reply_sse json_loads (pre ++ raw :: post, fin) = reply_sse json_loads (pre ++ post, fin)).
Proof.
  split; [|split; [|split; [|split]]].
  - intros started timeout_sec chunks. apply stream_loop_returns.
  - intros started timeout_sec chunks fin before e after Hlate Hev Hb He.
    unfold stream_reply. cbn [fst snd]. rewrite stream_loop_events.
    + rewrite Hev. cbn [app]. now rewrite upto_first_stop.
    + eapply Forall_impl; [|exact Hlate]. intros c Hc. now apply in_time_iff.
    + left. rewrite Hev. now apply existsb_stop.
  - intros started timeout_sec pre now raw post fin Hnow Hraw.
    unfold stream_reply. cbn [fst snd]. apply stream_loop_skip.
    + now apply in_time_iff.
    + now apply skipped_no_event.
  - intros lines fin before e after Hok Hev Hb He.
    destruct (terminal_event_type e He) as (t & Ht & Hterm).
    assert (Htypes : types_of (before ++ e :: after)
                     = types_of before ++ t :: types_of after).
    { change (e :: after) with ([e] ++ after). rewrite !types_of_app.
      unfold types_of at 2. cbn [flat_map]. now rewrite Ht. }
    destruct (sse_loop_types json_loads lines fin sse_start Hok) as (r & Hr & Hty).
    + left. rewrite Hev, Htypes. now apply existsb_stop.
    + exists r. split; [exact Hr|]. rewrite Hty, Hev, Htypes. cbn [eventTypes sse_start app].
      rewrite upto_first_stop; [|now apply plain_event_types | exact Hterm].
      rewrite types_of_app. unfold types_of at 3. cbn [flat_map]. now rewrite Ht.
  - intros pre raw post fin Hraw. unfold reply_sse. cbn [fst snd].
    apply sse_loop_skip. now apply plainly_skipped_no_value.
Qed.

Ltac in_time := apply in_time_iff; vm_compute; reflexivity.

Lemma decoder_events_witness :
  stream_reply sample_loads 0%Q 240 (noisy_response, Eof)
    = Returns [ping_event; finish_event] /\
  stream_reply sample_loads 0%Q 240
      ([(1 # 1, ping_line); (2 # 1, number_line); (3 # 1, finish_line)]%Q, Eof)
    = stream_reply sample_loads 0%Q 240 ([(1 # 1, ping_line); (3 # 1, finish_line)]%Q, Eof) /\
  (exists r, reply_sse sample_loads ([ping_line; message_line; finish_line; ping_line], Eof)
             = Returns r /\ eventTypes r = ["Ping"; "Message"; "Finish"]) /\
  reply_sse sample_loads ([ping_line; "data: {not json"; finish_line], Eof)
    = reply_sse sample_loads ([ping_line; finish_line], Eof).
Proof.
  destruct (decoder_events sample_loads) as (_ & H1 & H2 & H3 & H4).
  split; [|split; [|split]].
  - apply (H1 0%Q 240%Z noisy_response Eof [ping_event] finish_event [ping_event]).
    + repeat constructor; in_time.
    + vm_compute. reflexivity.
    + repeat constructor.
    + reflexivity.
  - apply (H2 0%Q 240%Z [(1 # 1, ping_line)]%Q (2 # 1)%Q number_line
               [(3 # 1, finish_line)]%Q Eof).
    + in_time.
    + apply (skip_not_object sample_loads number_line "42" (PInt 42)).
      * vm_compute. reflexivity.
      * vm_compute. reflexivity.
      * discriminate.
  - apply (H3 [ping_line; message_line; finish_line; ping_line] Eof
               [ping_event; message_event] finish_event [ping_event]).
    + intros raw v [<-|[<-|[<-|[<-|[]]]]] H; vm_compute in H; inversion H; subst; reflexivity.
    + vm_compute. reflexivity.
    + repeat constructor.
    + reflexivity.
  - apply (H4 [ping_line] "data: {not json" [finish_line] Eof).
    apply (skip_malformed sample_loads _ "{not json"); vm_compute; reflexivity.
Defined.

(** C1 as stated fails.  An "Error" event ends the reply before the
    "Finish" event; so does a line read after the deadline; and [reply_sse]
    records no entry for an object without a string type. *)
Lemma decoder_events_counterexample :
  (events_of sample_loads (List.map snd error_response) = [error_event; finish_event] /\
   stream_reply sample_loads 0%Q 240 (error_response, Eof) = Returns [error_event]) /\
  (events_of sample_loads (List.map snd late_response) = [ping_event; finish_event] /\
   stream_reply sample_loads 0%Q 300 (late_response, Eof) = Returns [ping_event]) /\
  (events_of sample_loads [untyped_line; finish_line] = [untyped_event; finish_event] /\
   exists r, reply_sse sample_loads ([untyped_line; finish_line], Eof) = Returns r /\
             eventTypes r = ["Finish"]).
Proof.
  repeat split; try (vm_compute; reflexivity).
  eexists. split; vm_compute; reflexivity.
Qed.

(** [reply_sse] calls [get] on whatever [json.loads] returns: a data line
    with JSON that is no object ends the call with an [AttributeError]. *)
Lemma reply_sse_non_object_raises :
  reply_sse sample_loads ([ping_line; number_line; finish_line], Eof)
  = Raised {| exn_kind := "AttributeError";
              exn_message := "'int' object has no attribute 'get'" |}.
Proof. vm_compute. reflexivity. Qed.




(** C10. The events [stream_reply] returns, and the event types
    [reply_sse] returns, hold at most one terminal element ("Finish" or
    "Error"), and nothing follows a terminal element. *)
Theorem terminal_event_last (json_loads : string -> option pyval)
    (started : Q) (timeout_sec : Z) (resp : list (Q * string) * stream_end)
    (sse_resp : list string * stream_end) :
  (forall evs,
      stream_reply json_loads started timeout_sec resp = Returns evs ->
      List.length (List.filter is_terminal evs) <= 1 /\ stops_last is_terminal evs) /\
  (forall r,
      reply_sse json_loads sse_resp = Returns r ->
      List.length (List.filter is_terminal_type (eventTypes r)) <= 1 /\
      stops_last is_terminal_type (eventTypes r)).
Proof.
  split.
  - intros evs H. apply stream_loop_shape in H; [|constructor].
    split; [now apply stop_shape_count | now apply stop_shape_last].
  - intros r H. apply sse_loop_shape in H; [|constructor].
    split; [now apply stop_shape_count | now apply stop_shape_last].
Qed.

Lemma terminal_event_last_witness :
  (List.length (List.filter is_terminal [ping_event; finish_event]) <= 1 /\
   stops_last is_terminal [ping_event; finish_event]) /\
  (List.length (List.filter is_terminal_type ["Ping"; "Message"; "Error"]) <= 1 /\
   stops_last is_terminal_type ["Ping"; "Message"; "Error"]).
Proof.
  destruct (terminal_event_last sample_loads 0%Q 240%Z (noisy_response, Eof)
              ([ping_line; message_line; error_line; finish_line], Eof)) as [H1 H2].
  split.
  - apply (H1 [ping_event; finish_event]). vm_compute. reflexivity.
  - apply (H2 {| eventTypes := ["Ping"; "Message"; "Error"]; assistantText := ["hello"];
                 cfpmSystemNotifications := []; toolRequestCount := 0;
                 error := PStr "boom"; finishReason := PNone |}).
    vm_compute. reflexivity.
Defined.

(** ** The order on keys and the cross-validation *)

Lemma string_lt_trans (x y z : string) :
  String.compare x y = Lt -> String.compare y z = Lt -> String.compare x z = Lt.
Proof.
  intros H1 H2. apply String_as_OT.cmp_lt. apply String_as_OT.cmp_lt in H1, H2.
  eapply String_as_OT.lt_trans; eauto.
Qed.

Lemma string_compare_refl (x : string) : String.compare x x = Eq.
Proof.
  pose proof (String.compare_antisym x x) as H.
  destruct (String.compare x x); [reflexivity | discriminate | discriminate].
Qed.

Lemma string_compare_eq (x y : string) : String.compare x y = Eq <-> x = y.
Proof.
  split; [apply String.compare_eq_iff | intros ->; apply string_compare_refl].
Qed.

Lemma then_compare_eq (x y : string) (n : comparison) :
  then_compare (String.compare x y) n = Eq <-> x = y /\ n = Eq.
Proof.
  destruct (String.compare x y) eqn:E; cbn.
  - apply string_compare_eq in E. tauto.
  - split; [discriminate|]. intros [-> _]. rewrite string_compare_refl in E. discriminate.
  - split; [discriminate|]. intros [-> _]. rewrite string_compare_refl in E. discriminate.
Qed.

Lemma then_compare_antisym (x y : string) (n m : comparison) :
  n = CompOpp m ->
  then_compare (String.compare x y) n = CompOpp (then_compare (String.compare y x) m).
Proof.
  intros ->. rewrite (String.compare_antisym y x).
  destruct (String.compare x y); reflexivity.
Qed.

Lemma then_compare_lt_trans (x y z : string) (n1 n2 n3 : comparison) :
  (n1 = Lt -> n2 = Lt -> n3 = Lt) ->
  then_compare (String.compare x y) n1 = Lt ->
  then_compare (String.compare y z) n2 = Lt ->
  then_compare (String.compare x z) n3 = Lt.
Proof.
  intros Hn. destruct (String.compare x y) eqn:E1; cbn; try discriminate.
  - apply String.compare_eq_iff in E1. subst y.
    destruct (String.compare x z); cbn; auto.
  - intros _. destruct (String.compare y z) eqn:E2; cbn; try discriminate.
    + apply String.compare_eq_iff in E2. subst z. now rewrite E1.
    + intros _. now rewrite (string_lt_trans x y z).
Qed.

Lemma key_compare_eq (a b : key) : key_compare a b = Eq <-> a = b.
Proof.
  destruct a as [[[a1 a2] a3] a4], b as [[[b1 b2] b3] b4]. unfold key_compare.
  rewrite !then_compare_eq, string_compare_eq. split.
  - intros (-> & -> & -> & ->). reflexivity.
  - intros H. inversion H. auto.
Qed.

Lemma key_compare_antisym (a b : key) : key_compare a b = CompOpp (key_compare b a).
Proof.
  destruct a as [[[a1 a2] a3] a4], b as [[[b1 b2] b3] b4]. unfold key_compare.
  repeat apply then_compare_antisym. apply String.compare_antisym.
Qed.

Lemma key_lt_trans (a b c : key) : key_lt a b -> key_lt b c -> key_lt a c.
Proof.
  destruct a as [[[a1 a2] a3] a4], b as [[[b1 b2] b3] b4], c as [[[c1 c2] c3] c4].
  unfold key_lt, key_compare.
  repeat apply then_compare_lt_trans. apply string_lt_trans.
Qed.

Lemma key_le_cases (a b : key) : key_le a b <-> key_lt a b \/ a = b.
Proof.
  unfold key_le, key_lt. rewrite <- key_compare_eq. destruct (key_compare a b).
  - split; [intros _; right; reflexivity | intros _; discriminate].
  - split; [intros _; left; reflexivity | intros _; discriminate].
  - split; [intros H; now contradiction H | intros [H|H]; discriminate].
Qed.

#[local] Instance key_le_total : Total key_le.
Proof.
  intros a b. unfold key_le. rewrite (key_compare_antisym b a).
  destruct (key_compare a b); cbn; [left|left|right]; congruence.
Qed.

#[local] Instance key_le_trans : Transitive key_le.
Proof.
  intros a b c Hab Hbc. apply key_le_cases in Hab, Hbc. apply key_le_cases.
  destruct Hab as [Hab| ->]; [|exact Hbc].
  destruct Hbc as [Hbc| ->]; [|now left].
  left. eapply key_lt_trans; eauto.
Qed.

Lemma strongly_sorted_strict (l : list key) :
  StronglySorted key_le l -> List.NoDup l -> StronglySorted key_lt l.
Proof.
  induction 1 as [|x l Hl IH Hx]; intros Hnd; constructor.
  - apply IH. now inversion Hnd.
  - rewrite Forall_forall in *. intros y Hy. specialize (Hx y Hy).
    apply key_le_cases in Hx. destruct Hx as [Hx| ->]; [exact Hx|].
    inversion Hnd; subst. contradiction.
Qed.

Lemma py_sorted_perm (s : gset key) : Permutation (py_sorted s) (elements s).
Proof. unfold py_sorted. apply merge_sort_Permutation. Qed.

Lemma py_sorted_sorted (s : gset key) : StronglySorted key_lt (py_sorted s).
Proof.
  apply strongly_sorted_strict.
  - unfold py_sorted. apply StronglySorted_merge_sort; typeclasses eauto.
  - eapply Permutation_NoDup; [symmetry; apply py_sorted_perm|].
    apply NoDup_ListNoDup, NoDup_elements.
Qed.

Lemma py_sorted_length (s : gset key) : List.length (py_sorted s) = size s.
Proof. rewrite (Permutation_length (py_sorted_perm s)). reflexivity. Qed.

Lemma In_py_sorted (s : gset key) (k : key) : In k (py_sorted s) <-> k ∈ s.
Proof.
  rewrite <- elem_of_elements, <- list_elem_of_In. split; intros H.
  - eapply elem_of_Permutation_proper; [symmetry; apply py_sorted_perm | exact H].
  - eapply elem_of_Permutation_proper; [apply py_sorted_perm | exact H].
Qed.

Lemma first_20_sorted (s : gset key) : sorted_first_20 (firstn 20 (py_sorted s)) s.
Proof.
  exists (skipn 20 (py_sorted s)). rewrite firstn_skipn. split; [apply py_sorted_perm|].
  split; [apply py_sorted_sorted|]. rewrite length_firstn, py_sorted_length. reflexivity.
Qed.

Lemma In_first_20 (s : gset key) (k : key) : In k (firstn 20 (py_sorted s)) -> k ∈ s.
Proof.
  intros H. apply In_py_sorted. rewrite <- (firstn_skipn 20 (py_sorted s)).
  apply in_or_app. now left.
Qed.

Lemma elem_of_key_set (facts : list dict) (k : key) :
  k ∈ key_set facts <-> exists f, In f facts /\ fact_key f = k.
Proof.
  unfold key_set. rewrite elem_of_list_to_set, list_elem_of_In, in_map_iff.
  split; intros (f & H1 & H2); exists f; auto.
Qed.

(** C6. The lists [apiOnly] and [dbOnly] of the cross-validation share no
    key; each is the first 20 keys, in increasing lexicographic order and
    without repetition, of the difference of the two key sets; and the two
    differences together with the intersection give back the set of all
    keys of both sources. *)
Theorem api_db_fact_delta_spec (facts_api db_facts : list dict) :
  let A := key_set facts_api in
  let B := key_set db_facts in
  let d := api_db_fact_delta facts_api db_facts in
  (forall k, In k (apiOnly d) -> ~ In k (dbOnly d)) /\
  sorted_first_20 (apiOnly d) (A ∖ B) /\
  sorted_first_20 (dbOnly d) (B ∖ A) /\
  (A ∖ B) ∩ (B ∖ A) = ∅ /\
  (A ∖ B) ∪ (B ∖ A) ∪ (A ∩ B) = A ∪ B /\
  (forall k, k ∈ A ∪ B <-> exists f, In f (facts_api ++ db_facts) /\ fact_key f = k).
Proof.
  intros A B d. subst d. unfold api_db_fact_delta. cbn [apiOnly dbOnly]. fold A B.
  split; [|split; [|split; [|split; [|split]]]].
  - intros k H1 H2. apply In_first_20 in H1, H2.
    apply elem_of_difference in H1, H2. tauto.
  - apply first_20_sorted.
  - apply first_20_sorted.
  - apply set_eq. intros k.
    rewrite elem_of_intersection, !elem_of_difference, elem_of_empty. tauto.
  - apply set_eq. intros k.
    rewrite !elem_of_union, !elem_of_difference, elem_of_intersection.
    destruct (decide (k ∈ A)), (decide (k ∈ B)); tauto.
  - intros k. rewrite elem_of_union. subst A B. rewrite !elem_of_key_set. split.
    + intros [(f & Hf & E)|(f & Hf & E)]; exists f; split; auto; apply in_or_app; auto.
    + intros (f & Hf & E). apply in_app_or in Hf. destruct Hf; [left|right]; eauto.
Qed.

(** ** The report of a run *)

Lemma dict_get_set_eq (d : dict) (k : string) (v : pyval) :
  dict_get (dict_set d k v) k = Some v.
Proof.
  induction d as [|[k' v'] d IH]; cbn.
  - now rewrite String.eqb_refl.
  - destruct (String.eqb k' k) eqn:E; cbn; now rewrite E.
Qed.

Lemma dict_get_set_ne (d : dict) (k k' : string) (v : pyval) :
  k <> k' -> dict_get (dict_set d k v) k' = dict_get d k'.
Proof.
  intros Hne. induction d as [|[k0 v0] d IH]; cbn.
  - apply String.eqb_neq in Hne. now rewrite Hne.
  - destruct (String.eqb k0 k) eqn:E; cbn.
    + apply String.eqb_eq in E. subst k0. apply String.eqb_neq in Hne. now rewrite Hne.
    + destruct (String.eqb k0 k'); [reflexivity | exact IH].
Qed.

Lemma keeps_ret {A : Type} (k : string) (a : A) : keeps k (mret a).
Proof. intros s. reflexivity. Qed.

Lemma keeps_call {A : Type} (k : string) (o : outcome A) : keeps k (call o).
Proof. intros s. reflexivity. Qed.

Lemma keeps_raise {A : Type} (k : string) (e : exn) : keeps k (@raise A e).
Proof. intros s. reflexivity. Qed.

Lemma keeps_server_is_up (k : string) : keeps k server_is_up.
Proof. intros s. reflexivity. Qed.

Lemma keeps_set_key (k k' : string) (v : pyval) : k' <> k -> keeps k (set_key k' v).
Proof. intros Hne s. cbn. now apply dict_get_set_ne. Qed.

Lemma keeps_append_step (k name : string) : "steps" <> k -> keeps k (append_step name).
Proof. intros Hne s. cbn. now apply dict_get_set_ne. Qed.

Lemma keeps_bind {A B : Type} (k : string) (m : M A) (f : A -> M B) :
  keeps k m -> (forall a, keeps k (f a)) -> keeps k (mbind m f).
Proof.
  intros Hm Hf s. unfold mbind. specialize (Hm s).
  destruct (m s) as [s' [a|e]]; cbn in *.
  - now rewrite Hf.
  - exact Hm.
Qed.

Lemma api_before_storage_keeps (k : string) a h sv :
  ~ In k ["steps"; "provider"; "model"; "sessionId"; "turn1"; "turn2"; "apiSnapshot"; "quality"] ->
  keeps k (ApiEval.before_storage a h sv).
Proof.
  intros Hk.
  assert (Hne : forall k', In k' ["steps"; "provider"; "model"; "sessionId"; "turn1"; "turn2";
                                   "apiSnapshot"; "quality"] -> k' <> k).
  { intros k' Hin ->. contradiction. }
  unfold ApiEval.before_storage, ApiEval.start_phase, ApiEval.evaluation_steps, ApiEval.turn.
  repeat first
    [ apply keeps_ret | apply keeps_call | apply keeps_raise | apply keeps_server_is_up
    | apply keeps_set_key; apply Hne; cbn; tauto
    | apply keeps_append_step; apply Hne; cbn; tauto
    | apply keeps_bind; [|intros]
    | progress cbv zeta
    | match goal with
      | |- keeps _ (if ?b then _ else _) => destruct b
      end ].
Qed.

Lemma resume_before_storage_keeps (k : string) a h sv :
  ~ In k ["server"; "resumed"; "reply"; "api"] ->
  keeps k (ResumeEval.before_storage a h sv).
Proof.
  intros Hk.
  assert (Hne : forall k', In k' ["server"; "resumed"; "reply"; "api"] -> k' <> k).
  { intros k' Hin ->. contradiction. }
  unfold ResumeEval.before_storage, ResumeEval.start_phase, ResumeEval.evaluation_steps.
  repeat first
    [ apply keeps_ret | apply keeps_call | apply keeps_raise | apply keeps_server_is_up
    | apply keeps_set_key; apply Hne; cbn; tauto
    | apply keeps_bind; [|intros]
    | progress cbv zeta
    | match goal with
      | |- keeps _ (if ?b then _ else _) => destruct b
      end ].
Qed.

Lemma api_storage_step_keeps (k : string) a h sv sid facts :
  ~ In k ["dbPath"; "dbSnapshot"; "apiDbFactDelta"] ->
  keeps k (ApiEval.storage_step a h sv sid facts).
Proof.
  intros Hk.
  assert (Hne : forall k', In k' ["dbPath"; "dbSnapshot"; "apiDbFactDelta"] -> k' <> k).
  { intros k' Hin ->. contradiction. }
  unfold ApiEval.storage_step.
  repeat first
    [ apply keeps_ret | apply keeps_call
    | apply keeps_set_key; apply Hne; cbn; tauto
    | apply keeps_bind; [|intros]
    | progress cbv zeta
    | match goal with
      | |- keeps _ (if ?b then _ else _) => destruct b
      | |- keeps _ (match ?x with Some _ => _ | None => _ end) => destruct x
      end ].
Qed.

Lemma resume_storage_step_keeps (k : string) a h sv :
  ~ In k ["dbPath"; "db"] ->
  keeps k (ResumeEval.storage_step a h sv).
Proof.
  intros Hk.
  assert (Hne : forall k', In k' ["dbPath"; "db"] -> k' <> k).
  { intros k' Hin ->. contradiction. }
  unfold ResumeEval.storage_step.
  repeat first
    [ apply keeps_ret | apply keeps_call
    | apply keeps_set_key; apply Hne; cbn; tauto
    | apply keeps_bind; [|intros]
    | progress cbv zeta
    | match goal with
      | |- keeps _ (match ?x with Some _ => _ | None => _ end) => destruct x
      end ].
Qed.

Lemma status_of_success (rep : dict) (b : bool) :
  dict_get rep "success" = Some (PBool b) -> status_of rep = if b then 0%Z else 1%Z.
Proof. intros H. unfold status_of, dict_get_default. rewrite H. reflexivity. Qed.

Lemma api_try_block_keeps (k : string) a h sv :
  ~ In k ["steps"; "provider"; "model"; "sessionId"; "turn1"; "turn2"; "apiSnapshot";
          "quality"; "dbPath"; "dbSnapshot"; "apiDbFactDelta"; "finishedAt"; "success"] ->
  keeps k (ApiEval.try_block a h sv).
Proof.
  intros Hk. unfold ApiEval.try_block.
  apply keeps_bind; [apply api_before_storage_keeps; cbn in *; tauto | intros got].
  apply keeps_bind; [apply api_storage_step_keeps; cbn in *; tauto | intros _].
  apply keeps_bind; [|intros _]; apply keeps_set_key; intros E; subst k; cbn in Hk; tauto.
Qed.

Lemma resume_try_block_keeps (k : string) a h sv :
  ~ In k ["server"; "resumed"; "reply"; "api"; "dbPath"; "db"; "success"] ->
  keeps k (ResumeEval.try_block a h sv).
Proof.
  intros Hk. unfold ResumeEval.try_block.
  apply keeps_bind; [apply resume_before_storage_keeps; cbn in *; tauto | intros _].
  apply keeps_bind; [apply resume_storage_step_keeps; cbn in *; tauto | intros _].
  apply keeps_set_key; intros E; subst k; cbn in Hk; tauto.
Qed.

Lemma api_try_block_success a h sv s u :
  snd (ApiEval.try_block a h sv s) = Returns u ->
  dict_get (report (fst (ApiEval.try_block a h sv s))) "success" = Some (PBool true).
Proof.
  unfold ApiEval.try_block, mbind.
  destruct (ApiEval.before_storage a h sv s) as [s1 [got|e]]; [|discriminate].
  destruct (ApiEval.storage_step a h sv (fst got) (snd got) s1) as [s2 [[]|e]]; [|discriminate].
  cbn. intros _. apply dict_get_set_eq.
Qed.

Lemma resume_try_block_success a h sv s u :
  snd (ResumeEval.try_block a h sv s) = Returns u ->
  dict_get (report (fst (ResumeEval.try_block a h sv s))) "success" = Some (PBool true).
Proof.
  unfold ResumeEval.try_block, mbind.
  destruct (ResumeEval.before_storage a h sv s) as [s1 [[]|e]]; [|discriminate].
  destruct (ResumeEval.storage_step a h sv s1) as [s2 [[]|e]]; [|discriminate].
  cbn. intros _. apply dict_get_set_eq.
Qed.

(** The report of a run of [cfpm_api_eval.py], by how the [try] block ends. *)
Lemma api_main_report a h sv :
  match snd (ApiEval.try_block a h sv (ApiEval.initial a sv)) with
  | Returns _ =>
      dict_get (written (ApiEval.main a h sv)) "success" = Some (PBool true) /\
      dict_get (written (ApiEval.main a h sv)) "error" = None
  | Raised exc =>
      dict_get (written (ApiEval.main a h sv)) "success" = Some (PBool false) /\
      dict_get (written (ApiEval.main a h sv)) "error" = Some (PStr (error_text exc))
  end.
Proof.
  unfold ApiEval.main. cbn [written].
  destruct (snd (ApiEval.try_block a h sv (ApiEval.initial a sv))) as [u|exc] eqn:E.
  - split; [eapply api_try_block_success; eauto|].
    rewrite api_try_block_keeps; [reflexivity|]. cbn. intuition discriminate.
  - unfold ApiEval.on_exception. split.
    + rewrite dict_get_set_ne by discriminate. apply dict_get_set_eq.
    + apply dict_get_set_eq.
Qed.

(** The report of a run of [cfpm_resume_eval.py], by how the [try] block
    ends. *)
Lemma resume_main_report a h sv :
  match snd (ResumeEval.try_block a h sv (ResumeEval.initial a sv)) with
  | Returns _ =>
      dict_get (written (ResumeEval.main a h sv)) "success" = Some (PBool true) /\
      dict_get (written (ResumeEval.main a h sv)) "error" = None
  | Raised exc =>
      dict_get (written (ResumeEval.main a h sv)) "success" = Some (PBool false) /\
      dict_get (written (ResumeEval.main a h sv)) "error" = Some (PStr (error_text exc))
  end.
Proof.
  unfold ResumeEval.main. cbn [written].
  destruct (snd (ResumeEval.try_block a h sv (ResumeEval.initial a sv))) as [u|exc] eqn:E.
  - rewrite !dict_get_set_ne by discriminate.
    split; [eapply resume_try_block_success; eauto|].
    rewrite resume_try_block_keeps; [reflexivity|]. cbn. intuition discriminate.
  - unfold ResumeEval.on_exception. rewrite !(dict_get_set_ne _ "finishedAt") by discriminate.
    split.
    + rewrite dict_get_set_ne by discriminate. apply dict_get_set_eq.
    + apply dict_get_set_eq.
Qed.



(** ** Locating the store *)

Lemma first_existing_some (h : Host) (l : list path) (p : path) :
  first_existing h l = Some p <-> first_that_exists h l p.
Proof.
  unfold first_that_exists. induction l as [|q l IH]; cbn.
  - split; [discriminate|]. intros (before & after & E & _). destruct before; discriminate.
  - destruct (path_exists h q) eqn:Eq.
    + split.
      * intros H. inversion H; subst. exists [], l. auto.
      * intros (before & after & E & Hb & Hp). destruct before as [|b before].
        -- cbn in E. now inversion E.
        -- cbn in E. inversion E; subst. inversion Hb; subst. congruence.
    + rewrite IH. split.
      * intros (before & after & -> & Hb & Hp). exists (q :: before), after. auto.
      * intros (before & after & E & Hb & Hp). destruct before as [|b before].
        -- cbn in E. inversion E; subst. congruence.
        -- cbn in E. inversion E; subst. inversion Hb; subst. now exists before, after.
Qed.

Lemma first_existing_none (h : Host) (l : list path) :
  first_existing h l = None <-> Forall (fun q => path_exists h q = false) l.
Proof.
  induction l as [|q l IH]; cbn.
  - split; auto.
  - destruct (path_exists h q) eqn:Eq.
    + split; [discriminate|]. intros H. inversion H; subst. congruence.
    + rewrite IH. split; [now constructor | intros H; now inversion H].
Qed.

Lemma append_if_list (l : list path) (root : option string) (mk : string -> path) :
  append_if l root mk = l ++ option_list (option_map mk (given root)).
Proof. unfold append_if. destruct (given root); cbn; [reflexivity | now rewrite app_nil_r]. Qed.

Lemma find_sessions_db_candidates (h : Host) (root : option string) :
  find_sessions_db h root = first_existing h (candidates_in_order h root).
Proof.
  unfold find_sessions_db, candidates_in_order. cbv zeta.
  rewrite !append_if_list. cbn [app]. now rewrite <- !app_assoc.
Qed.

Lemma find_db_candidates (h : Host) (root : option string) :
  find_db h root = first_existing h (candidates_without_env_root h root).
Proof.
  unfold find_db, candidates_without_env_root. cbv zeta.
  rewrite !append_if_list. cbn [app]. now rewrite <- !app_assoc.
Qed.

(** C5, as the scripts have it.  [find_sessions_db] of [cfpm_api_eval.py]
    returns the first existing candidate in the order: the root given as
    argument, the root of [PATH_ROOT], the one of [APPDATA], the hardcoded
    file; [find_db] of [cfpm_resume_eval.py] does the same without
    [PATH_ROOT].  When no candidate exists and the steps before the search
    have returned, the run of [cfpm_api_eval.py] records [dbPath] null and
    the warning "sessions.db not found", computes no [apiDbFactDelta] and
    ends with [success] true and exit status 0; the run of
    [cfpm_resume_eval.py] records [dbPath] null, no [db], and ends the same
    way. *)
Theorem store_lookup (h : Host) (sv : Service) :
  (forall root,
      (forall p, find_sessions_db h root = Some p
                 <-> first_that_exists h (candidates_in_order h root) p) /\
      (find_sessions_db h root = None
       <-> Forall (fun q => path_exists h q = false) (candidates_in_order h root)) /\
      (forall p, find_db h root = Some p
                 <-> first_that_exists h (candidates_without_env_root h root) p) /\
      (find_db h root = None
       <-> Forall (fun q => path_exists h q = false) (candidates_without_env_root h root))) /\
  (forall a s got,
      find_sessions_db h (ApiEval.path_root a) = None ->
      ApiEval.before_storage a h sv (ApiEval.initial a sv) = (s, Returns got) ->
      let r := ApiEval.main a h sv in
      dict_get (written r) "dbPath" = Some PNone /\
      dict_get (written r) "dbSnapshot"
      = Some (PDict [("warning", PStr "sessions.db not found")]) /\
      dict_get (written r) "apiDbFactDelta" = None /\
      dict_get (written r) "success" = Some (PBool true) /\
      exit_status r = 0%Z) /\
  (forall a s,
      find_db h (ResumeEval.path_root a) = None ->
      ResumeEval.before_storage a h sv (ResumeEval.initial a sv) = (s, Returns tt) ->
      let r := ResumeEval.main a h sv in
      dict_get (written r) "dbPath" = Some PNone /\
      dict_get (written r) "db" = None /\
      dict_get (written r) "success" = Some (PBool true) /\
      exit_status r = 0%Z).
Proof.
  split; [|split].
  - intros root. rewrite find_sessions_db_candidates, find_db_candidates.
    split; [intros p; apply first_existing_some|].
    split; [apply first_existing_none|].
    split; [intros p; apply first_existing_some | apply first_existing_none].
  - intros a s got Hnone Hbefore r.
    assert (Hdelta : dict_get (report s) "apiDbFactDelta" = None).
    { pose proof (api_before_storage_keeps "apiDbFactDelta" a h sv) as Hk.
      specialize (Hk ltac:(cbn; intuition discriminate) (ApiEval.initial a sv)).
      rewrite Hbefore in Hk. exact Hk. }
    assert (Hr : written r = dict_set (dict_set (dict_set (dict_set (report s)
                   "dbPath" PNone)
                   "dbSnapshot" (PDict [("warning", PStr "sessions.db not found")]))
                   "finishedAt" (PInt (now_ts sv 3)))
                   "success" (PBool true)).
    { subst r. unfold ApiEval.main, ApiEval.try_block, mbind. cbn [written].
      rewrite Hbefore. unfold ApiEval.storage_step, mbind. rewrite Hnone. reflexivity. }
    assert (Hs : dict_get (written r) "success" = Some (PBool true)).
    { rewrite Hr. apply dict_get_set_eq. }
    split; [|split; [|split; [|split]]].
    + rewrite Hr, !(dict_get_set_ne _ _ "dbPath") by discriminate. apply dict_get_set_eq.
    + rewrite Hr, !(dict_get_set_ne _ _ "dbSnapshot") by discriminate. apply dict_get_set_eq.
    + rewrite Hr, !dict_get_set_ne by discriminate. exact Hdelta.
    + exact Hs.
    + change (exit_status r) with (status_of (written r)).
      now rewrite (status_of_success _ _ Hs).
  - intros a s Hnone Hbefore r.
    assert (Hdb : dict_get (report s) "db" = None).
    { pose proof (resume_before_storage_keeps "db" a h sv) as Hk.
      specialize (Hk ltac:(cbn; intuition discriminate) (ResumeEval.initial a sv)).
      rewrite Hbefore in Hk. exact Hk. }
    assert (Hr : written r = dict_set (dict_set (dict_set (report s)
                   "dbPath" PNone)
                   "success" (PBool true))
                   "finishedAt" (PInt (now_ts sv 2))).
    { subst r. unfold ResumeEval.main, ResumeEval.try_block, mbind. cbn [written].
      rewrite Hbefore. unfold ResumeEval.storage_step, mbind. rewrite Hnone. reflexivity. }
    assert (Hs : dict_get (written r) "success" = Some (PBool true)).
    { rewrite Hr, dict_get_set_ne by discriminate. apply dict_get_set_eq. }
    split; [|split; [|split]].
    + rewrite Hr, !(dict_get_set_ne _ _ "dbPath") by discriminate. apply dict_get_set_eq.
    + rewrite Hr, !dict_get_set_ne by discriminate. exact Hdb.
    + exact Hs.
    + change (exit_status r) with (status_of (written r)).
      now rewrite (status_of_success _ _ Hs).
Qed.

Lemma store_lookup_witness :
  find_sessions_db env_root_host None = Some (db_under_root "D:\agime") /\
  (dict_get (written (ApiEval.main api_args bare_host steady_service)) "dbSnapshot"
   = Some (PDict [("warning", PStr "sessions.db not found")]) /\
   exit_status (ApiEval.main api_args bare_host steady_service) = 0%Z) /\
  (dict_get (written (ResumeEval.main resume_args bare_host steady_service)) "dbPath"
   = Some PNone /\
   exit_status (ResumeEval.main resume_args bare_host steady_service) = 0%Z).
Proof.
  split; [|split].
  - destruct (store_lookup env_root_host steady_service) as (Hfind & _ & _).
    destruct (Hfind None) as (Hsome & _).
    apply Hsome. exists [], [hardcoded_db]. repeat split.
    + constructor.
  - destruct (store_lookup bare_host steady_service) as (_ & Hapi & _).
    destruct (ApiEval.before_storage api_args bare_host steady_service
                (ApiEval.initial api_args steady_service)) as [s [got|e]] eqn:E.
    + destruct (Hapi api_args s got) as (_ & Hw & _ & _ & Hx).
      * vm_compute. reflexivity.
      * exact E.
      * split; [exact Hw | exact Hx].
    + vm_compute in E. discriminate E.
  - destruct (store_lookup bare_host steady_service) as (_ & _ & Hres).
    destruct (ResumeEval.before_storage resume_args bare_host steady_service
                (ResumeEval.initial resume_args steady_service)) as [s [[]|e]] eqn:E.
    + destruct (Hres resume_args s) as (Hp & _ & _ & Hx).
      * vm_compute. reflexivity.
      * exact E.
      * split; [exact Hp | exact Hx].
    + vm_compute in E. discriminate E.
Defined.

(** C5 as stated fails for [cfpm_resume_eval.py]: with a store under the
    root of [PATH_ROOT] and nowhere else, [find_sessions_db] finds it and
    [find_db] finds nothing. *)
Lemma find_db_env_root_counterexample :
  environ env_root_host "PATH_ROOT" = Some "D:\agime" /\
  first_that_exists env_root_host (candidates_in_order env_root_host None)
    (db_under_root "D:\agime") /\
  find_sessions_db env_root_host None = Some (db_under_root "D:\agime") /\
  find_db env_root_host None = None.
Proof.
  split; [reflexivity|]. split; [|split; reflexivity].
  exists [], [hardcoded_db]. repeat split. constructor.
Qed.

(** * Further properties *)

(** ** The quality evaluator *)

Lemma filter_sublist {A : Type} (P : A -> bool) (l : list A) :
  sublist (List.filter P l) l.
Proof.
  induction l as [|x l IH]; cbn; [constructor|].
  destruct (P x); now constructor.
Qed.

Lemma issue_if_sublist (b : bool) (code : string) : sublist (issue_if b code) [code].
Proof. destruct b; cbn; repeat constructor. Qed.

(** X1. The issue codes come out in the fixed order of the five checks,
    each at most once. *)
Theorem issues_in_fixed_order (facts cands gates : list dict) (cmds : list string) :
  sublist (issues (evaluate_quality facts cands gates cmds)) issue_codes /\
  List.NoDup (issues (evaluate_quality facts cands gates cmds)).
Proof.
  assert (H : sublist (issues (evaluate_quality facts cands gates cmds)) issue_codes).
  { unfold evaluate_quality, issue_codes. cbn [issues].
    repeat match goal with
           | |- sublist (issue_if ?b ?c ++ _) (?c :: ?rest) =>
               change (c :: rest) with ([c] ++ rest);
               apply sublist_app; [apply issue_if_sublist|]
           end.
    apply issue_if_sublist. }
  split; [exact H|].
  apply NoDup_ListNoDup. refine (sublist_NoDup _ _ _ H).
  apply NoDup_ListNoDup. unfold issue_codes.
  repeat constructor; cbn; intuition discriminate.
Qed.

(** X2. A candidate is in [acceptedDateCandidates] exactly when its
    decision, without regard to case, is "accepted" and its content is a
    string that, stripped, is a bare calendar date;
    [date_noise_candidate_accepted] is reported exactly when there is one. *)
Theorem accepted_date_candidate_iff (facts cands gates : list dict) (cmds : list string)
    (c : dict) :
  let q := evaluate_quality facts cands gates cmds in
  (In c (acceptedDateCandidates q) <->
     In c cands /\ field_lower "decision" c = "accepted" /\
     exists s, has_content c s /\ bare_date (strip s)) /\
  (In "date_noise_candidate_accepted" (issues q) <-> acceptedDateCandidates q <> []).
Proof.
  intros q. subst q. split.
  - unfold evaluate_quality. cbn [acceptedDateCandidates]. rewrite filter_In, andb_true_iff.
    unfold is_accepted, is_date_content. rewrite str_field_sat_iff, String.eqb_eq. split.
    + intros [Hin [Hacc (s & Hs & H)]]. repeat split; auto. exists s.
      split; [exact Hs | now apply date_only_match_strip].
    + intros (Hin & Hacc & s & Hs & H). repeat split; auto. exists s.
      split; [exact Hs | now apply date_only_match_strip].
  - rewrite <- nonempty_iff. issue_cases.
Qed.

(** X3. A tool gate is in [wrongToolGatePaths] exactly when its path is a
    string that, stripped, is a plain desktop path;
    [tool_gate_reused_wrong_path] is reported exactly when there is one. *)
Theorem wrong_tool_gate_iff (facts cands gates : list dict) (cmds : list string) (g : dict) :
  let q := evaluate_quality facts cands gates cmds in
  (In g (wrongToolGatePaths q) <->
     In g gates /\ exists s, has_field "path" g s /\ plain_desktop_path (strip s)) /\
  (In "tool_gate_reused_wrong_path" (issues q) <-> wrongToolGatePaths q <> []).
Proof.
  intros q. subst q. split.
  - unfold evaluate_quality. cbn [wrongToolGatePaths]. rewrite filter_In.
    unfold is_wrong_gate_path, has_field. rewrite str_field_sat_iff. split.
    + intros [Hin (s & Hs & H)]. split; auto. exists s.
      split; [exact Hs | now apply desktop_wrong_match_strip].
    + intros (Hin & s & Hs & H). split; auto. exists s.
      split; [exact Hs | now apply desktop_wrong_match_strip].
  - rewrite <- nonempty_iff. issue_cases.
Qed.

(** X4. Every evidence list keeps the order of the input it is taken from,
    and the counts are nested: the wrong-desktop and OneDrive artifacts are
    among the active artifacts, these and the invalid-path facts among the
    active facts, and these among the facts. *)
Theorem evidence_lists_nested (facts cands gates : list dict) (cmds : list string) :
  let q := evaluate_quality facts cands gates cmds in
  (sublist (dateNoiseFacts q) facts /\
   sublist (wrongDesktopArtifacts q) facts /\
   sublist (oneDriveDesktopArtifacts q) facts /\
   sublist (acceptedDateCandidates q) cands /\
   sublist (wrongToolGatePaths q) gates) /\
  (List.length (wrongDesktopArtifacts q) <= activeArtifactCount q /\
   List.length (oneDriveDesktopArtifacts q) <= activeArtifactCount q /\
   List.length (dateNoiseFacts q) <= activeFactCount q /\
   activeArtifactCount q <= activeFactCount q /\
   activeInvalidPathCount q <= activeFactCount q /\
   activeFactCount q <= List.length facts).
Proof.
  intros q. subst q. unfold evaluate_quality.
  cbn [dateNoiseFacts wrongDesktopArtifacts oneDriveDesktopArtifacts acceptedDateCandidates
       wrongToolGatePaths activeArtifactCount activeFactCount activeInvalidPathCount].
  split.
  - repeat split; repeat (etransitivity; [apply filter_sublist|]); reflexivity.
  - repeat split; apply sublist_length, filter_sublist.
Qed.

(** X5. [score_probe_commands] keeps, in their order, exactly the commands
    that contain a probe marker without regard to case; the count is the
    number kept, and commands scored in two batches give the two results
    joined. *)
Theorem score_probe_commands_spec (commands more : list string) :
  let stats := score_probe_commands commands in
  (forall cmd, In cmd (probeCommands stats) <->
     In cmd commands /\
     exists marker, In marker PROBE_MARKERS /\ substring_of (lower marker) (lower cmd)) /\
  sublist (probeCommands stats) commands /\
  probeCount stats = List.length (probeCommands stats) /\
  probeCommands (score_probe_commands (commands ++ more))
  = probeCommands stats ++ probeCommands (score_probe_commands more) /\
  probeCount (score_probe_commands (commands ++ more))
  = probeCount stats + probeCount (score_probe_commands more).
Proof.
  intros stats. subst stats. unfold score_probe_commands. cbn [probeCommands probeCount].
  split; [|split; [|split; [|split]]].
  - intros cmd. rewrite filter_In. unfold is_probe. rewrite existsb_exists. split.
    + intros [Hin (marker & Hm & H)]. split; [exact Hin|]. exists marker.
      split; [exact Hm | now apply contains_spec].
    + intros [Hin (marker & Hm & H)]. split; [exact Hin|]. exists marker.
      split; [exact Hm | now apply contains_spec].
  - apply filter_sublist.
  - reflexivity.
  - apply filter_app.
  - now rewrite filter_app, length_app.
Qed.

(** ** The readers of the event stream *)

Lemma upto_first_types (events : list dict) :
  types_of (upto_first is_terminal events)
  = upto_first is_terminal_type (types_of events).
Proof.
  induction events as [|e events IH]; [reflexivity|].
  change (e :: events) with ([e] ++ events). rewrite types_of_app.
  cbn [app upto_first]. destruct (is_terminal e) eqn:He.
  - destruct (terminal_event_type e He) as (t & Ht & Hterm).
    unfold types_of at 1 2. cbn [flat_map]. rewrite Ht. cbn [option_list app upto_first].
    now rewrite Hterm.
  - change (e :: upto_first is_terminal events) with ([e] ++ upto_first is_terminal events).
    rewrite types_of_app, IH.
    assert (Hplain : Forall (fun t => is_terminal_type t = false) (types_of [e])).
    { apply plain_event_types. now constructor. }
    rewrite upto_first_app.
    destruct (existsb is_terminal_type (types_of [e])) eqn:Ex; [|reflexivity].
    apply existsb_exists in Ex. destruct Ex as (t & Hin & Ht).
    rewrite Forall_forall in Hplain. rewrite (Hplain t Hin) in Ht. discriminate.
Qed.

Section Readers.

Variable json_loads : string -> option pyval.

Lemma stream_loop_prefix started timeout_sec chunks fin events evs :
  stream_loop json_loads started timeout_sec chunks fin events = Returns evs ->
  exists rest,
    events ++ upto_first is_terminal (events_of json_loads (List.map snd chunks)) = evs ++ rest.
Proof.
  revert events. induction chunks as [|[t r] chunks IH]; intros events H.
  - destruct fin; cbn in H; [|discriminate]. inversion H; subst. now exists [].
  - destruct (timed_out started timeout_sec t) eqn:Et.
    + rewrite stream_loop_late in H by assumption. inversion H; subst. eauto.
    + rewrite stream_loop_step in H by assumption.
      unfold events_of in *. cbn [List.map snd flat_map].
      destruct (line_event json_loads r) as [d|]; cbn [option_list app upto_first];
        [|now apply IH].
      destruct (is_terminal d).
      * inversion H; subst. exists []. now rewrite app_nil_r.
      * apply IH in H. destruct H as [rest H]. exists rest. rewrite <- H.
        now rewrite <- app_assoc.
Qed.

Lemma stream_loop_no_terminal started timeout_sec chunks fin events :
  Forall (fun c => timed_out started timeout_sec (fst c) = false) chunks ->
  existsb is_terminal (events_of json_loads (List.map snd chunks)) = false ->
  stream_loop json_loads started timeout_sec chunks fin events
  = finish fin (events ++ events_of json_loads (List.map snd chunks)).
Proof.
  intros Hlate. revert events.
  induction Hlate as [|[t r] chunks Ht Hrest IH]; intros events Hno.
  - cbn. now rewrite app_nil_r.
  - cbn [fst] in Ht. rewrite stream_loop_step by assumption.
    unfold events_of in *. cbn [List.map snd flat_map] in *.
    destruct (line_event json_loads r) as [d|]; cbn [option_list app existsb] in *;
      [|now apply IH].
    apply orb_false_iff in Hno. destruct Hno as [Hd Hno]. rewrite Hd.
    rewrite IH by exact Hno. now rewrite <- app_assoc.
Qed.

Lemma scan_item_fields c st st' :
  scan_item c st = Returns st' ->
  error st' = error st /\ finishReason st' = finishReason st /\
  (Forall (fun note => contains "CFPM" note = true) (cfpmSystemNotifications st) ->
   Forall (fun note => contains "CFPM" note = true) (cfpmSystemNotifications st')).
Proof.
  destruct c as [| | | | | |cd]; try discriminate. unfold scan_item.
  intros H. inversion H; subst; clear H.
  destruct (is_str (dict_get cd "type") "text");
    destruct (is_str (dict_get cd "type") "toolRequest");
    destruct (is_str (dict_get cd "type") "systemNotification");
    destruct (dict_get cd "text") as [[| | | |text| |]|];
    destruct (dict_get cd "msg") as [[| | | |note| |]|];
    try (destruct (contains "CFPM" note) eqn:En);
    cbn; repeat split; auto;
    intros Hall; apply Forall_app; split; auto.
Qed.

Lemma scan_content_fields items st st' :
  scan_content items st = Returns st' ->
  error st' = error st /\ finishReason st' = finishReason st /\
  (Forall (fun note => contains "CFPM" note = true) (cfpmSystemNotifications st) ->
   Forall (fun note => contains "CFPM" note = true) (cfpmSystemNotifications st')).
Proof.
  revert st. induction items as [|c items IH]; intros st; cbn [scan_content].
  - intros H. inversion H; subst. auto.
  - destruct (scan_item c st) as [st1|e] eqn:E; cbn [bind]; [|discriminate].
    intros H. apply IH in H. apply scan_item_fields in E.
    destruct H as (H1 & H2 & H3), E as (E1 & E2 & E3).
    repeat split; [congruence | congruence | auto].
Qed.

Lemma scan_message_fields obj st st' :
  scan_message obj st = Returns st' ->
  error st' = error st /\ finishReason st' = finishReason st /\
  (Forall (fun note => contains "CFPM" note = true) (cfpmSystemNotifications st) ->
   Forall (fun note => contains "CFPM" note = true) (cfpmSystemNotifications st')).
Proof.
  unfold scan_message.
  destruct (dict_get_default obj "message" (PDict [])) as [| | | | | |msg]; try discriminate.
  destruct (if truthy _ then _ else _) as [items|e]; cbn [bind]; [|discriminate].
  apply scan_content_fields.
Qed.

Lemma sse_loop_closed lines fin st r :
  sse_open st -> sse_loop json_loads lines fin st = Returns r -> sse_closed r.
Proof.
  revert st. induction lines as [|raw lines IH]; intros st Hst H.
  - destruct fin; cbn in H; [|discriminate]. inversion H; subst.
    destruct Hst as (He & Hf & Hn). unfold sse_closed. rewrite He, Hf.
    repeat split; auto; intros Hne; now contradiction Hne.
  - rewrite sse_loop_step in H.
    destruct (line_value json_loads raw) as [[| | | | | |obj]|]; try discriminate;
      [|now apply (IH st)].
    destruct (event_type obj) as [t|]; [|now apply (IH st)].
    assert (Hend : forall st2, sse_open st2 -> eventTypes st2 = eventTypes st ++ [t] ->
                (if String.eqb t "Error"
                 then Returns (set_error (dict_get_default obj "error" PNone) st2)
                 else if String.eqb t "Finish"
                 then Returns (set_finish_reason (dict_get_default obj "reason" PNone) st2)
                 else sse_loop json_loads lines fin st2) = Returns r ->
                sse_closed r).
    { intros st2 (He & Hf & Hn) E2 H2. destruct (String.eqb t "Error") eqn:Eerr.
      - apply String.eqb_eq in Eerr. subst t. inversion H2; subst.
        unfold sse_closed. cbn [error finishReason eventTypes cfpmSystemNotifications set_error].
        rewrite Hf, E2. repeat split; eauto. intros Hne. now contradiction Hne.
      - destruct (String.eqb t "Finish") eqn:Efin.
        + apply String.eqb_eq in Efin. subst t. inversion H2; subst.
          unfold sse_closed.
          cbn [error finishReason eventTypes cfpmSystemNotifications set_finish_reason].
          rewrite He, E2. repeat split; eauto. intros Hne. now contradiction Hne.
        + apply (IH st2); [|exact H2]. repeat split; auto. }
    destruct Hst as (He & Hf & Hn).
    destruct (String.eqb t "Message").
    + destruct (scan_message obj (add_event_type t st)) as [st2|e] eqn:Es;
        cbn [bind] in H; [|discriminate].
      pose proof (scan_message_types _ _ _ Es) as Hty.
      apply scan_message_fields in Es. destruct Es as (E1 & E2 & E3).
      apply (Hend st2); auto. repeat split; [now rewrite E1 | now rewrite E2 | now apply E3].
    + cbn [bind] in H. apply (Hend (add_event_type t st)); auto. repeat split; auto.
Qed.

(** When [sse_loop] returns, its types are those of the typed objects of
    the lines up to the first terminal one, and the stream has ended or
    shown a terminal object. *)
Lemma sse_loop_returned lines fin st r :
  sse_loop json_loads lines fin st = Returns r ->
  eventTypes r = eventTypes st
                 ++ upto_first is_terminal_type (types_of (events_of json_loads lines)) /\
  (existsb is_terminal (events_of json_loads lines) = true \/ fin = Eof).
Proof.
  revert st. induction lines as [|raw lines IH]; intros st H.
  - destruct fin; cbn in H; [|discriminate]. inversion H; subst.
    cbn. rewrite app_nil_r. auto.
  - rewrite sse_loop_step in H.
    unfold events_of, types_of, line_event in *. cbn [flat_map] in *.
    destruct (line_value json_loads raw) as [[| | | | | |obj]|]; try discriminate;
      cbn [option_list app flat_map existsb] in *; [|now apply IH].
    unfold is_terminal, event_type in *.
    destruct (dict_get obj "type") as [[| | | |t| |]|] eqn:Et;
      cbn [as_str option_list app is_str orb upto_first] in *; try (now apply IH).
    fold (is_terminal_type t). rewrite (terminal_type_cases t).
    assert (Hend : forall st2, eventTypes st2 = eventTypes st ++ [t] ->
                (if String.eqb t "Error"
                 then Returns (set_error (dict_get_default obj "error" PNone) st2)
                 else if String.eqb t "Finish"
                 then Returns (set_finish_reason (dict_get_default obj "reason" PNone) st2)
                 else sse_loop json_loads lines fin st2) = Returns r ->
                eventTypes r
                = eventTypes st
                  ++ (if String.eqb t "Error" || String.eqb t "Finish" then [t]
                      else t :: upto_first is_terminal_type
                                  (flat_map (fun d => option_list (as_str (dict_get d "type")))
                                     (flat_map (fun raw0 =>
                                        option_list
                                          match line_value json_loads raw0 with
                                          | Some (PDict d) => Some d
                                          | _ => None
                                          end) lines))) /\
                (String.eqb t "Error" || String.eqb t "Finish"
                 || existsb (fun d => is_str (dict_get d "type") "Finish"
                                      || is_str (dict_get d "type") "Error")
                      (flat_map (fun raw0 =>
                         option_list
                           match line_value json_loads raw0 with
                           | Some (PDict d) => Some d
                           | _ => None
                           end) lines) = true \/ fin = Eof)).
    { intros st2 E2 H2. destruct (String.eqb t "Error").
      - inversion H2; subst. cbn. auto.
      - destruct (String.eqb t "Finish").
        + inversion H2; subst. cbn. auto.
        + cbn [orb]. apply IH in H2. destruct H2 as [H2 H3].
          split; [|exact H3]. rewrite H2, E2. now rewrite <- app_assoc. }
    destruct (String.eqb t "Message").
    + destruct (scan_message obj (add_event_type t st)) as [st2|e] eqn:Es;
        cbn [bind] in H; [|discriminate].
      apply scan_message_types in Es. now apply (Hend st2).
    + cbn [bind] in H. now apply (Hend (add_event_type t st)).
Qed.

End Readers.

(** X6. Whatever the clock readings and however the stream ends, the events
    [stream_reply] returns are an initial part of the events of the lines
    up to the first terminal one: it never invents, reorders or drops an
    event before the place where it stops, and never goes past a terminal
    event. *)
Theorem stream_reply_initial_part (json_loads : string -> option pyval)
    (started : Q) (timeout_sec : Z) (resp : list (Q * string) * stream_end)
    (evs : list dict) :
  stream_reply json_loads started timeout_sec resp = Returns evs ->
  exists rest,
    upto_first is_terminal (events_of json_loads (List.map snd (fst resp))) = evs ++ rest.
Proof.
  unfold stream_reply. intros H. apply stream_loop_prefix in H. exact H.
Qed.

Lemma stream_reply_initial_part_witness :
  exists rest,
    upto_first is_terminal (events_of sample_loads (List.map snd late_response))
    = [ping_event] ++ rest.
Proof.
  apply (stream_reply_initial_part sample_loads 0%Q 300%Z (late_response, Eof) [ping_event]).
  vm_compute. reflexivity.
Defined.

(** X7. When every line is read in time and no line carries a terminal
    event, [stream_reply] ends as the transport does: at the end of the
    stream it returns every event, and an exception of the transport
    leaves it, with no event returned. *)
Theorem stream_reply_without_terminal (json_loads : string -> option pyval)
    (started : Q) (timeout_sec : Z) (chunks : list (Q * string)) (e : exn) :
  Forall (fun c => (fst c - started <= inject_Z timeout_sec)%Q) chunks ->
  Forall (fun d => is_terminal d = false) (events_of json_loads (List.map snd chunks)) ->
  stream_reply json_loads started timeout_sec (chunks, Eof)
  = Returns (events_of json_loads (List.map snd chunks)) /\
  stream_reply json_loads started timeout_sec (chunks, Breaks e) = Raised e.
Proof.
  intros Htime Hplain.
  assert (Hlate : Forall (fun c => timed_out started timeout_sec (fst c) = false) chunks).
  { eapply Forall_impl; [|exact Htime]. intros c Hc. now apply in_time_iff. }
  assert (Hno : existsb is_terminal (events_of json_loads (List.map snd chunks)) = false).
  { destruct (existsb _ _) eqn:Ex; [|reflexivity].
    apply existsb_exists in Ex. destruct Ex as (d & Hin & Hd).
    rewrite Forall_forall in Hplain. rewrite (Hplain d Hin) in Hd. discriminate. }
  unfold stream_reply. cbn [fst snd].
  rewrite !(stream_loop_no_terminal json_loads started timeout_sec chunks _ [] Hlate Hno).
  split; reflexivity.
Qed.

Lemma stream_reply_without_terminal_witness :
  stream_reply sample_loads 0%Q 240 ([(1 # 1, ping_line); (2 # 1, message_line)]%Q, Eof)
  = Returns [ping_event; message_event] /\
  stream_reply sample_loads 0%Q 240
    ([(1 # 1, ping_line); (2 # 1, message_line)]%Q, Breaks refused)
  = Raised refused.
Proof.
  apply (stream_reply_without_terminal sample_loads 0%Q 240%Z
           [(1 # 1, ping_line); (2 # 1, message_line)]%Q refused).
  - repeat constructor; vm_compute; discriminate.
  - vm_compute. repeat constructor.
Defined.

(** X8. In a result of [reply_sse], [error] and [finishReason] are never
    both set; [error] is set only when the last event type is "Error" and
    [finishReason] only when it is "Finish"; and every entry of
    [cfpmSystemNotifications] contains the text CFPM, with these capitals. *)
Theorem reply_sse_result_fields (json_loads : string -> option pyval)
    (resp : list string * stream_end) (r : SseResult) :
  reply_sse json_loads resp = Returns r ->
  (error r = PNone \/ finishReason r = PNone) /\
  (error r <> PNone -> exists pre, eventTypes r = pre ++ ["Error"]) /\
  (finishReason r <> PNone -> exists pre, eventTypes r = pre ++ ["Finish"]) /\
  (forall note, In note (cfpmSystemNotifications r) ->
                exists pre post, note = pre +:+ "CFPM" +:+ post).
Proof.
  unfold reply_sse. intros H.
  apply sse_loop_closed in H; [|repeat split; constructor].
  destruct H as (H1 & H2 & H3 & H4). repeat split; auto.
  intros note Hin. rewrite Forall_forall in H4. apply contains_spec. now apply H4.
Qed.

Lemma reply_sse_result_fields_witness :
  (PStr "boom" = PNone \/ PNone = PNone) /\
  (PStr "boom" <> PNone -> exists pre, ["Ping"; "Message"; "Error"] = pre ++ ["Error"]) /\
  (PNone <> PNone -> exists pre, ["Ping"; "Message"; "Error"] = pre ++ ["Finish"]) /\
  (forall note, In note [] -> exists pre post, note = pre +:+ "CFPM" +:+ post).
Proof.
  apply (reply_sse_result_fields sample_loads
           ([ping_line; message_line; error_line; finish_line], Eof)
           {| eventTypes := ["Ping"; "Message"; "Error"]; assistantText := ["hello"];
              cfpmSystemNotifications := []; toolRequestCount := 0;
              error := PStr "boom"; finishReason := PNone |}).
  vm_compute. reflexivity.
Defined.

(** X9. The two readers agree on a reply read in time: whenever
    [reply_sse] returns, [stream_reply] on the same lines returns the
    events up to the first terminal one, and the event types of
    [reply_sse] are the string types of exactly those events. *)
Theorem readers_agree (json_loads : string -> option pyval)
    (started : Q) (timeout_sec : Z) (chunks : list (Q * string)) (fin : stream_end)
    (r : SseResult) :
  Forall (fun c => (fst c - started <= inject_Z timeout_sec)%Q) chunks ->
  reply_sse json_loads (List.map snd chunks, fin) = Returns r ->
  exists evs,
    stream_reply json_loads started timeout_sec (chunks, fin) = Returns evs /\
    evs = upto_first is_terminal (events_of json_loads (List.map snd chunks)) /\
    eventTypes r = types_of evs.
Proof.
  intros Htime H. unfold reply_sse in H. cbn [fst snd] in H.
  apply sse_loop_returned in H. destruct H as [Hty Hend].
  assert (Hlate : Forall (fun c => timed_out started timeout_sec (fst c) = false) chunks).
  { eapply Forall_impl; [|exact Htime]. intros c Hc. now apply in_time_iff. }
  eexists. split; [|split; [reflexivity|]].
  - unfold stream_reply. cbn [fst snd].
    now rewrite (stream_loop_events json_loads started timeout_sec chunks fin [] Hlate Hend).
  - rewrite Hty. cbn [eventTypes sse_start app]. symmetry. apply upto_first_types.
Qed.

Lemma readers_agree_witness :
  exists evs,
    stream_reply sample_loads 0%Q 240
      ([(1 # 1, ping_line); (2 # 1, message_line); (3 # 1, finish_line); (4 # 1, ping_line)]%Q,
       Breaks refused) = Returns evs /\
    evs = upto_first is_terminal
            (events_of sample_loads [ping_line; message_line; finish_line; ping_line]) /\
    ["Ping"; "Message"; "Finish"] = types_of evs.
Proof.
  apply (readers_agree sample_loads 0%Q 240%Z
           [(1 # 1, ping_line); (2 # 1, message_line); (3 # 1, finish_line); (4 # 1, ping_line)]%Q
           (Breaks refused)
           {| eventTypes := ["Ping"; "Message"; "Finish"]; assistantText := ["hello"];
              cfpmSystemNotifications := []; toolRequestCount := 0;
              error := PNone; finishReason := PStr "stop" |}).
  - repeat constructor; vm_compute; discriminate.
  - vm_compute. reflexivity.
Defined.

(** ** The extractors of commands and texts *)

Lemma rstrip_idem (s : string) : rstrip (rstrip s) = rstrip s.
Proof.
  induction s as [|c s IH]; [reflexivity|]. cbn [rstrip].
  destruct (rstrip s) as [|b r] eqn:E.
  - destruct (isspace c) eqn:Ec; [reflexivity|]. cbn [rstrip]. now rewrite Ec.
  - cbn [rstrip] in *. now rewrite IH.
Qed.

Lemma lstrip_rstrip_lstrip (s : string) : lstrip (rstrip (lstrip s)) = rstrip (lstrip s).
Proof.
  induction s as [|c s IH]; [reflexivity|]. cbn [lstrip].
  destruct (isspace c) eqn:Ec; [exact IH|]. cbn [rstrip].
  destruct (rstrip s); rewrite ?Ec; cbn [lstrip]; now rewrite Ec.
Qed.

Lemma strip_idem (s : string) : strip (strip s) = strip s.
Proof. unfold strip. now rewrite lstrip_rstrip_lstrip, rstrip_idem. Qed.

Lemma stripped_text_clean (v : option pyval) :
  Forall (fun t => t <> "" /\ strip t = t) (stripped_text v).
Proof.
  destruct v as [[| | | |t| |]|]; cbn; try constructor.
  destruct (String.eqb (strip t) "") eqn:E; constructor; [|constructor].
  apply String.eqb_neq in E. split; [exact E | apply strip_idem].
Qed.

Lemma first_command_clean (args : dict) (keys : list string) :
  Forall (fun t => t <> "" /\ strip t = t) (first_command args keys).
Proof.
  induction keys as [|k keys IH]; cbn [first_command]; [constructor|].
  pose proof (stripped_text_clean (dict_get args k)) as H.
  destruct (stripped_text (dict_get args k)); [exact IH | exact H].
Qed.

Lemma first_command_short (args : dict) (keys : list string) :
  List.length (first_command args keys) <= 1.
Proof.
  induction keys as [|k keys IH]; cbn [first_command]; [cbn; lia|].
  destruct (dict_get args k) as [[| | | |t| |]|]; cbn [stripped_text]; try exact IH.
  destruct (String.eqb (strip t) ""); [exact IH | cbn; lia].
Qed.

Lemma collect_Forall {A B : Type} (P : B -> Prop) (f : A -> outcome (list B))
    (items : list A) (out : list B) :
  (forall x ys, In x items -> f x = Returns ys -> Forall P ys) ->
  collect f items = Returns out -> Forall P out.
Proof.
  revert out. induction items as [|x items IH]; intros out Hf; cbn [collect].
  - intros H. inversion H. constructor.
  - destruct (f x) as [ys|e] eqn:Ex; cbn [bind]; [|discriminate].
    destruct (collect f items) as [zs|e] eqn:Ez; cbn [bind]; [|discriminate].
    intros H. inversion H; subst. apply Forall_app. split.
    + apply (Hf x); [now left | exact Ex].
    + apply IH; [|reflexivity]. intros y ys' Hin. apply Hf. now right.
Qed.

Lemma collect_app {A B : Type} (f : A -> outcome (list B)) (l1 l2 : list A) :
  collect f (l1 ++ l2)
  = bind (collect f l1) (fun ys => bind (collect f l2) (fun zs => Returns (ys ++ zs))).
Proof.
  induction l1 as [|x l1 IH]; cbn [app collect bind].
  - destruct (collect f l2); reflexivity.
  - destruct (f x) as [ys|e]; cbn [bind]; [|reflexivity]. rewrite IH.
    destruct (collect f l1) as [ys1|e]; cbn [bind]; [|reflexivity].
    destruct (collect f l2) as [zs|e]; cbn [bind]; [|reflexivity].
    now rewrite app_assoc.
Qed.

Lemma collect_filter {A B : Type} (f : A -> outcome (list B)) (keep : A -> bool)
    (items : list A) :
  (forall x, keep x = false -> f x = Returns []) ->
  collect f (List.filter keep items) = collect f items.
Proof.
  intros Hskip. induction items as [|x items IH]; [reflexivity|]. cbn [List.filter].
  destruct (keep x) eqn:Ex; cbn [collect].
  - now rewrite IH.
  - rewrite (Hskip x Ex). cbn [bind]. rewrite IH.
    destruct (collect f items); reflexivity.
Qed.

(** X10. Every command [extract_tool_commands_from_session] returns, and
    every text [extract_assistant_texts] returns, is non-empty and has no
    white space at either end; and one tool request adds at most one
    command. *)
Theorem extracted_strings_clean (session_obj : pyval) (events : list dict) (content : pyval) :
  (forall cmds, extract_tool_commands_from_session session_obj = Returns cmds ->
                Forall (fun t => t <> "" /\ strip t = t) cmds) /\
  (forall texts, extract_assistant_texts events = Returns texts ->
                 Forall (fun t => t <> "" /\ strip t = t) texts) /\
  (forall found, command_of_item content = Returns found -> List.length found <= 1).
Proof.
  split; [|split].
  - intros cmds. unfold extract_tool_commands_from_session.
    destruct (if truthy _ then _ else _) as [messages|e]; cbn [bind]; [|discriminate].
    apply collect_Forall. intros msg ys _. destruct msg as [| | | | | |m]; try discriminate.
    cbn [commands_of_message].
    destruct (content_items m) as [items|e]; cbn [bind]; [|discriminate].
    apply collect_Forall. intros c zs _. destruct c as [| | | | | |c]; try discriminate.
    cbn [command_of_item]. intros H. inversion H; subst; clear H.
    destruct (negb (is_str (dict_get c "type") "toolRequest")); [constructor|].
    destruct (or_get c "toolCall" "tool_call") as [| | | | | |tool_call]; try constructor.
    destruct (or_get tool_call "Ok" "ok") as [| | | | | |call]; try constructor.
    destruct (dict_get call "arguments") as [[| | | | | |args]|]; try constructor.
    apply (first_command_clean args ["command"; "cmd"; "script"]).
  - intros texts. unfold extract_assistant_texts.
    apply collect_Forall. intros e ys _. unfold texts_of_event.
    destruct (negb (is_str (dict_get e "type") "Message")).
    { intros H. inversion H. constructor. }
    destruct (dict_get e "message") as [[| | | | | |msg]|];
      try (intros H; inversion H; constructor).
    destruct (content_items msg) as [items|x]; cbn [bind]; [|discriminate].
    apply collect_Forall. intros c zs _. destruct c as [| | | | | |c]; try discriminate.
    cbn [text_of_item]. intros H. inversion H; subst; clear H.
    destruct (is_str (dict_get c "type") "text"); [apply stripped_text_clean | constructor].
  - intros found. destruct content as [| | | | | |c]; try discriminate. cbn [command_of_item].
    intros H. inversion H; subst; clear H.
    destruct (negb (is_str (dict_get c "type") "toolRequest")); [cbn; lia|].
    destruct (or_get c "toolCall" "tool_call") as [| | | | | |tool_call]; try (cbn; lia).
    destruct (or_get tool_call "Ok" "ok") as [| | | | | |call]; try (cbn; lia).
    destruct (dict_get call "arguments") as [[| | | | | |args]|]; try (cbn; lia).
    apply (first_command_short args ["command"; "cmd"; "script"]).
Qed.

Lemma extracted_strings_clean_witness :
  Forall (fun t => t <> "" /\ strip t = t) ["ls -la"] /\
  Forall (fun t => t <> "" /\ strip t = t) ["hello"] /\
  List.length ["ls -la"] <= 1.
Proof.
  destruct (extracted_strings_clean tool_session [ping_event; message_event]
              tool_request_item) as (H1 & H2 & H3).
  split; [|split]; [apply H1 | apply H2 | apply H3]; vm_compute; reflexivity.
Defined.

(** X11. [extract_assistant_texts] looks at "Message" events only: the
    other events can be removed without changing what it returns or
    raises; and over two lists of events, one after the other, it gives the
    texts of the first followed by those of the second. *)
Theorem extract_assistant_texts_messages_only (events more : list dict) :
  extract_assistant_texts
    (List.filter (fun e => is_str (dict_get e "type") "Message") events)
  = extract_assistant_texts events /\
  extract_assistant_texts (events ++ more)
  = bind (extract_assistant_texts events)
         (fun ys => bind (extract_assistant_texts more) (fun zs => Returns (ys ++ zs))).
Proof.
  unfold extract_assistant_texts. split; [|apply collect_app].
  apply collect_filter. intros e He. unfold texts_of_event. now rewrite He.
Qed.

(** X12. [extract_tool_commands_from_session] returns the empty list, and
    raises nothing, unless the session is an object whose conversation is
    an object with messages that are not empty. *)
Theorem extract_tool_commands_no_messages (session_obj : pyval) :
  (forall s conv messages,
     session_obj = PDict s -> dict_get s "conversation" = Some (PDict conv) ->
     dict_get conv "messages" = Some messages -> truthy messages = false) ->
  extract_tool_commands_from_session session_obj = Returns [].
Proof.
  intros H. unfold extract_tool_commands_from_session, dict_get_default.
  destruct session_obj as [| | | | | |s]; try reflexivity.
  destruct (dict_get s "conversation") as [[| | | | | |conv]|] eqn:Ec; try reflexivity.
  destruct (dict_get conv "messages") as [messages|] eqn:Em; [|reflexivity].
  now rewrite (H s conv messages eq_refl Ec Em).
Qed.

Lemma extract_tool_commands_no_messages_witness :
  extract_tool_commands_from_session (PDict [("conversation", PDict [("messages", PList [])])])
  = Returns [] /\
  extract_tool_commands_from_session (PDict [("conversation", PStr "lost")]) = Returns [] /\
  extract_tool_commands_from_session (PInt 7) = Returns [].
Proof.
  split; [|split]; apply extract_tool_commands_no_messages;
    intros s conv messages E1 E2 E3; inversion E1; subst; cbn in E2; inversion E2; subst;
    cbn in E3; inversion E3; reflexivity.
Defined.

(** ** The choice of provider and model *)

Lemma given_some (o : option string) (s : string) :
  given o = Some s <-> o = Some s /\ s <> "".
Proof.
  destruct o as [t|]; cbn [given].
  - destruct (String.eqb t "") eqn:E.
    + apply String.eqb_eq in E. split; [discriminate|]. intros [H1 H2]. congruence.
    + apply String.eqb_neq in E. split.
      * intros H. inversion H; subst. auto.
      * intros [H _]. exact H.
  - split; [discriminate | intros [H _]; discriminate].
Qed.

Lemma read_cfg_value_stripped (sv : Service) (name value : string) :
  ApiEval.read_cfg_value sv name = Some value -> value <> "" /\ strip value = value.
Proof.
  unfold ApiEval.read_cfg_value.
  destruct (request_json sv _ _ _) as [[| | | |resp| |resp]|e]; try discriminate.
  - intros H. apply given_some in H. destruct H as [H Hne]. inversion H; subst.
    split; [exact Hne | apply strip_idem].
  - destruct (dict_get resp "value") as [[| | | |v| |]|]; try discriminate.
    intros H. apply given_some in H. destruct H as [H Hne]. inversion H; subst.
    split; [exact Hne | apply strip_idem].
Qed.

Lemma or_else_origin (a : option string) (sv : Service) (k1 k2 v : string) :
  given (ApiEval.or_else a
           (ApiEval.or_else (ApiEval.read_cfg_value sv k1) (ApiEval.read_cfg_value sv k2)))
  = Some v ->
  v <> "" /\ (a = Some v \/ (given a = None /\ strip v = v)).
Proof.
  unfold ApiEval.or_else at 1. destruct (given a) as [s|] eqn:Ea.
  - intros H. apply given_some in H. destruct H as [H Hne]. inversion H; subst.
    apply given_some in Ea. destruct Ea as [Ea _]. auto.
  - intros H. apply given_some in H. destruct H as [H Hne]. split; [exact Hne|].
    right. split; [reflexivity|]. unfold ApiEval.or_else in H.
    destruct (given (ApiEval.read_cfg_value sv k1)) as [s|] eqn:E1.
    + inversion H; subst. apply given_some in E1. destruct E1 as [E1 _].
      now apply read_cfg_value_stripped in E1.
    + now apply read_cfg_value_stripped in H.
Qed.

(** X13. [select_provider_model] raises nothing but its own [RuntimeError];
    the provider and the model it returns are not empty, and each is either
    the argument given on the command line or, when that is missing or
    empty, a configuration value without white space at its ends. *)
Theorem select_provider_model_spec (sv : Service) (provider_arg model_arg : option string) :
  (forall p m, ApiEval.select_provider_model sv provider_arg model_arg = Returns (p, m) ->
     (p <> "" /\ (provider_arg = Some p \/ (given provider_arg = None /\ strip p = p))) /\
     (m <> "" /\ (model_arg = Some m \/ (given model_arg = None /\ strip m = m)))) /\
  (forall e, ApiEval.select_provider_model sv provider_arg model_arg = Raised e ->
     exn_kind e = "RuntimeError").
Proof.
  unfold ApiEval.select_provider_model.
  destruct (given (ApiEval.or_else provider_arg _)) as [p0|] eqn:Ep;
    [destruct (given (ApiEval.or_else model_arg _)) as [m0|] eqn:Em|]; split;
    try discriminate; try (intros e H; inversion H; reflexivity).
  intros p m H. inversion H; subst.
  split; [eapply or_else_origin; eauto | eapply or_else_origin; eauto].
Qed.

(** X14. A provider and a model given on the command line, both not empty,
    are what [select_provider_model] returns, whatever the service
    answers. *)
Theorem select_provider_model_explicit (sv : Service) (p m : string) :
  p <> "" -> m <> "" ->
  ApiEval.select_provider_model sv (Some p) (Some m) = Returns (p, m).
Proof.
  intros Hp Hm. apply String.eqb_neq in Hp, Hm.
  unfold ApiEval.select_provider_model, ApiEval.or_else. cbn [given].
  rewrite Hp, Hm. cbn [given]. now rewrite Hp, Hm.
Qed.

Lemma select_provider_model_explicit_witness :
  ApiEval.select_provider_model (down_service "down") (Some "openai") (Some "gpt")
  = Returns ("openai", "gpt").
Proof. apply select_provider_model_explicit; discriminate. Defined.

(** ** The server process of a run *)

Lemma keeps_proc_ret {A : Type} (a : A) : keeps_proc (mret a).
Proof. intros s. reflexivity. Qed.

Lemma keeps_proc_call {A : Type} (o : outcome A) : keeps_proc (call o).
Proof. intros s. reflexivity. Qed.

Lemma keeps_proc_set_key (k : string) (v : pyval) : keeps_proc (set_key k v).
Proof. intros s. reflexivity. Qed.

Lemma keeps_proc_append_step (name : string) : keeps_proc (append_step name).
Proof. intros s. reflexivity. Qed.

Lemma keeps_proc_bind {A B : Type} (m : M A) (f : A -> M B) :
  keeps_proc m -> (forall a, keeps_proc (f a)) -> keeps_proc (mbind m f).
Proof.
  intros Hm Hf s. unfold mbind. specialize (Hm s).
  destruct (m s) as [s' [a|e]]; cbn in *.
  - now rewrite Hf.
  - exact Hm.
Qed.

Ltac keeps_proc_steps :=
  repeat first
    [ apply keeps_proc_ret | apply keeps_proc_call | apply keeps_proc_set_key
    | apply keeps_proc_append_step
    | apply keeps_proc_bind; [|intros]
    | progress cbv zeta
    | match goal with
      | |- keeps_proc (if ?b then _ else _) => destruct b
      | |- keeps_proc (match ?x with Some _ => _ | None => _ end) => destruct x
      end ].

(** After [m] and then [f], the server process is as [m] left it, when
    [f] does not touch it. *)
Lemma proc_after_bind {A B : Type} (m : M A) (f : A -> M B) (s : RunState) :
  (forall a, keeps_proc (f a)) ->
  server_proc (fst (mbind m f s)) = server_proc (fst (m s)).
Proof.
  intros Hf. unfold mbind. destruct (m s) as [s' [a|e]]; cbn; [apply Hf | reflexivity].
Qed.

Lemma api_after_start_keeps_proc a h sv :
  keeps_proc (ApiEval.evaluation_steps a sv) /\
  (forall sid facts, keeps_proc (ApiEval.storage_step a h sv sid facts)).
Proof.
  split; [|intros sid facts].
  - unfold ApiEval.evaluation_steps, ApiEval.turn. keeps_proc_steps.
  - unfold ApiEval.storage_step. keeps_proc_steps.
Qed.

Lemma resume_after_start_keeps_proc a h sv :
  keeps_proc (ResumeEval.evaluation_steps a sv) /\ keeps_proc (ResumeEval.storage_step a h sv).
Proof.
  split.
  - unfold ResumeEval.evaluation_steps. keeps_proc_steps.
  - unfold ResumeEval.storage_step. keeps_proc_steps.
Qed.

(** X15. In both scripts the server process is terminated at the end of a
    run exactly when the run has spawned it: the arguments ask for a
    server, its executable exists and [start_server] has returned.  A run
    with [--no-start-server] terminates nothing, however it ends. *)
Theorem server_terminated_iff (h : Host) (sv : Service) :
  (forall a,
     terminated (ApiEval.main a h sv) = true <->
     ApiEval.no_start_server a = false /\
     path_exists h (PathOf (ApiEval.server_exe a)) = true /\
     start_server sv = Returns tt) /\
  (forall a,
     terminated (ResumeEval.main a h sv) = true <->
     ResumeEval.no_start_server a = false /\
     path_exists h (PathOf (ResumeEval.server_exe a)) = true /\
     start_server sv = Returns tt).
Proof.
  split; intros a.
  - destruct (api_after_start_keeps_proc a h sv) as [He Hs].
    unfold ApiEval.main. cbn [terminated]. unfold ApiEval.try_block.
    rewrite proc_after_bind by (intros got; keeps_proc_steps; apply Hs).
    unfold ApiEval.before_storage. rewrite proc_after_bind by (intros _; exact He).
    unfold ApiEval.start_phase, ApiEval.initial.
    destruct (ApiEval.no_start_server a); cbn [negb].
    + unfold mbind, call. destruct (status_ready sv 15) as [[]|e]; cbn;
        intuition discriminate.
    + destruct (path_exists h (PathOf (ApiEval.server_exe a))); cbn [negb].
      * unfold mbind, call, server_is_up.
        destruct (start_server sv) as [[]|e]; cbn.
        -- destruct (status_ready sv 45) as [[]|e]; cbn; intuition discriminate.
        -- intuition discriminate.
      * cbn. intuition discriminate.
  - destruct (resume_after_start_keeps_proc a h sv) as [He Hs].
    unfold ResumeEval.main. cbn [terminated]. unfold ResumeEval.try_block.
    rewrite proc_after_bind by (intros got; keeps_proc_steps; apply Hs).
    unfold ResumeEval.before_storage. rewrite proc_after_bind by (intros _; exact He).
    unfold ResumeEval.start_phase, ResumeEval.initial.
    destruct (ResumeEval.no_start_server a); cbn [negb].
    + unfold mbind, call. destruct (status_ready sv 15) as [[]|e]; cbn;
        intuition discriminate.
    + destruct (path_exists h (PathOf (ResumeEval.server_exe a))); cbn [negb].
      * unfold mbind, call, server_is_up.
        destruct (start_server sv) as [[]|e]; cbn.
        -- destruct (status_ready sv 45) as [[]|e]; cbn; intuition discriminate.
        -- intuition discriminate.
      * cbn. intuition discriminate.
Qed.

(** ** The report of a run *)

(** X16. When the arguments ask for a server and its executable is
    missing, nothing is spawned and no request is made: the report holds
    only the start, the end and the [FileNotFoundError] with the path,
    nothing is terminated and the exit status is 1. *)
Theorem missing_server_exe (h : Host) (sv : Service) :
  (forall a,
     ApiEval.no_start_server a = false ->
     path_exists h (PathOf (ApiEval.server_exe a)) = false ->
     written (ApiEval.main a h sv)
     = [("startedAt", PInt (now_ts sv 0));
        ("baseUrl", PStr (ApiEval.base_url a));
        ("steps", PList []);
        ("finishedAt", PInt (now_ts sv 3));
        ("success", PBool false);
        ("error", PStr ("FileNotFoundError: server exe not found: "
                        +:+ path_str h (PathOf (ApiEval.server_exe a))))] /\
     terminated (ApiEval.main a h sv) = false /\
     exit_status (ApiEval.main a h sv) = 1%Z) /\
  (forall a,
     ResumeEval.no_start_server a = false ->
     path_exists h (PathOf (ResumeEval.server_exe a)) = false ->
     written (ResumeEval.main a h sv)
     = [("startedAt", PInt (now_ts sv 0));
        ("baseUrl", PStr (ResumeEval.base_url a));
        ("sessionId", PStr (ResumeEval.session_id a));
        ("success", PBool false);
        ("error", PStr ("FileNotFoundError: server exe missing: "
                        +:+ path_str h (PathOf (ResumeEval.server_exe a))));
        ("finishedAt", PInt (now_ts sv 2))] /\
     terminated (ResumeEval.main a h sv) = false /\
     exit_status (ResumeEval.main a h sv) = 1%Z).
Proof.
  split; intros a Hno Hexe.
  - unfold ApiEval.main, ApiEval.try_block, ApiEval.before_storage, ApiEval.start_phase.
    rewrite Hno, Hexe. repeat split.
  - unfold ResumeEval.main, ResumeEval.try_block, ResumeEval.before_storage,
      ResumeEval.start_phase.
    rewrite Hno, Hexe. repeat split.
Qed.

Lemma missing_server_exe_witness :
  dict_get (written (ApiEval.main spawn_api_args bare_host steady_service)) "error"
  = Some (PStr "FileNotFoundError: server exe not found: agimed.exe") /\
  dict_get (written (ResumeEval.main spawn_resume_args bare_host steady_service)) "error"
  = Some (PStr "FileNotFoundError: server exe missing: agimed.exe").
Proof.
  destruct (missing_server_exe bare_host steady_service) as [Ha Hr].
  destruct (Ha spawn_api_args eq_refl eq_refl) as [Ea _].
  destruct (Hr spawn_resume_args eq_refl eq_refl) as [Er _].
  rewrite Ea, Er. split; reflexivity.
Defined.

Lemma api_try_block_finished a h sv s u :
  snd (ApiEval.try_block a h sv s) = Returns u ->
  dict_get (report (fst (ApiEval.try_block a h sv s))) "finishedAt"
  = Some (PInt (now_ts sv 3)).
Proof.
  unfold ApiEval.try_block, mbind.
  destruct (ApiEval.before_storage a h sv s) as [s1 [got|e]]; [|discriminate].
  destruct (ApiEval.storage_step a h sv (fst got) (snd got) s1) as [s2 [[]|e]]; [|discriminate].
  cbn. intros _. rewrite dict_get_set_ne by discriminate. apply dict_get_set_eq.
Qed.

(** X17. However a run ends, the report that is written still has the
    [startedAt] and [baseUrl] it began with (and, in
    [cfpm_resume_eval.py], the [sessionId] of the arguments), and it has
    a [finishedAt]. *)
Theorem report_frame (h : Host) (sv : Service) :
  (forall a,
     dict_get (written (ApiEval.main a h sv)) "startedAt" = Some (PInt (now_ts sv 0)) /\
     dict_get (written (ApiEval.main a h sv)) "baseUrl" = Some (PStr (ApiEval.base_url a)) /\
     dict_get (written (ApiEval.main a h sv)) "finishedAt" = Some (PInt (now_ts sv 3))) /\
  (forall a,
     dict_get (written (ResumeEval.main a h sv)) "startedAt" = Some (PInt (now_ts sv 0)) /\
     dict_get (written (ResumeEval.main a h sv)) "baseUrl"
     = Some (PStr (ResumeEval.base_url a)) /\
     dict_get (written (ResumeEval.main a h sv)) "sessionId"
     = Some (PStr (ResumeEval.session_id a)) /\
     dict_get (written (ResumeEval.main a h sv)) "finishedAt" = Some (PInt (now_ts sv 2))).
Proof.
  split; intros a.
  - assert (Hkeep : forall k, k = "startedAt" \/ k = "baseUrl" ->
              dict_get (written (ApiEval.main a h sv)) k
              = dict_get (report (ApiEval.initial a sv)) k).
    { intros k Hk. unfold ApiEval.main. cbn [written].
      assert (Hin : ~ In k ["steps"; "provider"; "model"; "sessionId"; "turn1"; "turn2";
                            "apiSnapshot"; "quality"; "dbPath"; "dbSnapshot";
                            "apiDbFactDelta"; "finishedAt"; "success"]).
      { destruct Hk; subst k; cbn; intuition discriminate. }
      pose proof (api_try_block_keeps k a h sv Hin (ApiEval.initial a sv)) as Hk'.
      destruct (snd (ApiEval.try_block a h sv (ApiEval.initial a sv))); [exact Hk'|].
      unfold ApiEval.on_exception.
      rewrite !dict_get_set_ne by (destruct Hk; subst k; discriminate). exact Hk'. }
    split; [|split].
    + now rewrite Hkeep by auto.
    + now rewrite Hkeep by auto.
    + unfold ApiEval.main. cbn [written].
      destruct (snd (ApiEval.try_block a h sv (ApiEval.initial a sv))) as [u|exc] eqn:E.
      * eapply api_try_block_finished; eauto.
      * unfold ApiEval.on_exception. rewrite !dict_get_set_ne by discriminate.
        apply dict_get_set_eq.
  - assert (Hkeep : forall k, k = "startedAt" \/ k = "baseUrl" \/ k = "sessionId" ->
              dict_get (written (ResumeEval.main a h sv)) k
              = dict_get (report (ResumeEval.initial a sv)) k).
    { intros k Hk. unfold ResumeEval.main. cbn [written].
      assert (Hin : ~ In k ["server"; "resumed"; "reply"; "api"; "dbPath"; "db"; "success"]).
      { destruct Hk as [|[|]]; subst k; cbn; intuition discriminate. }
      pose proof (resume_try_block_keeps k a h sv Hin (ResumeEval.initial a sv)) as Hk'.
      rewrite dict_get_set_ne by (destruct Hk as [|[|]]; subst k; discriminate).
      destruct (snd (ResumeEval.try_block a h sv (ResumeEval.initial a sv))); [exact Hk'|].
      unfold ResumeEval.on_exception.
      rewrite !dict_get_set_ne by (destruct Hk as [|[|]]; subst k; discriminate). exact Hk'. }
    split; [|split; [|split]].
    + now rewrite Hkeep by auto.
    + now rewrite Hkeep by auto.
    + now rewrite Hkeep by auto.
    + unfold ResumeEval.main. cbn [written]. apply dict_get_set_eq.
Qed.

(** ** The steps a run records *)

Lemma appends_ret {A : Type} (a : A) : appends_steps [] (mret a).
Proof. intros s l H. exists []. cbn. now rewrite app_nil_r. Qed.

Lemma appends_call {A : Type} (o : outcome A) : appends_steps [] (call o).
Proof.
  intros s l H. exists []. cbn. rewrite app_nil_r. split; [exact H|].
  destruct o; [reflexivity | now exists []].
Qed.

Lemma appends_raise {A : Type} (names : list string) (e : exn) :
  appends_steps names (@raise A e).
Proof. intros s l H. exists []. cbn. rewrite app_nil_r. split; [exact H | now exists names]. Qed.

Lemma appends_server_is_up : appends_steps [] server_is_up.
Proof. intros s l H. exists []. cbn. now rewrite app_nil_r. Qed.

Lemma appends_set_key (k : string) (v : pyval) :
  k <> "steps" -> appends_steps [] (set_key k v).
Proof.
  intros Hk s l H. exists []. cbn. rewrite app_nil_r.
  split; [|reflexivity]. now rewrite dict_get_set_ne.
Qed.

Lemma appends_append_step (name : string) : appends_steps [name] (append_step name).
Proof.
  intros s l H. exists [name]. cbn. rewrite H. split; [apply dict_get_set_eq | reflexivity].
Qed.

Lemma appends_bind {A B : Type} (names1 names2 : list string) (m : M A) (f : A -> M B) :
  appends_steps names1 m -> (forall a, appends_steps names2 (f a)) ->
  appends_steps (names1 ++ names2) (mbind m f).
Proof.
  intros Hm Hf s l H. unfold mbind. destruct (Hm s l H) as (added1 & H1 & E1).
  destruct (m s) as [s' [a|e]]; cbn [fst snd] in *.
  - subst added1. destruct (Hf a s' _ H1) as (added2 & H2 & E2).
    exists (names1 ++ added2). rewrite List.map_app, app_assoc. split; [exact H2|].
    destruct (snd (f a s')).
    + now subst added2.
    + destruct E2 as [rest E2]. exists rest. now rewrite E2, app_assoc.
  - exists added1. split; [exact H1|]. destruct E1 as [rest E1].
    exists (rest ++ names2). now rewrite E1, app_assoc.
Qed.

Ltac appends_chain :=
  repeat first
    [ apply appends_ret | apply appends_call | apply appends_server_is_up
    | apply appends_append_step
    | apply appends_set_key; discriminate
    | eapply appends_bind; [|intros]
    | progress cbv zeta
    | match goal with
      | |- appends_steps _ (if ?b then _ else _) => destruct b
      | |- appends_steps _ (match ?x with Some _ => _ | None => _ end) => destruct x
      end ].

Lemma api_try_block_appends a h sv : appends_steps (all_steps a) (ApiEval.try_block a h sv).
Proof.
  assert (Hstart : appends_steps
                     [if ApiEval.no_start_server a then "server_reused" else "server_started"]
                     (ApiEval.start_phase a h sv)).
  { unfold ApiEval.start_phase. destruct (ApiEval.no_start_server a); cbn [negb].
    - change ["server_reused"] with ([] ++ ["server_reused"]).
      apply appends_bind; [apply appends_call | intros _; apply appends_append_step].
    - destruct (path_exists h (PathOf (ApiEval.server_exe a))); cbn [negb];
        [|apply appends_raise].
      change ["server_started"] with ([] ++ [] ++ [] ++ ["server_started"]).
      apply appends_bind; [apply appends_call | intros _].
      apply appends_bind; [apply appends_server_is_up | intros _].
      apply appends_bind; [apply appends_call | intros _; apply appends_append_step]. }
  assert (Hrest : exists names,
             appends_steps names
               (let* got := ApiEval.evaluation_steps a sv in
                run ApiEval.storage_step a h sv (fst got) (snd got) then
                run set_key "finishedAt" (PInt (now_ts sv 3)) then
                set_key "success" (PBool true)) /\
             names = ["session_started"; "provider_updated"]).
  { eexists. split.
    - unfold ApiEval.evaluation_steps, ApiEval.storage_step, ApiEval.turn. appends_chain.
    - reflexivity. }
  destruct Hrest as (names & Hrest & ->).
  unfold ApiEval.try_block, ApiEval.before_storage.
  intros s l H.
  pose proof (appends_bind _ _ _ _ Hstart (fun _ => Hrest) s l H) as Hall.
  unfold all_steps. cbn [app] in Hall.
  unfold mbind in *. destruct (ApiEval.start_phase a h sv s) as [s1 [[]|e]]; [|exact Hall].
  destruct (ApiEval.evaluation_steps a sv s1) as [s2 [got|e]]; exact Hall.
Qed.

(** X18. The steps in the report of a run of [cfpm_api_eval.py] are the
    first few of: the server step ("server_started", or "server_reused"
    with [--no-start-server]), "session_started", "provider_updated"; in
    this order, each once; and all three when the exit status is 0. *)
Theorem steps_in_order (a : ApiEval.Args) (h : Host) (sv : Service) :
  exists done,
    dict_get (written (ApiEval.main a h sv)) "steps" = Some (PList (List.map PStr done)) /\
    (exists rest, all_steps a = done ++ rest) /\
    (exit_status (ApiEval.main a h sv) = 0%Z -> done = all_steps a).
Proof.
  destruct (api_try_block_appends a h sv (ApiEval.initial a sv) [] eq_refl)
    as (added & Hsteps & Hend).
  exists added. unfold ApiEval.main. cbn [written exit_status].
  destruct (snd (ApiEval.try_block a h sv (ApiEval.initial a sv))) as [u|exc].
  - subst added. split; [exact Hsteps|]. split; [exists []; now rewrite app_nil_r | auto].
  - unfold ApiEval.on_exception. rewrite !dict_get_set_ne by discriminate.
    split; [exact Hsteps|]. split; [exact Hend|].
    unfold status_of, dict_get_default.
    rewrite dict_get_set_ne by discriminate. rewrite dict_get_set_eq. discriminate.
Qed.

(** ** The two lookups of the store *)

(** X19. [find_db] and [find_sessions_db] give the same answer on the same
    machine and argument, except when [find_sessions_db] answers with the
    store under [PATH_ROOT]. *)
Theorem lookups_differ_by_env_root (h : Host) (path_root : option string) :
  find_sessions_db h path_root = find_db h path_root \/
  exists r, given (environ h "PATH_ROOT") = Some r /\
            find_sessions_db h path_root = Some (db_under_root r) /\
            path_exists h (db_under_root r) = true.
Proof.
  unfold find_sessions_db, find_db, append_if. cbv zeta.
  destruct (given path_root) as [r0|]; destruct (given (environ h "PATH_ROOT")) as [r|];
    destruct (given (environ h "APPDATA")) as [ad|]; cbn [app first_existing];
    try (left; reflexivity);
    try destruct (path_exists h (db_under_root r0)); try (left; reflexivity);
    destruct (path_exists h (db_under_root r)) eqn:E; try (left; reflexivity);
    right; exists r; auto.
Qed.

(** ** The cross-validation, further *)

Lemma first_20_nil (s : gset key) : firstn 20 (py_sorted s) = [] <-> s = ∅.
Proof.
  split.
  - intros H. apply leibniz_equiv. apply size_empty_inv.
    rewrite <- py_sorted_length. destruct (py_sorted s); [reflexivity | discriminate].
  - intros ->. pose proof (py_sorted_length ∅) as H. rewrite size_empty in H.
    destruct (py_sorted ∅); [reflexivity | discriminate].
Qed.

(** X20. The cross-validation reports nothing, [apiOnly] and [dbOnly] both
    empty, exactly when the API and the store hold the same keys; it
    depends on the facts only through their sets of keys, so that order and
    repetition of rows change nothing; and exchanging the two sources
    exchanges the two lists. *)
Theorem api_db_fact_delta_agreement (facts_api db_facts facts_api' db_facts' : list dict) :
  (apiOnly (api_db_fact_delta facts_api db_facts) = [] /\
   dbOnly (api_db_fact_delta facts_api db_facts) = []
   <-> forall k, (exists f, In f facts_api /\ fact_key f = k)
                 <-> (exists f, In f db_facts /\ fact_key f = k)) /\
  ((forall k, (exists f, In f facts_api /\ fact_key f = k)
              <-> (exists f, In f facts_api' /\ fact_key f = k)) ->
   (forall k, (exists f, In f db_facts /\ fact_key f = k)
              <-> (exists f, In f db_facts' /\ fact_key f = k)) ->
   api_db_fact_delta facts_api db_facts = api_db_fact_delta facts_api' db_facts') /\
  apiOnly (api_db_fact_delta db_facts facts_api)
  = dbOnly (api_db_fact_delta facts_api db_facts).
Proof.
  split; [|split].
  - unfold api_db_fact_delta. cbn [apiOnly dbOnly]. rewrite !first_20_nil. split.
    + intros [H1 H2] k. rewrite <- !elem_of_key_set.
      assert (E1 : k ∉ key_set facts_api ∖ key_set db_facts) by (rewrite H1; apply not_elem_of_empty).
      assert (E2 : k ∉ key_set db_facts ∖ key_set facts_api) by (rewrite H2; apply not_elem_of_empty).
      rewrite elem_of_difference in E1, E2.
      destruct (decide (k ∈ key_set facts_api)), (decide (k ∈ key_set db_facts)); tauto.
    + intros H. split; apply leibniz_equiv; intros k;
        rewrite elem_of_difference, !elem_of_key_set, (H k);
        split; [tauto | intros E; now apply not_elem_of_empty in E
               | tauto | intros E; now apply not_elem_of_empty in E].
  - intros Ha Hd.
    assert (Ea : key_set facts_api = key_set facts_api').
    { apply leibniz_equiv. intros k. rewrite !elem_of_key_set. apply Ha. }
    assert (Ed : key_set db_facts = key_set db_facts').
    { apply leibniz_equiv. intros k. rewrite !elem_of_key_set. apply Hd. }
    unfold api_db_fact_delta. now rewrite Ea, Ed.
  - reflexivity.
Qed.

(** ** The error of a turn *)

Lemma first_error_plain (body tail : list dict) :
  Forall (fun e => is_terminal e = false) body ->
  ApiEval.first_error (body ++ tail) = ApiEval.first_error tail.
Proof.
  intros H. induction H as [|e body He Hb IH]; [reflexivity|]. cbn [app ApiEval.first_error].
  unfold is_terminal in He. apply orb_false_iff in He. destruct He as [_ He].
  now rewrite He.
Qed.

(** X21. The [error] in the summary of a turn is the error of the last
    event [stream_reply] returned, when that event is of type "Error", and
    null otherwise: no earlier event can be the one it reports. *)
Theorem turn_error_of_last_event (json_loads : string -> option pyval)
    (started : Q) (timeout_sec : Z) (resp : list (Q * string) * stream_end)
    (evs : list dict) :
  stream_reply json_loads started timeout_sec resp = Returns evs ->
  ApiEval.first_error evs
  = if is_str (dict_get (List.last evs []) "type") "Error"
    then dict_get_default (List.last evs []) "error" PNone
    else PNone.
Proof.
  unfold stream_reply. intros H.
  apply stream_loop_shape in H; [|constructor].
  destruct H as (body & tail & -> & Hb & Ht).
  rewrite first_error_plain by exact Hb.
  destruct tail as [|x [|y tail]]; [| |cbn in Ht; lia].
  - rewrite app_nil_r. cbn [ApiEval.first_error].
    destruct body as [|b body] using rev_ind; [reflexivity|].
    rewrite last_last. apply Forall_app in Hb. destruct Hb as [_ Hb].
    inversion Hb as [|? ? Hx _]; subst. unfold is_terminal in Hx.
    apply orb_false_iff in Hx. destruct Hx as [_ Hx]. now rewrite Hx.
  - rewrite last_last. reflexivity.
Qed.

Lemma turn_error_of_last_event_witness :
  ApiEval.first_error [error_event] = PStr "boom".
Proof.
  rewrite (turn_error_of_last_event sample_loads 0%Q 240%Z (error_response, Eof) [error_event]).
  - reflexivity.
  - vm_compute. reflexivity.
Defined.

(** ** Waiting for the server *)








(** ** What reaches the evaluator *)

Lemma last_n_suffix {A : Type} (n : nat) (l : list A) :
  exists before, l = before ++ last_n n l.
Proof. exists (firstn (List.length l - n) l). unfold last_n. now rewrite firstn_skipn. Qed.

(** X24. The run scores the last 30 captured commands at most: the probe
    count of the quality report never exceeds 30, and every probe command
    it lists is one of the captured commands. *)
Theorem second_turn_probe_bound (facts cands gates : list dict) (commands_all : list string) :
  probeCount (probeStatsSecondTurn
                (evaluate_quality facts cands gates (last_n 30 commands_all))) <= 30 /\
  sublist (probeCommands (probeStatsSecondTurn
                            (evaluate_quality facts cands gates (last_n 30 commands_all))))
          commands_all.
Proof.
  cbn [evaluate_quality probeStatsSecondTurn]. unfold score_probe_commands.
  cbn [probeCount probeCommands].
  pose proof (filter_sublist is_probe (last_n 30 commands_all)) as Hsub.
  split.
  - apply sublist_length in Hsub. etransitivity; [exact Hsub|].
    unfold last_n. rewrite length_skipn. lia.
  - etransitivity; [exact Hsub|]. destruct (last_n_suffix 30 commands_all) as [before E].
    rewrite E at 2. apply sublist_inserts_l. reflexivity.
Qed.

(** ** The keys of the report of a successful run *)

Lemma dict_set_keeps_key (d : dict) (k k' : string) (v : pyval) :
  dict_get d k' <> None -> dict_get (dict_set d k v) k' <> None.
Proof.
  intros H. destruct (String.eqb k k') eqn:E.
  - apply String.eqb_eq in E. subst k'. now rewrite dict_get_set_eq.
  - apply String.eqb_neq in E. now rewrite dict_get_set_ne.
Qed.

Lemma records_ret {A : Type} (a : A) : records [] (mret a).
Proof. intros s. split; [auto | intros u _ k []]. Qed.

Lemma records_call {A : Type} (o : outcome A) : records [] (call o).
Proof. intros s. split; [auto | intros u _ k []]. Qed.

Lemma records_raise {A : Type} (keys : list string) (e : exn) : records keys (@raise A e).
Proof. intros s. split; [auto | discriminate]. Qed.

Lemma records_server_is_up : records [] server_is_up.
Proof. intros s. split; [auto | intros u _ k []]. Qed.

Lemma records_set_key (k : string) (v : pyval) : records [k] (set_key k v).
Proof.
  intros s. split.
  - intros k'. apply dict_set_keeps_key.
  - intros u _ k' [<-|[]]. cbn. now rewrite dict_get_set_eq.
Qed.

Lemma records_append_step (name : string) : records ["steps"] (append_step name).
Proof.
  intros s. split.
  - intros k'. apply dict_set_keeps_key.
  - intros u _ k' [<-|[]]. cbn. now rewrite dict_get_set_eq.
Qed.

Lemma records_bind {A B : Type} (keys1 keys2 : list string) (m : M A) (f : A -> M B) :
  records keys1 m -> (forall a, records keys2 (f a)) -> records (keys1 ++ keys2) (mbind m f).
Proof.
  intros Hm Hf s. unfold mbind. destruct (Hm s) as [Hkeep Hset].
  destruct (m s) as [s' [a|e]]; cbn [fst snd] in *.
  - destruct (Hf a s') as [Hkeep' Hset']. split.
    + intros k Hk. apply Hkeep'. now apply Hkeep.
    + intros u Hu k Hin. apply in_app_or in Hin. destruct Hin as [Hin|Hin].
      * apply Hkeep'. now apply (Hset a).
      * now apply (Hset' u).
  - split; [exact Hkeep | discriminate].
Qed.

Lemma records_fewer {A : Type} (keys keys' : list string) (m : M A) :
  records keys m -> (forall k, In k keys' -> In k keys) -> records keys' m.
Proof.
  intros Hm Hin s. destruct (Hm s) as [Hkeep Hset]. split; [exact Hkeep|].
  intros u Hu k Hk. apply (Hset u Hu). now apply Hin.
Qed.

Ltac records_chain :=
  repeat first
    [ apply records_ret | apply records_call | apply records_server_is_up
    | apply records_append_step | apply records_set_key
    | eapply records_bind; [|intros]
    | progress cbv zeta ].

Lemma api_start_phase_records a h sv : records ["steps"] (ApiEval.start_phase a h sv).
Proof.
  unfold ApiEval.start_phase. destruct (negb (ApiEval.no_start_server a)).
  - destruct (negb (path_exists h (PathOf (ApiEval.server_exe a)))); [apply records_raise|].
    change ["steps"] with ([] ++ [] ++ [] ++ ["steps"]). records_chain.
  - change ["steps"] with ([] ++ ["steps"]). records_chain.
Qed.

Lemma api_storage_step_records a h sv sid facts :
  records ["dbPath"; "dbSnapshot"] (ApiEval.storage_step a h sv sid facts).
Proof.
  unfold ApiEval.storage_step. cbv zeta.
  change ["dbPath"; "dbSnapshot"] with (["dbPath"] ++ ["dbSnapshot"]).
  apply records_bind; [apply records_set_key | intros _].
  destruct (find_sessions_db h (ApiEval.path_root a)) as [p|]; [|apply records_set_key].
  destruct (path_exists h p); [|apply records_set_key].
  eapply records_fewer.
  - records_chain.
  - cbn. tauto.
Qed.

Lemma api_try_block_records a h sv :
  records ["steps"; "provider"; "model"; "sessionId"; "turn1"; "turn2"; "apiSnapshot";
           "quality"; "dbPath"; "dbSnapshot"; "finishedAt"; "success"]
    (ApiEval.try_block a h sv).
Proof.
  assert (Hsteps : exists keys,
             records keys (ApiEval.evaluation_steps a sv) /\
             forall k, In k ["provider"; "model"; "sessionId"; "turn1"; "turn2"; "apiSnapshot";
                             "quality"] -> In k keys).
  { eexists. split.
    - unfold ApiEval.evaluation_steps, ApiEval.turn. records_chain.
    - cbn. tauto. }
  destruct Hsteps as (keys & Hsteps & Hkeys).
  unfold ApiEval.try_block, ApiEval.before_storage.
  eapply records_fewer.
  - eapply records_bind; [|intros got].
    + eapply records_bind; [apply api_start_phase_records | intros _; exact Hsteps].
    + eapply records_bind; [apply api_storage_step_records | intros _].
      eapply records_bind; [|intros _]; apply records_set_key.
  - intros k Hk. rewrite !in_app_iff.
    cbn in Hk. destruct Hk as [<-|Hk]; [left; left; now left|].
    destruct (in_dec string_dec k ["provider"; "model"; "sessionId"; "turn1"; "turn2";
                                   "apiSnapshot"; "quality"]) as [Hin|Hout].
    + left. right. now apply Hkeys.
    + right. cbn in Hout |- *. tauto.
Qed.

Lemma resume_try_block_records a h sv :
  records ["server"; "resumed"; "reply"; "api"; "dbPath"; "success"]
    (ResumeEval.try_block a h sv).
Proof.
  assert (Hstart : records ["server"] (ResumeEval.start_phase a h sv)).
  { unfold ResumeEval.start_phase. destruct (negb (ResumeEval.no_start_server a)).
    - destruct (negb (path_exists h (PathOf (ResumeEval.server_exe a))));
        [apply records_raise|].
      change ["server"] with ([] ++ [] ++ [] ++ ["server"]). records_chain.
    - change ["server"] with ([] ++ ["server"]). records_chain. }
  assert (Hsteps : exists keys,
             records keys (ResumeEval.evaluation_steps a sv) /\
             forall k, In k ["resumed"; "reply"; "api"] -> In k keys).
  { eexists. split.
    - unfold ResumeEval.evaluation_steps. records_chain.
    - cbn. tauto. }
  destruct Hsteps as (keys & Hsteps & Hkeys).
  assert (Hstore : records ["dbPath"] (ResumeEval.storage_step a h sv)).
  { unfold ResumeEval.storage_step. cbv zeta.
    destruct (find_db h (ResumeEval.path_root a)) as [p|].
    - eapply records_fewer; [records_chain | cbn; tauto].
    - change ["dbPath"] with (["dbPath"] ++ []).
      apply records_bind; [apply records_set_key | intros _; apply records_ret]. }
  unfold ResumeEval.try_block, ResumeEval.before_storage.
  eapply records_fewer.
  - eapply records_bind; [|intros _].
    + eapply records_bind; [exact Hstart | intros _; exact Hsteps].
    + eapply records_bind; [exact Hstore | intros _; apply records_set_key].
  - intros k Hk. rewrite !in_app_iff.
    cbn in Hk. destruct Hk as [<-|Hk]; [left; left; now left|].
    destruct (in_dec string_dec k ["resumed"; "reply"; "api"]) as [Hin|Hout].
    + left. right. now apply Hkeys.
    + right. cbn in Hout |- *. tauto.
Qed.

(** X25. A run that ends with exit status 0 has written a complete report:
    every part the script fills in is there, and there is no [error]. *)
Theorem successful_report_complete (h : Host) (sv : Service) :
  (forall a, exit_status (ApiEval.main a h sv) = 0%Z ->
     (forall k, In k ["startedAt"; "baseUrl"; "steps"; "provider"; "model"; "sessionId";
                      "turn1"; "turn2"; "apiSnapshot"; "quality"; "dbPath"; "dbSnapshot";
                      "finishedAt"; "success"] ->
                dict_get (written (ApiEval.main a h sv)) k <> None) /\
     dict_get (written (ApiEval.main a h sv)) "error" = None) /\
  (forall a, exit_status (ResumeEval.main a h sv) = 0%Z ->
     (forall k, In k ["startedAt"; "baseUrl"; "sessionId"; "server"; "resumed"; "reply";
                      "api"; "dbPath"; "success"; "finishedAt"] ->
                dict_get (written (ResumeEval.main a h sv)) k <> None) /\
     dict_get (written (ResumeEval.main a h sv)) "error" = None).
Proof.
  split; intros a Hexit.
  - pose proof (api_main_report a h sv) as Hrep.
    destruct (api_try_block_records a h sv (ApiEval.initial a sv)) as [Hkeep Hset].
    unfold ApiEval.main in *. cbn [written exit_status] in *.
    destruct (snd (ApiEval.try_block a h sv (ApiEval.initial a sv))) as [u|exc].
    + split; [|apply Hrep]. intros k Hk.
      cbn in Hk. destruct Hk as [<-|[<-|Hk]]; [apply Hkeep; cbn; discriminate ..|].
      apply (Hset u eq_refl). cbn. tauto.
    + exfalso. destruct Hrep as [Hrep _]. unfold status_of, dict_get_default in Hexit.
      rewrite Hrep in Hexit. discriminate.
  - pose proof (resume_main_report a h sv) as Hrep.
    destruct (resume_try_block_records a h sv (ResumeEval.initial a sv)) as [Hkeep Hset].
    unfold ResumeEval.main in *. cbn [written exit_status] in *.
    destruct (snd (ResumeEval.try_block a h sv (ResumeEval.initial a sv))) as [u|exc].
    + split; [|apply Hrep]. intros k Hk.
      destruct (String.eqb_spec "finishedAt" k) as [<-|Hne];
        [rewrite dict_get_set_eq; discriminate|].
      rewrite dict_get_set_ne by exact Hne.
      cbn in Hk. destruct Hk as [<-|[<-|[<-|Hk]]]; [apply Hkeep; cbn; discriminate ..|].
      apply (Hset u eq_refl). cbn. tauto.
    + exfalso. destruct Hrep as [Hrep _]. unfold status_of, dict_get_default in Hexit.
      rewrite Hrep in Hexit. discriminate.
Qed.

Lemma successful_report_complete_witness :
  dict_get (written (ApiEval.main api_args bare_host steady_service)) "quality" <> None /\
  dict_get (written (ResumeEval.main resume_args bare_host steady_service)) "reply" <> None.
Proof.
  destruct (successful_report_complete bare_host steady_service) as [Ha Hr].
  assert (Hapi : exit_status (ApiEval.main api_args bare_host steady_service) = 0%Z)
    by (vm_compute; reflexivity).
  assert (Hres : exit_status (ResumeEval.main resume_args bare_host steady_service) = 0%Z)
    by (vm_compute; reflexivity).
  destruct (Ha api_args Hapi) as [Hkeys _]. destruct (Hr resume_args Hres) as [Hkeys' _].
  split; [apply Hkeys | apply Hkeys']; cbn; tauto.
Defined.

(** ** The two patterns *)

Lemma digit_not_letter (c : ascii) : isdigit c = true -> is_ascii_letter c = false.
Proof. each_char c; vm_compute; congruence. Qed.

Lemma date_not_desktop_path (s : string) : bare_date s -> ~ plain_desktop_path s.
Proof.
  intros (y & m & d & sep1 & sep2 & E & Hy & _ & _ & Hdig & _)
         (drive & users & seg & desktop & tail & E' & Hdrive & _).
  rewrite E in E'. destruct y as [|c y]; [discriminate|].
  inversion E'; subst. inversion Hdig as [|? ? Hc _]; subst.
  apply digit_not_letter in Hc. congruence.
Qed.

(** X26. The two patterns exclude each other: a string is never both a
    bare date and a desktop path, so no fact is listed both in
    [dateNoiseFacts] and in [wrongDesktopArtifacts]. *)
Theorem date_noise_not_wrong_desktop (facts cands gates : list dict) (cmds : list string)
    (f : dict) :
  In f (dateNoiseFacts (evaluate_quality facts cands gates cmds)) ->
  ~ In f (wrongDesktopArtifacts (evaluate_quality facts cands gates cmds)).
Proof.
  cbn [evaluate_quality dateNoiseFacts wrongDesktopArtifacts]. intros Hd Hw.
  apply filter_In in Hd, Hw. destruct Hd as [_ Hd], Hw as [_ Hw].
  unfold is_date_content in Hd. unfold is_wrong_desktop_content in Hw.
  apply str_field_sat_iff in Hd, Hw.
  destruct Hd as (s & Es & Hd), Hw as (s' & Es' & Hw).
  rewrite Es in Es'. inversion Es'; subst s'.
  apply date_only_match_strip in Hd. apply desktop_wrong_match_strip in Hw.
  exact (date_not_desktop_path _ Hd Hw).
Qed.

Lemma date_noise_not_wrong_desktop_witness :
  ~ In date_fact (wrongDesktopArtifacts (evaluate_quality [bob_desktop; date_fact] [] [] [])).
Proof.
  apply date_noise_not_wrong_desktop. vm_compute. now left.
Defined.
